(** * Playwright Fire Reports: the analytics core, embedded and verified

    A shallow embedding of the TypeScript sources
    - [parser.ts]               (tree flattener and structural validator),
    - [statistics.ts]           (basic aggregator),
    - [vueReportGenerator.ts]   (percentiles, scores, rollups, trend comparison),
    - [reportGenerator.ts], [advancedReportGenerator.ts] (entry guards),
    - the command-line tool     (history window loader),
    followed by the properties proved about them.

    Numbers.  Counters, retries, millisecond durations and timestamps are
    integers ([Z]).  Every quotient the code forms is computed exactly in [Q]
    and brought back to [Z] by [Math.round] or [Math.ceil];
    IEEE-754 rounding of the intermediate double is not modelled.  Where
    the double of the source is not the exact value, a rounded result can
    differ by one: [Math.round((23 / 40) * 100)] is 57 in the source and 58
    here, and [Math.ceil((7 / 100) * 100)] is 8 in the source and 7 here.
    Properties about rounded values are therefore stated by bounds, by
    thresholds at which both agree, or as lying within half a point of the
    exact share.  A value the code may leave [undefined] or [NaN] is an
    [option]. *)

From Stdlib Require Import ZArith QArith Qround Qminmax List String Bool Lia.
From Stdlib Require Import Permutation Sorted Ascii.
Import ListNotations.
Open Scope string_scope.
Open Scope list_scope.
Open Scope Z_scope.

Set Implicit Arguments.
Set Warnings "-register-all".

(** ** JavaScript primitives used by the sources *)

Module JS.

(** [Math.round]: nearest integer, halves towards +infinity. *)
Definition Math_round (x : Q) : Z := Qfloor (x + (1 # 2)).

Definition Math_ceil (x : Q) : Z := Qceiling x.

(** [a / b] on two integers, as an exact quotient. *)
Definition div (a b : Z) : Q := (inject_Z a / inject_Z b)%Q.

(** [arr.length]. *)
Definition len {A} (l : list A) : Z := Z.of_nat (List.length l).

(** [arr.filter(f).length]. *)
Definition count {A} (f : A -> bool) (l : list A) : Z := len (filter f l).

(** Truthiness of an optional string: [undefined] and [''] are falsy. *)
Definition truthy (s : option string) : bool :=
  match s with
  | Some s => negb (s =? EmptyString)%string
  | None => false
  end.

(** [a || b] on optional strings. *)
Definition or_else (a b : option string) : option string :=
  if truthy a then a else b.

(** [a || d] where [d] is a string literal. *)
Definition or_lit (a : option string) (d : string) : string :=
  match a with
  | Some s => if (s =? EmptyString)%string then d else s
  | None => d
  end.

(** [Array.prototype.sort(cmp)]: the sort is stable; [cmp a b <= 0] keeps
    [a] in front of [b].  A comparator result of [NaN] counts as [0]
    and is passed here as [0].  For a comparator that is a consistent
    ordering this is the order of the engine; for one that is not (some
    differences [NaN], others not) the engine may arrange the elements
    otherwise, and only what holds of every rearrangement carries over. *)
Section Sort.
Variable A : Type.
Variable cmp : A -> A -> Z.

Fixpoint insert (x : A) (s : list A) : list A :=
  match s with
  | [] => [x]
  | y :: s' => if cmp x y <=? 0 then x :: y :: s' else y :: insert x s'
  end.

Fixpoint sort (l : list A) : list A :=
  match l with
  | [] => []
  | x :: l' => insert x (sort l')
  end.
End Sort.

(** [arr.slice(0, n)] and [arr.slice(-n)] for [n >= 0]. *)
Definition slice_to {A} (n : nat) (l : list A) : list A := firstn n l.

Definition slice_last {A} (n : nat) (l : list A) : list A :=
  skipn (List.length l - n) l.

(** [arr[i]], [undefined] out of range. *)
Definition at_index {A} (l : list A) (i : Z) : option A :=
  if i <? 0 then None else nth_error l (Z.to_nat i).

(** [String.prototype.trim] on ASCII white space; the white space outside
    ASCII that [trim] strips as well (U+00A0, U+FEFF, U+2028, ...) is kept
    here. *)
Definition is_space (c : Ascii.ascii) : bool :=
  let n := Ascii.nat_of_ascii c in
  ((n =? 32) || ((9 <=? n) && (n <=? 13)))%nat.

Fixpoint trim_start (s : string) : string :=
  match s with
  | String c s' => if is_space c then trim_start s' else s
  | EmptyString => EmptyString
  end.

Fixpoint trim_end (s : string) : string :=
  match s with
  | String c s' =>
      match trim_end s' with
      | EmptyString => if is_space c then EmptyString else String c EmptyString
      | rest => String c rest
      end
  | EmptyString => EmptyString
  end.

Definition trim (s : string) : string := trim_end (trim_start s).

End JS.

(** ** vueReportGenerator.ts: clamp and percentile *)

(** [clamp(n, min = 0, max = 100)] *)
Definition clamp_range (n lo hi : Z) : Z := Z.max lo (Z.min hi n).

Definition clamp (n : Z) : Z := clamp_range n 0 100.

(** The comparator [(a, b) => a - b]. *)
Definition ascending (a b : Z) : Z := a - b.

(** [percentile(values, p)], with the product [(p / 100) * n] taken
    exactly. *)
Definition percentile (values : list Z) (p : Z) : Z :=
  if JS.len values =? 0 then 0
  else
    let sorted := JS.sort ascending values in
    let idx := JS.Math_ceil (JS.div p 100 * inject_Z (JS.len sorted)) - 1 in
    nth (Z.to_nat (Z.max 0 (Z.min (JS.len sorted - 1) idx))) sorted 0.

(** The nearest-rank rule in the specification's words: the rank index is
    [ceil((p/100) * n) - 1], clamped into [[0, n-1]]. *)
Definition nearest_rank_index (p : Z) (n : nat) : nat :=
  Z.to_nat (clamp_range (Qceiling ((inject_Z p / 100) * inject_Z (Z.of_nat n)) - 1)
                        0 (Z.of_nat n - 1)).

(** ** parser.ts: the data model *)

(** [TestResult]: one test outcome after its retries are resolved.  The
    status is kept as the string the report carries. *)
Record TestResult := mkTestResult {
  title : string;
  status : string;
  duration : Z;
  retries : Z;
  browser : option string;
  suite : option string;
  error : option string;
  errorStack : option string;
  file : option string;
  line : option Z;
  column : option Z;
  steps : option (list string)
}.

(** [BrowserStats] and [SuiteStats] have the same shape; [g_name] is the
    [browser] or the [suite] field. *)
Record GroupStats := mkGroupStats {
  g_name : string;
  g_total : Z;
  g_passed : Z;
  g_failed : Z;
  g_skipped : Z;
  g_timedOut : Z;
  g_flaky : Z;
  g_passRate : Z;
  g_duration : Z
}.

(** [ReportData].  [tests] and the four optional arrays may be absent. *)
Record ReportData := mkReportData {
  totalTests : Z;
  passed : Z;
  failed : Z;
  skipped : Z;
  flaky : Z;
  totalDuration : Z;
  tests : option (list TestResult);
  suites : option (list string);
  browsers : option (list string);
  browserStats : option (list GroupStats);
  suiteStats : option (list GroupStats)
}.

(** [PlaywrightReport]: the nested suite / spec / test / attempt tree. *)
Record ErrorInfo := mkErrorInfo {
  message : option string;
  stack : option string
}.

Record AttemptResult := mkAttemptResult {
  r_status : string;
  r_duration : option Z;
  r_error : option ErrorInfo;
  r_errors : option (list ErrorInfo);
  r_stdout : option (list (option string))   (* the [text] of each chunk *)
}.

Record TestNode := mkTestNode {
  t_title : option string;
  t_projectName : option string;
  t_file : option string;
  t_line : option Z;
  t_column : option Z;
  t_results : option (list AttemptResult)
}.

Record SpecEntry := mkSpecEntry {
  sp_title : string;
  sp_file : option string;
  sp_tests : option (list TestNode)
}.

Inductive SuiteNode : Type :=
  mkSuiteNode (su_title : option string) (su_file : option string)
              (su_specs : option (list SpecEntry))
              (su_suites : option (list SuiteNode)).

Definition su_title (s : SuiteNode) : option string :=
  let (t, _, _, _) := s in t.

Definition su_file (s : SuiteNode) : option string :=
  let (_, f, _, _) := s in f.

Record PlaywrightReport := mkPlaywrightReport {
  pw_suites : option (list SuiteNode)
}.

Record CollectedSpec := mkCollectedSpec {
  spec : SpecEntry;
  suiteTitle : option string
}.

(** ** parser.ts: collectSpecs *)

(** [collectSpecs(suite, acc, parentSuiteTitle)]; the pushes on [acc] are
    returned as the new accumulator. *)
Fixpoint collectSpecs (suite : SuiteNode) (acc : list CollectedSpec)
         (parentSuiteTitle : option string) : list CollectedSpec :=
  match suite with
  | mkSuiteNode stitle _ specs childSuites =>
      let currentTitle := JS.or_else stitle parentSuiteTitle in
      let acc1 :=
        match specs with
        | Some specs =>
            fold_left
              (fun acc sp =>
                 match sp_tests sp with
                 | Some _ => acc ++ [mkCollectedSpec sp currentTitle]
                 | None => acc
                 end)
              specs acc
        | None => acc
        end in
      match childSuites with
      | Some children =>
          fold_left (fun acc child => collectSpecs child acc currentTitle)
                    children acc1
      | None => acc1
      end
  end.

(** ** parser.ts: getResultError, getResultErrorStack *)

Definition getResultError (result : AttemptResult) : option string :=
  if JS.truthy (match r_error result with Some e => message e | None => None end)
  then match r_error result with Some e => message e | None => None end
  else
    match r_errors result with
    | Some (e0 :: _) => if JS.truthy (message e0) then message e0 else None
    | _ => None
    end.

Definition getResultErrorStack (result : AttemptResult) : option string :=
  if JS.truthy (match r_error result with Some e => stack e | None => None end)
  then match r_error result with Some e => stack e | None => None end
  else
    match r_errors result with
    | Some (e0 :: _) => if JS.truthy (stack e0) then stack e0 else None
    | _ => None
    end.

(** ** parser.ts: parsePlaywrightReport *)

(** The four variables the walk mutates. *)
Record ParseState := mkParseState {
  st_tests : list TestResult;
  st_suites : list string;       (* a [Set<string>], in insertion order *)
  st_browsers : list string;     (* a [Set<string>], in insertion order *)
  st_totalDuration : Z
}.

(** [set.add(s)] *)
Definition set_add (s : string) (l : list string) : list string :=
  if existsb (String.eqb s) l then l else l ++ [s].

(** [if (x) set.add(x)] *)
Definition add_if_truthy (x : option string) (l : list string) : list string :=
  match x with
  | Some s => if (s =? EmptyString)%string then l else set_add s l
  | None => l
  end.

(** [stdout.map(s => (s?.text ?? '').trim()).filter(Boolean)] *)
Definition stdoutSteps (stdout : list (option string)) : list string :=
  filter (fun s => negb (s =? EmptyString)%string)
         (map (fun s => JS.trim (match s with Some t => t | None => EmptyString end)) stdout).

(** The body of the loop over [spec.tests]. *)
Definition processTest (suite : SuiteNode) (item : CollectedSpec)
           (st : ParseState) (test : TestNode) : ParseState :=
  let results := match t_results test with Some r => r | None => [] end in
  match JS.at_index results (JS.len results - 1) with
  | None => st                                   (* results.length === 0 *)
  | Some lastResult =>
      let retries := JS.len results - 1 in
      let steps := option_map stdoutSteps (r_stdout lastResult) in
      let browser := t_projectName test in
      let browsers' := add_if_truthy browser (st_browsers st) in
      let suiteName :=
        JS.or_lit (JS.or_else (JS.or_else (suiteTitle item) (sp_file (spec item)))
                              (su_title suite))
                  "Unknown Suite" in
      let testRecord := {|
        title := JS.or_lit (JS.or_else (Some (sp_title (spec item))) (t_title test))
                           "Unnamed test";
        status := r_status lastResult;
        duration := match r_duration lastResult with Some d => d | None => 0 end;
        retries := retries;
        browser := browser;
        suite := Some suiteName;
        error := getResultError lastResult;
        errorStack := getResultErrorStack lastResult;
        file := JS.or_else (sp_file (spec item)) (t_file test);
        line := t_line test;
        column := t_column test;
        steps := match steps with
                 | Some (x :: l) => Some (x :: l)
                 | _ => None
                 end
      |} in
      {| st_tests := st_tests st ++ [testRecord];
         st_suites := st_suites st;
         st_browsers := browsers';
         st_totalDuration := st_totalDuration st + duration testRecord |}
  end.

(** The body of the loop over [allSpecs]. *)
Definition processItem (suite : SuiteNode) (st : ParseState)
           (item : CollectedSpec) : ParseState :=
  let st1 := {| st_tests := st_tests st;
                st_suites := add_if_truthy (sp_file (spec item)) (st_suites st);
                st_browsers := st_browsers st;
                st_totalDuration := st_totalDuration st |} in
  fold_left (processTest suite item)
            (match sp_tests (spec item) with Some ts => ts | None => [] end) st1.

(** The inner function [processSuite(suite)]. *)
Definition processSuite (st : ParseState) (suite : SuiteNode) : ParseState :=
  let st1 := {| st_tests := st_tests st;
                st_suites := add_if_truthy (su_file suite)
                               (add_if_truthy (su_title suite) (st_suites st));
                st_browsers := st_browsers st;
                st_totalDuration := st_totalDuration st |} in
  let allSpecs := collectSpecs suite [] None in
  fold_left (processItem suite) allSpecs st1.

Definition isPassed (t : TestResult) : bool := (status t =? "passed")%string.
Definition isFailed (t : TestResult) : bool := (status t =? "failed")%string.
Definition isSkipped (t : TestResult) : bool := (status t =? "skipped")%string.
Definition isTimedOut (t : TestResult) : bool := (status t =? "timedOut")%string.

(** [t.retries > 0 && t.status === 'passed'] *)
Definition isFlaky (t : TestResult) : bool := (retries t >? 0) && isPassed t.

(** A [Map<string, stats>] in insertion order: [map.get(key) || fresh],
    the in-place update, [map.set(key, entry)]. *)
Fixpoint upsert {V} (key : string) (fresh : V) (f : V -> V)
         (m : list (string * V)) : list (string * V) :=
  match m with
  | [] => [(key, f fresh)]
  | (k, v) :: m' =>
      if (k =? key)%string then (k, f v) :: m'
      else (k, v) :: upsert key fresh f m'
  end.

Definition emptyGroup (name : string) : GroupStats :=
  mkGroupStats name 0 0 0 0 0 0 0 0.

Definition b2z (b : bool) : Z := if b then 1 else 0.

(** The updates applied to one browser or suite entry for one test. *)
Definition tally (t : TestResult) (g : GroupStats) : GroupStats :=
  {| g_name := g_name g;
     g_total := g_total g + 1;
     g_passed := g_passed g + b2z (isPassed t);
     g_failed := g_failed g + b2z (isFailed t);
     g_skipped := g_skipped g + b2z (isSkipped t);
     g_timedOut := g_timedOut g + b2z (isTimedOut t);
     g_flaky := g_flaky g + b2z (isFlaky t);
     g_passRate := g_passRate g;
     g_duration := g_duration g + duration t |}.

Definition browserKey (t : TestResult) : string := JS.or_lit (browser t) "unknown".

Definition suiteKey (t : TestResult) : string :=
  JS.or_lit (JS.or_else (suite t) (file t)) "Unknown Suite".

Definition groupBy (key : TestResult -> string) (ts : list TestResult)
  : list (string * GroupStats) :=
  fold_left (fun m t => upsert (key t) (emptyGroup (key t)) (tally t) m) ts [].

(** [passRate: g.total > 0 ? Math.round((g.passed / g.total) * 100) : 0] *)
Definition withPassRate (g : GroupStats) : GroupStats :=
  {| g_name := g_name g;
     g_total := g_total g;
     g_passed := g_passed g;
     g_failed := g_failed g;
     g_skipped := g_skipped g;
     g_timedOut := g_timedOut g;
     g_flaky := g_flaky g;
     g_passRate := if g_total g >? 0
                   then JS.Math_round (JS.div (g_passed g) (g_total g) * 100)
                   else 0;
     g_duration := g_duration g |}.

(** The comparator [(a, b) => b.total - a.total]. *)
Definition byTotalDesc (a b : GroupStats) : Z := g_total b - g_total a.

Definition derivedStats (key : TestResult -> string) (ts : list TestResult)
  : list GroupStats :=
  map withPassRate (map snd (groupBy key ts)).

Definition initialParseState : ParseState := mkParseState [] [] [] 0.

Definition parsePlaywrightReport (report : PlaywrightReport) : ReportData :=
  let st := fold_left processSuite
              (match pw_suites report with Some l => l | None => [] end)
              initialParseState in
  let tests := st_tests st in
  {| totalTests := JS.len tests;
     passed := JS.count isPassed tests;
     failed := JS.count isFailed tests;
     skipped := JS.count isSkipped tests;
     flaky := JS.count isFlaky tests;
     totalDuration := st_totalDuration st;
     tests := Some tests;
     suites := Some (st_suites st);
     browsers := Some (st_browsers st);
     browserStats := Some (JS.sort byTotalDesc (derivedStats browserKey tests));
     suiteStats := Some (JS.sort byTotalDesc (derivedStats suiteKey tests)) |}.

(** ** parser.ts: validatePlaywrightReport *)

(** The validator takes [any]: a parsed JSON document.  Only the shape of a
    value matters to it, so numbers are kept as integers. *)
Inductive JSON : Type :=
| JNull
| JBool (b : bool)
| JNum (n : Z)
| JStr (s : string)
| JArr (items : list JSON)
| JObj (fields : list (string * JSON)).

(** [!!v] *)
Definition js_truthy (v : JSON) : bool :=
  match v with
  | JNull => false
  | JBool b => b
  | JNum n => negb (n =? 0)
  | JStr s => negb (s =? EmptyString)%string
  | JArr _ | JObj _ => true
  end.

(** [typeof v === 'object'] *)
Definition typeof_object (v : JSON) : bool :=
  match v with
  | JNull | JArr _ | JObj _ => true
  | _ => false
  end.

Fixpoint lookup (k : string) (fields : list (string * JSON)) : option JSON :=
  match fields with
  | [] => None
  | (k', v) :: rest => if (k' =? k)%string then Some v else lookup k rest
  end.

(** [v.k] for a key that is no built-in property, on a value that is not
    [null]; [None] is [undefined]. *)
Definition prop (v : JSON) (k : string) : option JSON :=
  match v with
  | JObj fields => lookup k fields
  | _ => None
  end.

(** [Array.isArray(x) ? x : nothing] *)
Definition asArray (x : option JSON) : option (list JSON) :=
  match x with
  | Some (JArr items) => Some items
  | _ => None
  end.

(** A [for] loop whose body may [return false]; [None] is an exhausted
    recursion budget. *)
Fixpoint forEachOk {A} (body : A -> option bool) (l : list A) : option bool :=
  match l with
  | [] => Some true
  | x :: l' =>
      match body x with
      | Some true => forEachOk body l'
      | r => r
      end
  end.

(** [s && Array.isArray(s.tests)] *)
Definition specHasTests (s : JSON) : bool :=
  js_truthy s && match asArray (prop s "tests") with Some _ => true | None => false end.

(** [validatePlaywrightReport(report)].  The source recurses on the fresh
    object [{ suites: [child] }], so the recursion is bounded by a budget. *)
Fixpoint validateFuel (fuel : nat) (report : JSON) : option bool :=
  match fuel with
  | O => None
  | S fuel' =>
      if negb (js_truthy report) || negb (typeof_object report) then Some false
      else
        match asArray (prop report "suites") with
        | None => Some false
        | Some suites =>
            forEachOk
              (fun suite =>
                 if negb (js_truthy suite) || negb (typeof_object suite)
                 then Some false
                 else
                   let specs := prop suite "specs" in
                   let childSuites := prop suite "suites" in
                   let hasSpecs :=
                     match asArray specs with
                     | Some l => existsb specHasTests l
                     | None => false
                     end in
                   let hasNested :=
                     match asArray childSuites with
                     | Some l => JS.len l >? 0
                     | None => false
                     end in
                   if negb hasSpecs && negb hasNested then Some true
                   else if hasNested then
                     forEachOk
                       (fun child =>
                          validateFuel fuel' (JObj [("suites", JArr [child])]))
                       (match asArray childSuites with Some l => l | None => [] end)
                   else Some true)
              suites
        end
  end.

(** Nesting height of a document. *)
Fixpoint height (v : JSON) : nat :=
  match v with
  | JArr items => S (fold_right (fun x m => Nat.max (height x) m) O items)
  | JObj fields => S (fold_right (fun kv m => Nat.max (height (snd kv)) m) O fields)
  | _ => O
  end.

(** The validator with a budget that always suffices (see
    [validateFuel_total]). *)
Definition validatePlaywrightReport (report : JSON) : bool :=
  match validateFuel (S (height report)) report with
  | Some b => b
  | None => false
  end.

(** What the validator accepts, stated on the tree: a suite node is
    accepted when it is a non-null object and every element of its [suites]
    array, if it has one, is accepted. *)
Inductive SuiteAccepted : JSON -> Prop :=
| SuiteAccepted_intro (s : JSON) :
    js_truthy s = true ->
    typeof_object s = true ->
    (forall children, asArray (prop s "suites") = Some children ->
                      Forall SuiteAccepted children) ->
    SuiteAccepted s.

Definition ReportAccepted (report : JSON) : Prop :=
  js_truthy report = true /\ typeof_object report = true /\
  exists suites, asArray (prop report "suites") = Some suites /\
                 Forall SuiteAccepted suites.

(** The node shapes of the specification's validation paragraph: a suite
    node "contains specs with a tests array", "contains further nested
    suites", or "has neither specs nor nested suites". *)
Definition containsSpecsWithTests (s : JSON) : bool :=
  match asArray (prop s "specs") with
  | Some l => existsb specHasTests l
  | None => false
  end.

Definition containsNestedSuites (s : JSON) : bool :=
  match asArray (prop s "suites") with
  | Some l => JS.len l >? 0
  | None => false
  end.

Definition emptyOrAbsent (x : option JSON) : bool :=
  match x with
  | None => true
  | Some (JArr []) => true
  | _ => false
  end.

Definition hasNeitherSpecsNorSuites (s : JSON) : bool :=
  emptyOrAbsent (prop s "specs") && emptyOrAbsent (prop s "suites").

Definition specShapedSuite (s : JSON) : bool :=
  js_truthy s && typeof_object s &&
  (containsSpecsWithTests s || containsNestedSuites s || hasNeitherSpecsNorSuites s).

(** ** statistics.ts *)

Record Statistics := mkStatistics {
  passRate : Z;
  failRate : Z;
  skipRate : Z;
  averageDuration : Z;
  maxDuration : Z;
  minDuration : Z;
  durationByStatus_passed : Z;
  durationByStatus_failed : Z;
  durationByStatus_skipped : Z;
  retriesDistribution : list (Z * Z);      (* retry count, number of tests *)
  durationRanges_fast : Z;
  durationRanges_medium : Z;
  durationRanges_slow : Z;
  durationRanges_verySlow : Z;
  failedTests : list TestResult;
  flakyTests : list TestResult;
  slowestTests : list TestResult
}.

(** [map[k] = (map[k] || 0) + 1] *)
Fixpoint bump (k : Z) (m : list (Z * Z)) : list (Z * Z) :=
  match m with
  | [] => [(k, 1)]
  | (k', n) :: m' => if k' =? k then (k', n + 1) :: m' else (k', n) :: bump k m'
  end.

(** [Math.min(minDuration, d)], [None] being [Infinity]. *)
Definition minWith (m : option Z) (d : Z) : option Z :=
  match m with
  | None => Some d
  | Some x => Some (Z.min x d)
  end.

(** The comparator [(a, b) => b.duration - a.duration]. *)
Definition byDurationDesc (a b : TestResult) : Z := duration b - duration a.

(** [total > 0 ? Math.round((part / total) * 100) : 0] *)
Definition percentOf (part total : Z) : Z :=
  if total >? 0 then JS.Math_round (JS.div part total * 100) else 0.

Definition emptyStatistics : Statistics :=
  {| passRate := 0; failRate := 0; skipRate := 0;
     averageDuration := 0; maxDuration := 0; minDuration := 0;
     durationByStatus_passed := 0; durationByStatus_failed := 0;
     durationByStatus_skipped := 0;
     retriesDistribution := [];
     durationRanges_fast := 0; durationRanges_medium := 0;
     durationRanges_slow := 0; durationRanges_verySlow := 0;
     failedTests := []; flakyTests := []; slowestTests := [] |}.

Definition sumDuration (f : TestResult -> bool) (ts : list TestResult) : Z :=
  fold_left (fun acc t => if f t then acc + duration t else acc) ts 0.

(** [!data || !data.tests || data.tests.length === 0] *)
Definition noTests (data : option ReportData) : bool :=
  match data with
  | None => true
  | Some d =>
      match tests d with
      | None => true
      | Some ts => JS.len ts =? 0
      end
  end.

(** [calculateStatistics(data)] *)
Definition calculateStatistics (data : option ReportData) : Statistics :=
  match data with
  | None => emptyStatistics
  | Some d =>
      match tests d with
      | None => emptyStatistics
      | Some ts =>
          if JS.len ts =? 0 then emptyStatistics
          else
            let maxDuration := fold_left (fun m t => Z.max m (duration t)) ts 0 in
            let minDuration := fold_left (fun m t => minWith m (duration t)) ts None in
            let retriesMap := fold_left (fun m t => bump (retries t) m) ts [] in
            {| passRate := if totalTests d >? 0
                           then JS.Math_round (JS.div (passed d) (totalTests d) * 100)
                           else 0;
               failRate := if totalTests d >? 0
                           then JS.Math_round (JS.div (failed d) (totalTests d) * 100)
                           else 0;
               skipRate := if totalTests d >? 0
                           then JS.Math_round (JS.div (skipped d) (totalTests d) * 100)
                           else 0;
               averageDuration :=
                 if totalTests d >? 0
                 then JS.Math_round (JS.div (totalDuration d) (totalTests d))
                 else 0;
               maxDuration := maxDuration;
               minDuration := match minDuration with None => 0 | Some m => m end;
               durationByStatus_passed := sumDuration isPassed ts;
               durationByStatus_failed := sumDuration isFailed ts;
               durationByStatus_skipped := sumDuration isSkipped ts;
               retriesDistribution := retriesMap;
               durationRanges_fast := JS.count (fun t => duration t <? 1000) ts;
               durationRanges_medium :=
                 JS.count (fun t => negb (duration t <? 1000) && (duration t <? 5000)) ts;
               durationRanges_slow :=
                 JS.count (fun t => negb (duration t <? 5000) && (duration t <? 15000)) ts;
               durationRanges_verySlow := JS.count (fun t => negb (duration t <? 15000)) ts;
               failedTests := filter isFailed ts;
               flakyTests := filter isFlaky ts;
               slowestTests := JS.slice_to 10 (JS.sort byDurationDesc ts) |}
      end
  end.

(** ** Errors and effects *)

Inductive JsError : Type :=
| TypeError (msg : string)
| Error (msg : string).

(** The outcome of a computation that may [throw]. *)
Inductive Exc (A : Type) : Type :=
| Ok (a : A)
| Throw (e : JsError).

Arguments Ok {A} a.
Arguments Throw {A} e.

Definition bindExc {A B} (m : Exc A) (k : A -> Exc B) : Exc B :=
  match m with
  | Ok a => k a
  | Throw e => Throw e
  end.

Notation "x <- m ;; k" := (bindExc m (fun x => k))
  (at level 61, m at next level, right associativity).

(** [arr.map(f)] for an [f] that may throw: elements are visited in order
    and the first throw ends the call. *)
Fixpoint mapExc {A B} (f : A -> Exc B) (l : list A) : Exc (list B) :=
  match l with
  | [] => Ok []
  | x :: l' =>
      y <- f x ;;
      ys <- mapExc f l' ;;
      Ok (y :: ys)
  end.

(** The part of the outside world the generators write to: directories
    made, files written (latest first) and webhook posts sent. *)
Record World := mkWorld {
  w_dirs : list string;
  w_files : list (string * string);
  w_posts : list (string * string)
}.

Definition ensureDir (dir : string) (w : World) : World :=
  {| w_dirs := dir :: w_dirs w; w_files := w_files w; w_posts := w_posts w |}.

Definition writeFile (path content : string) (w : World) : World :=
  {| w_dirs := w_dirs w; w_files := (path, content) :: w_files w;
     w_posts := w_posts w |}.

Definition post (url body : string) (w : World) : World :=
  {| w_dirs := w_dirs w; w_files := w_files w;
     w_posts := (url, body) :: w_posts w |}.

(** ** vueReportGenerator.ts: the payload *)

(** A value found in the history array at run time.  A well-typed entry is
    an [HObject]; a property the object lacks is [None], and an array counts
    as an object without any of the fields.  An object with a property of
    another type than [HistoryEntry] declares has no counterpart here;
    [historyItemOf] below tells which parsed values have one. *)
Inductive Prim : Type :=
| PBool (b : bool)
| PNum (n : Z)
| PStr (s : string).

Record HistoryEntry := mkHistoryEntry {
  h_generatedAt : option string;
  h_total : option Z;
  h_passed : option Z;
  h_failed : option Z;
  h_skipped : option Z;
  h_flaky : option Z;
  h_timedOut : option Z;
  h_durationMs : option Z;
  h_passRate : option Z
}.

Inductive HistoryItem : Type :=
| HUndefined
| HNull
| HPrimitive (p : Prim)
| HObject (e : HistoryEntry).

Definition noFields : HistoryEntry :=
  mkHistoryEntry None None None None None None None None None.

(** [{ ...h, durationDisplay, flakyRate }]: the entry, the duration that is
    formatted for display, and the flaky rate ([None] is [NaN]). *)
Record HistoryPoint := mkHistoryPoint {
  hp_entry : HistoryEntry;
  hp_durationShown : Z;
  hp_flakyRate : option Z
}.

(** [a - b] on possibly missing numbers; [None] is [NaN]. *)
Definition nsub (a b : option Z) : option Z :=
  match a, b with
  | Some x, Some y => Some (x - y)
  | _, _ => None
  end.

(** [x > k], false on [NaN] and [undefined]. *)
Definition ngt (x : option Z) (k : Z) : bool :=
  match x with
  | Some v => v >? k
  | None => false
  end.

Inductive RiskLevel : Type := Low | Moderate | High | Critical.

Inductive ReleaseGate : Type := READY | RISKY | BLOCKED.

Record VueReportOptions := mkVueReportOptions {
  o_title : option string;
  o_theme : option string;
  o_history : option (list HistoryItem);
  o_outputPath : string
}.

Record Summary := mkSummary {
  s_total : Z;
  s_passed : Z;
  s_failed : Z;
  s_skipped : Z;
  s_flaky : Z;
  s_durationMs : Z;          (* shown as [formatDuration(data.totalDuration)] *)
  s_passRate : Z;
  s_flakyRate : Z;
  s_failRate : Z;
  s_skipRate : Z;
  s_timedOut : Z;
  s_avgDurationMs : Z;       (* shown as [formatDuration(avgDurationMs)] *)
  s_nonPassing : Z
}.

Record Highlights := mkHighlights {
  hl_browsers : Z;
  hl_suites : Z;
  hl_retriedTests : Z;
  hl_historyPoints : Z
}.

Record Insights := mkInsights {
  qualityScore : Z;
  stabilityScore : Z;
  speedScore : Z;
  retryHealth : Z;
  retryRate : Z;
  retryBurden : Z;
  p50 : Z;                   (* the three percentiles, before formatting *)
  p90 : Z;
  p95 : Z;
  effectivePassRate : Z;
  riskLevel : RiskLevel;
  releaseGate : ReleaseGate
}.

Record FileEntry := mkFileEntry {
  fe_file : string;
  fe_total : Z;
  fe_failed : Z;
  fe_flaky : Z;
  fe_duration : Z;
  fe_retries : Z
}.

Record FileInsight := mkFileInsight {
  fi_file : string;
  fi_total : Z;
  fi_failed : Z;
  fi_flaky : Z;
  fi_avgDuration : Z;
  fi_failRate : Z;
  riskScore : Z
}.

Record Comparison := mkComparison {
  hasBaseline : bool;
  latestLabel : option string;
  previousLabel : option string;
  passRateDelta : option Z;
  failedDelta : option Z;
  flakyRateDelta : option Z;
  durationDeltaSec : option Z
}.

(** [VueReportPayload], without the chart series, the ranked test lists
    and the display strings, which repeat the values kept here. *)
Record VueReportPayload := mkVueReportPayload {
  pl_title : string;
  pl_theme : string;
  pl_summary : Summary;
  pl_highlights : Highlights;
  pl_insights : Insights;
  pl_fileInsights : list FileInsight;
  pl_browserStats : list GroupStats;
  pl_suiteStats : list GroupStats;
  pl_history : list HistoryPoint;
  pl_comparison : Comparison;
  pl_hasFailures : bool
}.

Record EnhancedStats := mkEnhancedStats {
  es_stats : Statistics;
  performanceScore : Z;
  reliabilityScore : Z
}.

(** [enhanceStats(stats, data)] *)
Definition enhanceStats (stats : Statistics) (data : ReportData) : EnhancedStats :=
  let t := totalTests data in
  let performanceScore :=
    JS.Math_round (Qmax 0 (Qmin 100
      (inject_Z (passRate stats) * 0.6
       + (100 - JS.div (flaky data) (Z.max 1 t) * 100) * 0.3))) in
  let reliabilityScore :=
    JS.Math_round (Qmax 0 (Qmin 100
      (inject_Z (passRate stats) * 0.7
       + (100 - JS.div (flaky data) (Z.max 1 t) * 100) * 0.3))) in
  mkEnhancedStats stats performanceScore reliabilityScore.

(** [data?.tests ?? []] *)
Definition inputTestsOf (data : option ReportData) : list TestResult :=
  match data with
  | Some d => match tests d with Some ts => ts | None => [] end
  | None => []
  end.

(** [(t.retries || 0) > 0] *)
Definition wasRetried (t : TestResult) : bool := retries t >? 0.

(** The object [safeData] that replaces the argument. *)
Definition safeData (data : option ReportData) : ReportData :=
  let inputTests := inputTestsOf data in
  {| totalTests := JS.len inputTests;
     passed := JS.count isPassed inputTests;
     failed := JS.count isFailed inputTests;
     skipped := JS.count isSkipped inputTests;
     flaky := JS.count (fun t => wasRetried t && isPassed t) inputTests;
     totalDuration :=
       fold_left (fun acc t => acc + Z.max 0 (duration t)) inputTests 0;
     tests := Some inputTests;
     suites := Some (match data with
                     | Some d => match suites d with Some x => x | None => [] end
                     | None => [] end);
     browsers := Some (match data with
                       | Some d => match browsers d with Some x => x | None => [] end
                       | None => [] end);
     browserStats := Some (match data with
                           | Some d => match browserStats d with Some x => x | None => [] end
                           | None => [] end);
     suiteStats := Some (match data with
                         | Some d => match suiteStats d with Some x => x | None => [] end
                         | None => [] end) |}.

(** [data.tests], once [data] is [safeData]. *)
Definition testsOf (data : ReportData) : list TestResult :=
  match tests data with Some ts => ts | None => [] end.

(** [statusBuckets]: a [Map<string, number>] keyed by [t.status || 'unknown']. *)
Definition statusBuckets (ts : list TestResult) : list (string * Z) :=
  fold_left
    (fun m t => upsert (JS.or_lit (Some (status t)) "unknown") 0 (fun n => n + 1) m)
    ts [].

(** [map.get(key) || 0] *)
Fixpoint bucketGet (key : string) (m : list (string * Z)) : Z :=
  match m with
  | [] => 0
  | (k, n) :: m' => if (k =? key)%string then n else bucketGet key m'
  end.

(** Each constant of the body of [generateVueReport] is a definition named
    after it, applied to the values it is computed from; [data] is the
    function's [data] after the assignment [data = safeData]. *)

Definition durationsOf (data : ReportData) : list Z := map duration (testsOf data).

Definition p50Of (data : ReportData) : Z := percentile (durationsOf data) 50.
Definition p90Of (data : ReportData) : Z := percentile (durationsOf data) 90.
Definition p95Of (data : ReportData) : Z := percentile (durationsOf data) 95.

Definition timedOutOf (data : ReportData) : Z :=
  bucketGet "timedOut" (statusBuckets (testsOf data)).

Definition totalRetriesOf (data : ReportData) : Z :=
  fold_left (fun acc t => acc + Z.max 0 (retries t)) (testsOf data) 0.

Definition retriedTestsOf (data : ReportData) : Z :=
  JS.count wasRetried (testsOf data).

Definition retryRateOf (data : ReportData) : Z :=
  if totalTests data >? 0
  then JS.Math_round (JS.div (retriedTestsOf data) (totalTests data) * 100)
  else 0.

Definition flakyRateOf (data : ReportData) : Z :=
  if totalTests data >? 0
  then JS.Math_round (JS.div (flaky data) (totalTests data) * 100)
  else 0.

Definition retryHealthOf (data : ReportData) : Z := clamp (100 - retryRateOf data).

Definition speedScoreOf (data : ReportData) : Z :=
  clamp (100 - JS.Math_round (JS.div (p95Of data) 15000 * 100)).

Definition enhancedOf (data : ReportData) : EnhancedStats :=
  enhanceStats (calculateStatistics (Some data)) data.

Definition stabilityScoreOf (data : ReportData) : Z :=
  clamp (JS.Math_round
           (100 - (inject_Z (retryRateOf data) * 0.55
                   + inject_Z (failRate (es_stats (enhancedOf data))) * 0.75
                   + JS.div (timedOutOf data) (Z.max 1 (totalTests data))
                     * 100 * 0.4))).

Definition effectivePassRateOf (data : ReportData) : Z :=
  if totalTests data >? 0
  then JS.Math_round
         (JS.div (Z.max 0 (passed data - flaky data)) (totalTests data) * 100)
  else 0.

Definition qualityScoreOf (data : ReportData) : Z :=
  clamp (JS.Math_round
           (inject_Z (passRate (es_stats (enhancedOf data))) * 0.4
            + inject_Z (stabilityScoreOf data) * 0.3
            + inject_Z (speedScoreOf data) * 0.2
            + inject_Z (retryHealthOf data) * 0.1)).

Definition riskLevelOf (data : ReportData) : RiskLevel :=
  if qualityScoreOf data >=? 85 then Low
  else if qualityScoreOf data >=? 70 then Moderate
  else if qualityScoreOf data >=? 50 then High
  else Critical.

(** The loop that fills [fileMap]. *)
Definition fileTally (t : TestResult) (e : FileEntry) : FileEntry :=
  {| fe_file := fe_file e;
     fe_total := fe_total e + 1;
     fe_failed := fe_failed e + b2z (isFailed t || isTimedOut t);
     fe_flaky := fe_flaky e + b2z (wasRetried t);
     fe_duration := fe_duration e + Z.max 0 (duration t);
     fe_retries := fe_retries e + Z.max 0 (retries t) |}.

Definition fileKey (t : TestResult) : string := JS.or_lit (file t) "unknown-file".

Definition fileMap (ts : list TestResult) : list (string * FileEntry) :=
  fold_left
    (fun m t => upsert (fileKey t) (mkFileEntry (fileKey t) 0 0 0 0 0) (fileTally t) m)
    ts [].

(** The callback of [[...fileMap.values()].map(...)]. *)
Definition fileInsightOf (p95 : Z) (entry : FileEntry) : FileInsight :=
  let avgDuration :=
    if fe_total entry >? 0
    then JS.Math_round (JS.div (fe_duration entry) (fe_total entry)) else 0 in
  let failRate :=
    if fe_total entry >? 0
    then JS.Math_round (JS.div (fe_failed entry) (fe_total entry) * 100) else 0 in
  let retryFileRate :=
    if fe_total entry >? 0
    then JS.Math_round (JS.div (fe_flaky entry) (fe_total entry) * 100) else 0 in
  let durationPressure :=
    JS.Math_round (JS.div avgDuration (Z.max 1 p95) * 100) in
  let riskScore :=
    clamp (JS.Math_round (inject_Z failRate * 0.55 + inject_Z retryFileRate * 0.2
                          + inject_Z durationPressure * 0.25)) in
  {| fi_file := fe_file entry;
     fi_total := fe_total entry;
     fi_failed := fe_failed entry;
     fi_flaky := fe_flaky entry;
     fi_avgDuration := avgDuration;
     fi_failRate := failRate;
     riskScore := riskScore |}.

(** The comparator [(a, b) => b.riskScore - a.riskScore]. *)
Definition byRiskDesc (a b : FileInsight) : Z := riskScore b - riskScore a.

Definition fileInsightsOf (data : ReportData) : list FileInsight :=
  JS.sort byRiskDesc
          (map (fileInsightOf (p95Of data)) (map snd (fileMap (testsOf data)))).

Definition browserStatsOf (data : ReportData) : list GroupStats :=
  let browserStatsRaw :=
    match browserStats data with
    | Some (b :: bs) => b :: bs
    | _ => derivedStats browserKey (testsOf data)
    end in
  JS.sort byTotalDesc browserStatsRaw.

Definition suiteStatsOf (data : ReportData) : list GroupStats :=
  let suiteStatsRaw :=
    match suiteStats data with
    | Some (x :: xs) => x :: xs
    | _ => derivedStats suiteKey (testsOf data)
    end in
  JS.sort byTotalDesc suiteStatsRaw.

(** The object [{ ...h, durationDisplay, flakyRate }] built from the fields
    of [h]. *)
Definition pointOf (e : HistoryEntry) : HistoryPoint :=
  {| hp_entry := e;
     hp_durationShown := match h_durationMs e with Some d => d | None => 0 end;
     hp_flakyRate :=
       if ngt (h_total e) 0
       then match h_flaky e, h_total e with
            | Some f, Some t => Some (JS.Math_round (JS.div f t * 100))
            | _, _ => None
            end
       else Some 0 |}.

(** The callback of [(options.history || []).map(...)].  Reading a property
    of [null] or [undefined] throws; a primitive has none of the fields. *)
Definition historyPointOf (h : HistoryItem) : Exc HistoryPoint :=
  match h with
  | HUndefined =>
      Throw (TypeError "Cannot read properties of undefined (reading 'durationMs')")
  | HNull =>
      Throw (TypeError "Cannot read properties of null (reading 'durationMs')")
  | HPrimitive _ => Ok (pointOf noFields)
  | HObject e => Ok (pointOf e)
  end.

(** [options.history || []] *)
Definition historyArg (options : VueReportOptions) : list HistoryItem :=
  match o_history options with Some h => h | None => [] end.

(** [latestRun] and [previousRun] *)
Definition latestRunOf (history : list HistoryPoint) : option HistoryPoint :=
  if JS.len history >? 0 then JS.at_index history (JS.len history - 1) else None.

Definition previousRunOf (history : list HistoryPoint) : option HistoryPoint :=
  if JS.len history >? 1 then JS.at_index history (JS.len history - 2) else None.

(** [comparison] *)
Definition comparisonOf (history : list HistoryPoint) : Comparison :=
  match latestRunOf history, previousRunOf history with
  | Some latestRun, Some previousRun =>
      {| hasBaseline := true;
         latestLabel := h_generatedAt (hp_entry latestRun);
         previousLabel := h_generatedAt (hp_entry previousRun);
         passRateDelta :=
           nsub (h_passRate (hp_entry latestRun)) (h_passRate (hp_entry previousRun));
         failedDelta :=
           nsub (h_failed (hp_entry latestRun)) (h_failed (hp_entry previousRun));
         flakyRateDelta := nsub (hp_flakyRate latestRun) (hp_flakyRate previousRun);
         durationDeltaSec :=
           option_map (fun d => JS.Math_round (JS.div d 1000))
             (nsub (h_durationMs (hp_entry latestRun))
                   (h_durationMs (hp_entry previousRun))) |}
  | latestRun, _ =>
      {| hasBaseline := false;
         latestLabel :=
           match latestRun with
           | Some l => h_generatedAt (hp_entry l)
           | None => None
           end;
         previousLabel := None;
         passRateDelta := Some 0;
         failedDelta := Some 0;
         flakyRateDelta := Some 0;
         durationDeltaSec := Some 0 |}
  end.

(** [releaseGate] *)
Definition releaseGateOf (data : ReportData) (comparison : Comparison)
  : ReleaseGate :=
  if (failed data >? 0) || (timedOutOf data >? 0) then BLOCKED
  else if (flakyRateOf data >=? 8)
          || (hasBaseline comparison && ngt (durationDeltaSec comparison) 20)
  then RISKY
  else READY.

Definition summaryOf (data : ReportData) : Summary :=
  {| s_total := totalTests data;
     s_passed := passed data;
     s_failed := failed data;
     s_skipped := skipped data;
     s_flaky := flaky data;
     s_durationMs := totalDuration data;
     s_passRate := passRate (es_stats (enhancedOf data));
     s_flakyRate := flakyRateOf data;
     s_failRate := failRate (es_stats (enhancedOf data));
     s_skipRate := skipRate (es_stats (enhancedOf data));
     s_timedOut := timedOutOf data;
     s_avgDurationMs :=
       if totalTests data >? 0
       then JS.Math_round (JS.div (totalDuration data) (totalTests data))
       else 0;
     s_nonPassing := failed data + timedOutOf data |}.

Definition insightsOf (data : ReportData) (comparison : Comparison) : Insights :=
  {| qualityScore := qualityScoreOf data;
     stabilityScore := stabilityScoreOf data;
     speedScore := speedScoreOf data;
     retryHealth := retryHealthOf data;
     retryRate := retryRateOf data;
     retryBurden := totalRetriesOf data;
     p50 := p50Of data;
     p90 := p90Of data;
     p95 := p95Of data;
     effectivePassRate := effectivePassRateOf data;
     riskLevel := riskLevelOf data;
     releaseGate := releaseGateOf data comparison |}.

Section VueReport.

(** [new Date(s).getTime()]; [None] is the [NaN] of an invalid date. *)
Variable Date_getTime : string -> option Z.

(** [buildVueReportHtml(payload)], the HTML assembly. *)
Variable buildVueReportHtml : VueReportPayload -> string.

(** [path.dirname] *)
Variable dirname : string -> string.

Definition timeOf (h : HistoryPoint) : option Z :=
  match h_generatedAt (hp_entry h) with
  | Some s => Date_getTime s
  | None => None
  end.

(** The comparator of the history sort; a [NaN] difference counts as 0. *)
Definition byGeneratedAt (a b : HistoryPoint) : Z :=
  match nsub (timeOf a) (timeOf b) with
  | Some d => d
  | None => 0
  end.

(** [history]: map, sort by date, keep the last 20. *)
Definition historyOf (options : VueReportOptions) : Exc (list HistoryPoint) :=
  mapped <- mapExc historyPointOf (historyArg options) ;;
  Ok (JS.slice_last 20 (JS.sort byGeneratedAt mapped)).

(** The body of [generateVueReport] up to the [payload] constant. *)
Definition generateVueReport_payload (data0 : option ReportData)
           (options : VueReportOptions) : Exc VueReportPayload :=
  let title := JS.or_lit (o_title options) "Playwright Fire Reports" in
  let theme := JS.or_lit (o_theme options) "professional" in
  let data := safeData data0 in
  history <- historyOf options ;;
  let comparison := comparisonOf history in
  Ok {| pl_title := title;
        pl_theme := theme;
        pl_summary := summaryOf data;
        pl_highlights :=
          {| hl_browsers := JS.len (browserStatsOf data);
             hl_suites := JS.len (suiteStatsOf data);
             hl_retriedTests := retriedTestsOf data;
             hl_historyPoints := JS.len history |};
        pl_insights := insightsOf data comparison;
        pl_fileInsights := JS.slice_to 10 (fileInsightsOf data);
        pl_browserStats := browserStatsOf data;
        pl_suiteStats := JS.slice_to 20 (suiteStatsOf data);
        pl_history := history;
        pl_comparison := comparison;
        pl_hasFailures := failed data >? 0 |}.


End VueReport.

(** ** reportGenerator.ts and advancedReportGenerator.ts *)

Record ReportOptions := mkReportOptions {
  ro_title : option string;
  ro_theme : option string;
  ro_outputPath : string
}.

Record AdvancedReportOptions := mkAdvancedReportOptions {
  ao_title : option string;
  ao_theme : option string;
  ao_outputPath : string;
  ao_slackWebhook : option string;
  ao_teamsWebhook : option string
}.

Record EnhancedMetrics := mkEnhancedMetrics {
  em_stats : Statistics;
  em_performanceScore : Z;
  em_reliabilityScore : Z;
  em_efficiency : Z
}.

(** [enhanceStatistics(stats, data)] *)
Definition enhanceStatistics (stats : Statistics) (data : ReportData)
  : EnhancedMetrics :=
  let totalTests := totalTests data in
  let passRate := passRate stats in
  let flakyCount := flaky data in
  let performanceScore :=
    Qmax 0 (Qmin 100
      (inject_Z passRate * 0.6
       + (100 - JS.div flakyCount (Z.max 1 totalTests) * 100) * 0.3
       + (if averageDuration stats <? 5000 then 10
          else Qmax 0 (10 - JS.div (averageDuration stats) 1000)))) in
  let reliabilityScore :=
    Qmax 0 (Qmin 100
      (inject_Z passRate * 0.7
       + (100 - JS.div flakyCount (Z.max 1 totalTests) * 100) * 0.3)) in
  let efficiency :=
    Qmax 0 (Qmin 100
      (JS.div (durationRanges_fast stats) (Z.max 1 totalTests) * 100
       + JS.div (durationRanges_medium stats) (Z.max 1 totalTests) * 50)) in
  {| em_stats := stats;
     em_performanceScore := JS.Math_round performanceScore;
     em_reliabilityScore := JS.Math_round reliabilityScore;
     em_efficiency := JS.Math_round efficiency |}.

Section Generators.

(** The Handlebars templates, applied to title, theme, statistics and
    data, and the bodies of the two webhook messages. *)
Variable renderReport : string -> string -> Statistics -> ReportData -> string.
Variable renderAdvanced :
  string -> string -> EnhancedMetrics -> ReportData -> string.
Variable slackBody : EnhancedMetrics -> string.
Variable teamsBody : EnhancedMetrics -> string.

(** [path.dirname] *)
Variable dirname : string -> string.

(** [generateReport(data, options)] *)
Definition generateReport (data : option ReportData) (options : ReportOptions)
           (w : World) : Exc string * World :=
  if noTests data
  then (Throw (Error "Invalid or empty ReportData provided to generateReport."), w)
  else
    match data with
    | None => (Throw (Error "Invalid or empty ReportData provided to generateReport."), w)
    | Some d =>
        let stats := calculateStatistics data in
        let theme := JS.or_lit (ro_theme options) "light" in
        let title := JS.or_lit (ro_title options) "Playwright Test Report" in
        let report := renderReport title theme stats d in
        let w1 := ensureDir (dirname (ro_outputPath options)) w in
        let w2 := writeFile (ro_outputPath options) report w1 in
        (Ok (ro_outputPath options), w2)
    end.

(** [if (url) await send(url, stats)]; a failed post is caught and logged. *)
Definition sendIf (url : option string) (body : string) (w : World) : World :=
  match url with
  | Some u => if (u =? EmptyString)%string then w else post u body w
  | None => w
  end.

(** [generateAdvancedReport(data, options)] *)
Definition generateAdvancedReport (data : option ReportData)
           (options : AdvancedReportOptions) (w : World) : Exc string * World :=
  if noTests data
  then (Throw (Error "Invalid or empty ReportData provided to generateAdvancedReport."), w)
  else
    match data with
    | None =>
        (Throw (Error "Invalid or empty ReportData provided to generateAdvancedReport."), w)
    | Some d =>
        let stats := calculateStatistics data in
        let enhancedStats := enhanceStatistics stats d in
        let theme := JS.or_lit (ao_theme options) "professional" in
        let title := JS.or_lit (ao_title options) "Test Execution Report" in
        let report := renderAdvanced title theme enhancedStats d in
        let w1 := ensureDir (dirname (ao_outputPath options)) w in
        let w2 := writeFile (ao_outputPath options) report w1 in
        let w3 := sendIf (ao_slackWebhook options) (slackBody enhancedStats) w2 in
        let w4 := sendIf (ao_teamsWebhook options) (teamsBody enhancedStats) w3 in
        (Ok (ao_outputPath options), w4)
    end.

End Generators.

(** ** The command-line tool: the history window handed to generateVueReport *)

(** What [main] finds at the history path. *)
Inductive HistoryFile : Type :=
| NoFile
| Unparsable                         (* [JSON.parse] throws *)
| NotAnArray
| ArrayOf (items : list HistoryItem).

Definition prim_truthy (p : Prim) : bool :=
  match p with
  | PBool b => b
  | PNum n => negb (n =? 0)
  | PStr s => negb (s =? EmptyString)%string
  end.

(** [!!e] *)
Definition item_truthy (e : HistoryItem) : bool :=
  match e with
  | HUndefined | HNull => false
  | HPrimitive p => prim_truthy p
  | HObject _ => true
  end.

(** [typeof e === 'object'] *)
Definition item_typeof_object (e : HistoryItem) : bool :=
  match e with
  | HNull | HObject _ => true
  | HUndefined | HPrimitive _ => false
  end.

(** The history array [main] builds: the stored entries that pass
    [e && typeof e === 'object'], then the current run, cut to the last
    [Math.max(1, historyLimit)] entries; [historyLimit] stands for
    [Number(argv['history-limit']) || 30]. *)
Definition cliHistory (stored : HistoryFile) (current : HistoryEntry)
           (historyLimit : nat) : list HistoryItem :=
  let history :=
    match stored with
    | ArrayOf parsed =>
        filter (fun e => item_truthy e && item_typeof_object e) parsed
    | _ => []
    end in
  let history := history ++ [HObject current] in
  JS.slice_last (Nat.max 1 historyLimit) history.

(** ** Vocabulary of the properties *)

(** The tests of a spec: [spec.tests || []]. *)
Definition specTests (sp : SpecEntry) : list TestNode :=
  match sp_tests sp with Some ts => ts | None => [] end.

(** The test nodes of a suite, read off the tree: those of its own specs,
    then those of its nested suites, depth first. *)
Fixpoint suiteTestNodes (s : SuiteNode) : list TestNode :=
  match s with
  | mkSuiteNode _ _ specs childSuites =>
      flat_map specTests (match specs with Some l => l | None => [] end)
      ++ match childSuites with
         | Some l => flat_map suiteTestNodes l
         | None => []
         end
  end.

Definition reportTestNodes (report : PlaywrightReport) : list TestNode :=
  flat_map suiteTestNodes (match pw_suites report with Some l => l | None => [] end).

(** The message the attempt itself carries in [error.message], when it has
    a non-empty one. *)
Definition OwnMessage (result : AttemptResult) (m : string) : Prop :=
  exists e, r_error result = Some e /\ message e = Some m /\ m <> EmptyString.

(** The message of the first entry of the attempt's [errors] array, when
    that entry has a non-empty one. *)
Definition FirstListedMessage (result : AttemptResult) (m : string) : Prop :=
  exists e0 es,
    r_errors result = Some (e0 :: es) /\ message e0 = Some m /\ m <> EmptyString.

(** The error of a record, read off the fields of the attempt: its own
    message; without one, the message of the first listed error; without
    that either, none. *)
Inductive ErrorOfAttempt (result : AttemptResult) : option string -> Prop :=
| error_own (m : string) :
    OwnMessage result m -> ErrorOfAttempt result (Some m)
| error_first_listed (m : string) :
    (forall m', ~ OwnMessage result m') ->
    FirstListedMessage result m -> ErrorOfAttempt result (Some m)
| error_absent :
    (forall m', ~ OwnMessage result m') ->
    (forall m', ~ FirstListedMessage result m') ->
    ErrorOfAttempt result None.

(** What the flattener owes one test node: nothing when the node has no
    attempt result, otherwise exactly one record taking status, duration and
    error from the last attempt, with [retries] one less than the number of
    attempts. *)
Definition EmitsFor (test : TestNode) (records : list TestResult) : Prop :=
  match t_results test with
  | None | Some [] => records = []
  | Some (a :: rest) =>
      exists r,
        records = [r]
        /\ status r = r_status (last rest a)
        /\ duration r = match r_duration (last rest a) with Some d => d | None => 0 end
        /\ ErrorOfAttempt (last rest a) (error r)
        /\ retries r = Z.of_nat (List.length (a :: rest)) - 1
  end.

(** The records [processTest] appends for one test node. *)
Definition recordsOf (suite : SuiteNode) (item : CollectedSpec) (test : TestNode)
  : list TestResult :=
  st_tests (processTest suite item initialParseState test).

(** The tests of a collected spec. *)
Definition itemTests (item : CollectedSpec) : list TestNode := specTests (spec item).

(** The records emitted for a list of collected specs, one list per test. *)
Definition recordsOfItems (suite : SuiteNode) (items : list CollectedSpec)
  : list (list TestResult) :=
  flat_map (fun item => map (recordsOf suite item) (itemTests item)) items.

(** The records emitted for a root suite, one list per test. *)
Definition recordsOfSuite (suite : SuiteNode) : list (list TestResult) :=
  recordsOfItems suite (collectSpecs suite [] None).

(** The object [{ suites: [child] }] of the recursive call. *)
Definition wrapChild (child : JSON) : JSON := JObj [("suites", JArr [child])].

(** Induction over the suite tree, through the lists of nested suites. *)
Section SuiteInduction.
Variable P : SuiteNode -> Prop.
Hypothesis step :
  forall t f specs childSuites,
    Forall P (match childSuites with Some l => l | None => [] end) ->
    P (mkSuiteNode t f specs childSuites).

Fixpoint SuiteNode_nested_ind (s : SuiteNode) : P s :=
  match s with
  | mkSuiteNode t f specs childSuites =>
      step t f specs childSuites
        (match childSuites as c
               return Forall P (match c with Some l => l | None => [] end) with
         | Some l =>
             (fix all (l : list SuiteNode) : Forall P l :=
                match l with
                | [] => Forall_nil P
                | c :: l' => Forall_cons c (SuiteNode_nested_ind c) (all l')
                end) l
         | None => Forall_nil P
         end)
  end.
End SuiteInduction.

(** [new Date(e.generatedAt).getTime()] for a history entry. *)
Definition entryTime (D : string -> option Z) (e : HistoryEntry) : option Z :=
  match h_generatedAt e with
  | Some s => D s
  | None => None
  end.

(** [null] or [undefined]. *)
Definition item_nullish (e : HistoryItem) : bool :=
  match e with
  | HUndefined | HNull => true
  | _ => false
  end.

(** The growth of the run duration between the two latest runs of the
    window, in milliseconds; [None] without a previous run or when a
    duration is missing. *)
Definition durationGrowthMs (history : list HistoryPoint) : option Z :=
  match latestRunOf history, previousRunOf history with
  | Some latestRun, Some previousRun =>
      nsub (h_durationMs (hp_entry latestRun)) (h_durationMs (hp_entry previousRun))
  | _, _ => None
  end.

(** The flaky rate the history map gives an entry: 0 unless [total] is a
    positive number; then a number when [flaky] is one, between 0 and 100
    when [flaky] lies between 0 and [total], and [NaN] when [flaky] is
    missing. *)
Definition FlakyRateFor (e : HistoryEntry) (rate : option Z) : Prop :=
  match h_total e with
  | Some t =>
      if t >? 0
      then match h_flaky e with
           | Some f => exists r, rate = Some r /\ (0 <= f <= t -> 0 <= r <= 100)
           | None => rate = None
           end
      else rate = Some 0
  | None => rate = Some 0
  end.

(** The point of an entry: the entry itself, its duration (0 when missing)
    for display, and its flaky rate. *)
Definition PointOfEntry (e : HistoryEntry) (pt : HistoryPoint) : Prop :=
  hp_entry pt = e
  /\ hp_durationShown pt = match h_durationMs e with Some d => d | None => 0 end
  /\ FlakyRateFor e (hp_flakyRate pt).

(** The point the history map makes of an entry it does not throw on. *)
Definition PointFor (item : HistoryItem) (pt : HistoryPoint) : Prop :=
  match item with
  | HObject e => PointOfEntry e pt
  | HPrimitive _ => PointOfEntry noFields pt
  | HUndefined | HNull => False
  end.

(** The three inputs the basic and the advanced generator reject: no data,
    no [tests] array, an empty [tests] array. *)
Definition NoTestsGiven (data : option ReportData) : Prop :=
  data = None
  \/ exists d, data = Some d /\ (tests d = None \/ tests d = Some []).

(** ** Sample inputs *)

(** A clock that knows two timestamps. *)
Definition sampleClock (s : string) : option Z :=
  if (s =? "2024-05-01T10:00:00.000Z")%string then Some 1714557600000
  else if (s =? "2024-05-02T10:00:00.000Z")%string then Some 1714644000000
  else None.

Definition sampleTest (name st : string) (ms retried : Z) (path : string)
  : TestResult :=
  {| title := name; status := st; duration := ms; retries := retried;
     browser := Some "chromium"; suite := None; error := None;
     errorStack := None; file := Some path; line := None; column := None;
     steps := None |}.

Definition sampleData (ts : list TestResult) : option ReportData :=
  Some (mkReportData 0 0 0 0 0 0 (Some ts) None None None None).

Definition sampleRun (at_ : option string) (rate failedCount ms : Z)
  : HistoryEntry :=
  {| h_generatedAt := at_; h_total := Some 10; h_passed := Some rate;
     h_failed := Some failedCount; h_skipped := Some 0; h_flaky := Some 0;
     h_timedOut := Some 0; h_durationMs := Some ms; h_passRate := Some rate |}.

Definition sampleOptions (history : option (list HistoryItem)) : VueReportOptions :=
  {| o_title := None; o_theme := None; o_history := history;
     o_outputPath := "reports/report.html" |}.

(** A Playwright report of one suite with three tests, one of them with a
    negative duration. *)
Definition sampleAttempted (name : string) (project : option string)
           (outcome : string) (ms : Z) : TestNode :=
  mkTestNode (Some name) project None None None
             (Some [mkAttemptResult outcome (Some ms) None None None]).

Definition sampleReport : PlaywrightReport :=
  mkPlaywrightReport
    (Some [mkSuiteNode (Some "checkout") None
             (Some [mkSpecEntry "pays" (Some "pay.spec.ts")
                      (Some [sampleAttempted "a" (Some "firefox") "passed" 100;
                             sampleAttempted "b" (Some "chromium") "failed" 300;
                             sampleAttempted "c" (Some "chromium") "passed" (-20)])])
             None]).

(** ** Further vocabulary *)

(** [dist[k] || 0] on the retries histogram. *)
Fixpoint distGet (k : Z) (m : list (Z * Z)) : Z :=
  match m with
  | [] => 0
  | (k', n) :: m' => if k' =? k then n else distGet k m'
  end.

(** The sum of a list of numbers. *)
Definition total_of (l : list Z) : Z := fold_right Z.add 0 l.

(** A record as the flattener makes it: a title and a suite name that are
    not empty, a retry count that is not negative, an error message and a
    stack that are absent or not empty, steps that are absent or a non-empty
    list of non-empty lines. *)
Definition FlattenedRecord (r : TestResult) : Prop :=
  title r <> EmptyString
  /\ (exists name, suite r = Some name /\ name <> EmptyString)
  /\ 0 <= retries r
  /\ error r <> Some EmptyString
  /\ errorStack r <> Some EmptyString
  /\ match steps r with
     | Some l => l <> [] /\ Forall (fun line => line <> EmptyString) l
     | None => True
     end.

(** The tests of a parsed report. *)
Definition parsedTests (report : PlaywrightReport) : list TestResult :=
  match tests (parsePlaywrightReport report) with Some ts => ts | None => [] end.

(** The tally of the tests whose key is [name], with the pass rate still
    to be filled in. *)
Definition tallyOf (key : TestResult -> string) (name : string)
           (ts : list TestResult) : GroupStats :=
  let mine := filter (fun t => (key t =? name)%string) ts in
  {| g_name := name;
     g_total := JS.len mine;
     g_passed := JS.count isPassed mine;
     g_failed := JS.count isFailed mine;
     g_skipped := JS.count isSkipped mine;
     g_timedOut := JS.count isTimedOut mine;
     g_flaky := JS.count isFlaky mine;
     g_passRate := 0;
     g_duration := total_of (map duration mine) |}.

(** [r] is the share of [part] in [total] in percent, rounded to an
    integer: it lies within half a point of [100 * part / total].  At an
    exact half either neighbour qualifies. *)
Definition RoundedPercent (part total r : Z) : Prop :=
  - total <= 200 * part - 2 * total * r <= total.

(** A rollup of [ts] by [key]: one group per key that occurs, each holding
    the counts and the duration of the tests of its key and their pass rate
    in percent, rounded, between 0 and 100; the groups are ordered by
    falling total and add up to the number of tests. *)
Definition Rollup (key : TestResult -> string) (ts : list TestResult)
           (groups : list GroupStats) : Prop :=
  NoDup (map g_name groups)
  /\ Forall (fun g =>
               let mine := tallyOf key (g_name g) ts in
               g_total g = g_total mine
               /\ g_passed g = g_passed mine
               /\ g_failed g = g_failed mine
               /\ g_skipped g = g_skipped mine
               /\ g_timedOut g = g_timedOut mine
               /\ g_flaky g = g_flaky mine
               /\ g_duration g = g_duration mine
               /\ 0 < g_total g
               /\ 0 <= g_passRate g <= 100
               /\ RoundedPercent (g_passed g) (g_total g) (g_passRate g)) groups
  /\ (forall t, In t ts -> In (key t) (map g_name groups))
  /\ Sorted (fun a b => g_total b <= g_total a) groups
  /\ total_of (map g_total groups) = JS.len ts.

(** Tests whose status is none of the four the counters know. *)
Definition hasOtherStatus (t : TestResult) : bool :=
  negb (isPassed t || isFailed t || isSkipped t || isTimedOut t).

(** The distinct elements of a list of keys, in the order in which they
    first occur. *)
Definition firstSeen (keys : list string) : list string :=
  fold_left (fun seen k => set_add k seen) keys [].

(** The [fileMap] entry of the tests whose file key is [name]. *)
Definition fileTallyOf (name : string) (ts : list TestResult) : FileEntry :=
  let mine := filter (fun t => (fileKey t =? name)%string) ts in
  {| fe_file := name;
     fe_total := JS.len mine;
     fe_failed := JS.count (fun t => isFailed t || isTimedOut t) mine;
     fe_flaky := JS.count wasRetried mine;
     fe_duration := total_of (map (fun t => Z.max 0 (duration t)) mine);
     fe_retries := total_of (map (fun t => Z.max 0 (retries t)) mine) |}.

(** The loop over the specs of one suite. *)
Definition pushSpecs (title : option string) (specs : list SpecEntry)
           (acc : list CollectedSpec) : list CollectedSpec :=
  fold_left
    (fun acc sp =>
       match sp_tests sp with
       | Some _ => acc ++ [mkCollectedSpec sp title]
       | None => acc
       end) specs acc.

(** What the walk of [parsePlaywrightReport] keeps true of its state. *)
Definition WalkInvariant (st : ParseState) : Prop :=
  Forall FlattenedRecord (st_tests st)
  /\ st_totalDuration st = total_of (map duration (st_tests st))
  /\ NoDup (st_browsers st)
  /\ (forall b, In b (st_browsers st)
                <-> b <> EmptyString
                    /\ exists r, In r (st_tests st) /\ browser r = Some b)
  /\ NoDup (st_suites st)
  /\ ~ In EmptyString (st_suites st).

(** ** Further parts of the sources *)

Definition Math_floor (x : Q) : Z := Qfloor x.

(** [sorted[Math.floor(sorted.length * f)]?.duration ?? 0]; on integers
    [|| 0] gives the same. *)
Definition quartileAt (sorted : list TestResult) (f : Q) : Z :=
  match JS.at_index sorted (Math_floor (inject_Z (JS.len sorted) * f)) with
  | Some t => duration t
  | None => 0
  end.

Record Tier := mkTier {
  tier : string;
  tier_count : Z;
  tier_color : string
}.

(** vueReportGenerator.ts: the [tiers] constant of [generateVueReport]. *)
Definition tiersOf (data : ReportData) : list Tier :=
  let sorted := JS.sort byDurationDesc (testsOf data) in
  let q25 := quartileAt sorted 0.25 in
  let q50 := quartileAt sorted 0.5 in
  let q75 := quartileAt sorted 0.75 in
  [ mkTier "Ultra Fast"
           (JS.count (fun t => duration t <=? q25) (testsOf data)) "#06b6d4";
    mkTier "Fast"
           (JS.count (fun t => (duration t >? q25) && (duration t <=? q50))
                     (testsOf data)) "#10b981";
    mkTier "Normal"
           (JS.count (fun t => (duration t >? q50) && (duration t <=? q75))
                     (testsOf data)) "#f59e0b";
    mkTier "Slow"
           (JS.count (fun t => duration t >? q75) (testsOf data)) "#ef4444" ].

Record PerformanceTier := mkPerformanceTier {
  pt_tier : string;
  pt_max : option Z;          (* [None] is [Infinity] *)
  pt_count : Z;
  pt_color : string
}.

(** advancedReportGenerator.ts: [generatePerformanceAnalysis(data).tiers] *)
Definition generatePerformanceAnalysis (data : ReportData) : list PerformanceTier :=
  let sorted := JS.sort byDurationDesc (testsOf data) in
  let quartile25 := quartileAt sorted 0.25 in
  let quartile50 := quartileAt sorted 0.5 in
  let quartile75 := quartileAt sorted 0.75 in
  [ mkPerformanceTier "Ultra Fast" (Some quartile25)
      (JS.count (fun t => duration t <=? quartile25) (testsOf data)) "#06b6d4";
    mkPerformanceTier "Fast" (Some quartile50)
      (JS.count (fun t => (duration t >? quartile25) && (duration t <=? quartile50))
                (testsOf data)) "#10b981";
    mkPerformanceTier "Normal" (Some quartile75)
      (JS.count (fun t => (duration t >? quartile50) && (duration t <=? quartile75))
                (testsOf data)) "#f59e0b";
    mkPerformanceTier "Slow" None
      (JS.count (fun t => duration t >? quartile75) (testsOf data)) "#ef4444" ].

(** [s.replace(/c/g, r)] for a pattern of one ASCII character.  Strings are
    sequences of bytes here; replacing ASCII characters acts the same way
    on the UTF-8 bytes as on the UTF-16 units of the source. *)
Fixpoint replaceAll (c : Ascii.ascii) (r : string) (s : string) : string :=
  match s with
  | EmptyString => EmptyString
  | String a s' =>
      if Ascii.eqb a c then (r ++ replaceAll c r s')%string
      else String a (replaceAll c r s')
  end.

(** The double quote character. *)
Definition dquote : Ascii.ascii := Ascii.ascii_of_nat 34.

(** vueReportGenerator.ts: [escapeHtml(s)] *)
Definition escapeHtml (s : string) : string :=
  replaceAll dquote "&quot;"
    (replaceAll ">"%char "&gt;"
       (replaceAll "<"%char "&lt;"
          (replaceAll "&"%char "&amp;" s))).

(** What [escapeHtml] makes of one character. *)
Definition escapeChar (a : Ascii.ascii) : string :=
  if Ascii.eqb a "&"%char then "&amp;"
  else if Ascii.eqb a "<"%char then "&lt;"
  else if Ascii.eqb a ">"%char then "&gt;"
  else if Ascii.eqb a dquote then "&quot;"
  else String a EmptyString.

(** [c] occurs in [s]. *)
Fixpoint occurs (c : Ascii.ascii) (s : string) : bool :=
  match s with
  | EmptyString => false
  | String a s' => Ascii.eqb a c || occurs c s'
  end.

(** Every character of [s] escaped on its own, in one pass. *)
Fixpoint escapeEach (s : string) : string :=
  match s with
  | EmptyString => EmptyString
  | String a s' => (escapeChar a ++ escapeEach s')%string
  end.

(** vueReportGenerator.ts: the status chart of [generateVueReport]. *)

(** The key [t.status || 'unknown'] of [statusBuckets]. *)
Definition statusKey (t : TestResult) : string :=
  JS.or_lit (Some (status t)) "unknown".

Definition statusOrder : list string :=
  ["passed"; "failed"; "skipped"; "flaky"; "timedOut"].

(** The own properties of the object [statusMeta]: label and color. *)
Definition statusMeta : list (string * (string * string)) :=
  [("passed", ("Passed", "#10b981"));
   ("failed", ("Failed", "#ef4444"));
   ("skipped", ("Skipped", "#f59e0b"));
   ("flaky", ("Flaky", "#8b5cf6"));
   ("timedOut", ("Timed Out", "#06b6d4"))].

Fixpoint metaGet (key : string) (m : list (string * (string * string)))
  : option (string * string) :=
  match m with
  | [] => None
  | (k, v) :: m' => if (k =? key)%string then Some v else metaGet key m'
  end.

(** The properties an object literal inherits from [Object.prototype]; each
    of them is a function or an object, so [statusMeta[key]] is truthy for
    these keys as well. *)
Definition inheritedKeys : list string :=
  ["constructor"; "__defineGetter__"; "__defineSetter__"; "hasOwnProperty";
   "__lookupGetter__"; "__lookupSetter__"; "isPrototypeOf";
   "propertyIsEnumerable"; "toString"; "valueOf"; "__proto__";
   "toLocaleString"].

(** Truthiness of [statusMeta[key]]. *)
Definition statusMeta_truthy (key : string) : bool :=
  match metaGet key statusMeta with
  | Some _ => true
  | None => existsb (String.eqb key) inheritedKeys
  end.

Record StatusChart := mkStatusChart {
  statusLabels : list string;
  statusSeries : list Z;
  statusColors : list string
}.

(** The two loops that fill [statusLabels], [statusSeries] and
    [statusColors]; every key of [statusOrder] is an own property of
    [statusMeta]. *)
Definition statusChartOf (data : ReportData) : StatusChart :=
  let statusBuckets := statusBuckets (testsOf data) in
  let metaOf key :=
    match metaGet key statusMeta with
    | Some m => m
    | None => (EmptyString, EmptyString)
    end in
  let unlisted :=
    filter (fun kv => negb (statusMeta_truthy (fst kv))) statusBuckets in
  {| statusLabels := map (fun key => fst (metaOf key)) statusOrder ++ map fst unlisted;
     statusSeries :=
       map (fun key => if (key =? "flaky")%string then flaky data
                       else bucketGet key statusBuckets) statusOrder
       ++ map snd unlisted;
     statusColors :=
       map (fun key => snd (metaOf key)) statusOrder
       ++ map (fun _ => "#9ca3af") unlisted |}.

(** Tests the status chart leaves out: their status is a key of
    [statusMeta] that has no bucket slice, that is ['flaky'] or an inherited
    property name. *)
Definition hiddenStatus (t : TestResult) : bool :=
  statusMeta_truthy (statusKey t)
  && negb (existsb (String.eqb (statusKey t))
                   ["passed"; "failed"; "skipped"; "timedOut"]).

(** advancedReportGenerator.ts: [generateTestTimeline(data)].  The entry
    [{ ...test, index, durationMs, percentage }], without the display
    string. *)
Record TimelineEntry := mkTimelineEntry {
  tl_test : TestResult;
  tl_index : Z;
  tl_durationMs : Z;
  tl_percentage : Q
}.

(** [arr.map((x, index) => f(x, index))] *)
Fixpoint mapIndexed {A B} (f : A -> Z -> B) (index : Z) (l : list A) : list B :=
  match l with
  | [] => []
  | x :: l' => f x index :: mapIndexed f (index + 1) l'
  end.

(** [data.tests.sort(...)] sorts the array of the caller in place, so the
    function returns, beside the timeline, [data] as the caller finds it
    afterwards; [Math.max(...data.tests.map(t => t.duration), 1)] is read
    from the array once sorted. *)
Definition generateTestTimeline (data : ReportData)
  : Exc (list TimelineEntry * ReportData) :=
  match tests data with
  | None => Throw (TypeError "Cannot read properties of undefined (reading 'sort')")
  | Some ts =>
      let sorted := JS.sort byDurationDesc ts in
      let data' :=
        {| totalTests := totalTests data; passed := passed data;
           failed := failed data; skipped := skipped data; flaky := flaky data;
           totalDuration := totalDuration data;
           tests := Some sorted;
           suites := suites data; browsers := browsers data;
           browserStats := browserStats data; suiteStats := suiteStats data |} in
      let longest := fold_left (fun m t => Z.max m (duration t)) sorted 1 in
      Ok (mapIndexed
            (fun test index =>
               {| tl_test := test;
                  tl_index := index;
                  tl_durationMs := duration test;
                  tl_percentage := (JS.div (duration test) longest * 100)%Q |})
            0 sorted,
          data')
  end.

(** ** The history file as JSON *)



(** A property that [HistoryEntry] declares as a number: absent, a number,
    or, with [None], a value of another type. *)
Definition numberProp (fields : list (string * JSON)) (k : string)
  : option (option Z) :=
  match lookup k fields with
  | None => Some None
  | Some (JNum n) => Some (Some n)
  | Some _ => None
  end.

(** The same for a property declared as a string. *)
Definition stringProp (fields : list (string * JSON)) (k : string)
  : option (option string) :=
  match lookup k fields with
  | None => Some None
  | Some (JStr x) => Some (Some x)
  | Some _ => None
  end.

(** The entry an object stands for when each property [HistoryEntry]
    declares is absent or of the declared type; other properties do not
    matter.  [None] for an object with, say, an object where a number is
    declared: on such an entry the arithmetic of [generateVueReport] is
    outside this development, and it can throw. *)
Definition entryOfFields (fields : list (string * JSON)) : option HistoryEntry :=
  match stringProp fields "generatedAt", numberProp fields "total",
        numberProp fields "passed", numberProp fields "failed",
        numberProp fields "skipped", numberProp fields "flaky",
        numberProp fields "timedOut", numberProp fields "durationMs",
        numberProp fields "passRate" with
  | Some generatedAt, Some total, Some passed, Some failed, Some skipped,
    Some flaky, Some timedOut, Some durationMs, Some passRate =>
      Some (mkHistoryEntry generatedAt total passed failed skipped flaky
                           timedOut durationMs passRate)
  | _, _, _, _, _, _, _, _, _ => None
  end.

(** The history item a parsed value stands for: an array is an object
    without any of the properties. *)
Definition historyItemOf (v : JSON) : option HistoryItem :=
  match v with
  | JNull => Some HNull
  | JBool b => Some (HPrimitive (PBool b))
  | JNum n => Some (HPrimitive (PNum n))
  | JStr x => Some (HPrimitive (PStr x))
  | JArr _ => Some (HObject noFields)
  | JObj fields => option_map HObject (entryOfFields fields)
  end.

(** A window of parsed values all of which stand for history items. *)
Fixpoint typedHistory (window : list JSON) : option (list HistoryItem) :=
  match window with
  | [] => Some []
  | v :: window' =>
      match historyItemOf v, typedHistory window' with
      | Some item, Some items => Some (item :: items)
      | _, _ => None
      end
  end.

(** What is at the history path: no file, text that [JSON.parse] rejects,
    or a parsed value. *)
Inductive HistoryFileContent : Type :=
| FileAbsent
| FileUnparsable
| FileParsed (v : JSON).

(** The [HistoryFile] a content stands for; [None] when it is an array with
    an entry that stands for no history item. *)
Definition storedHistoryOf (content : HistoryFileContent) : option HistoryFile :=
  match content with
  | FileAbsent => Some NoFile
  | FileUnparsable => Some Unparsable
  | FileParsed (JArr parsed) => option_map ArrayOf (typedHistory parsed)
  | FileParsed _ => Some NotAnArray
  end.

(** A stored run as the tool writes it, without a date. *)
Definition sampleRunJSON (rate failedCount ms : Z) : JSON :=
  JObj [("total", JNum 10); ("passed", JNum rate); ("failed", JNum failedCount);
        ("skipped", JNum 0); ("flaky", JNum 0); ("timedOut", JNum 0);
        ("durationMs", JNum ms); ("passRate", JNum rate)].


(** * Properties *)

Unset Implicit Arguments.

(** ** Facts about the primitives *)

Section SortFacts.
Variable A : Type.
Variable cmp : A -> A -> Z.

Lemma insert_perm (x : A) (s : list A) :
  Permutation (JS.insert cmp x s) (x :: s).
Proof.
  induction s as [|y s IH]; simpl; [reflexivity|].
  destruct (cmp x y <=? 0); [reflexivity|].
  rewrite IH. apply perm_swap.
Qed.

Lemma sort_perm (l : list A) : Permutation (JS.sort cmp l) l.
Proof.
  induction l as [|x l IH]; simpl; [constructor|].
  rewrite insert_perm. now constructor.
Qed.

Lemma sort_length (l : list A) : List.length (JS.sort cmp l) = List.length l.
Proof. apply Permutation_length, sort_perm. Qed.

Lemma sort_Forall (P : A -> Prop) (l : list A) :
  Forall P l -> Forall P (JS.sort cmp l).
Proof.
  intro H. eapply Permutation_Forall; [|exact H].
  symmetry. apply sort_perm.
Qed.
End SortFacts.

Lemma insert_ascending_sorted (x : Z) (s : list Z) :
  Sorted Z.le s -> Sorted Z.le (JS.insert ascending x s).
Proof.
  induction 1 as [|y s Hs IH Hhd]; simpl.
  - repeat constructor.
  - unfold ascending at 1. destruct (Z.leb_spec (x - y) 0) as [Hle|Hgt].
    + constructor; [constructor; assumption|]. constructor. lia.
    + constructor; [exact IH|].
      destruct s as [|z s']; simpl.
      * constructor. lia.
      * unfold ascending at 1. destruct (x - z <=? 0); constructor.
        -- lia.
        -- now inversion Hhd.
  Qed.

Lemma sort_ascending_sorted (l : list Z) : Sorted Z.le (JS.sort ascending l).
Proof.
  induction l as [|x l IH]; simpl; [constructor|].
  now apply insert_ascending_sorted.
Qed.

(** Two ascending lists with the same elements are the same list. *)
Lemma sorted_perm_unique (s1 : list Z) :
  forall s2, Sorted Z.le s1 -> Sorted Z.le s2 -> Permutation s1 s2 -> s1 = s2.
Proof.
  induction s1 as [|x s1 IH]; intros s2 H1 H2 HP.
  - now apply Permutation_nil in HP.
  - destruct s2 as [|y s2].
    + symmetry in HP. now apply Permutation_nil in HP.
    + apply Sorted_StronglySorted in H1; [|intros a b c; apply Z.le_trans].
      apply Sorted_StronglySorted in H2; [|intros a b c; apply Z.le_trans].
      inversion H1 as [|? ? S1 F1]; inversion H2 as [|? ? S2 F2]; subst.
      assert (x = y) as ->.
      { assert (Hx : In x (y :: s2)) by (eapply Permutation_in; [exact HP|now left]).
        assert (Hy : In y (x :: s1))
          by (eapply Permutation_in; [symmetry; exact HP|now left]).
        rewrite Forall_forall in F1, F2.
        destruct Hx as [->|Hx]; [reflexivity|].
        destruct Hy as [->|Hy]; [reflexivity|].
        specialize (F1 _ Hy). specialize (F2 _ Hx). lia. }
      f_equal. apply IH.
      * now apply StronglySorted_Sorted.
      * now apply StronglySorted_Sorted.
      * eapply Permutation_cons_inv; exact HP.
Qed.

(** In an ascending list, a larger index holds a larger element. *)
Lemma sorted_nth_mono (s : list Z) :
  Sorted Z.le s ->
  forall i j, (i <= j)%nat -> (j < List.length s)%nat -> nth i s 0 <= nth j s 0.
Proof.
  intro H. apply Sorted_StronglySorted in H; [|intros a b c; apply Z.le_trans].
  induction H as [|x s Hs IH Hall]; intros i j Hij Hj; simpl in Hj; [lia|].
  destruct i as [|i], j as [|j]; simpl; try lia.
  - rewrite Forall_forall in Hall. apply Hall, nth_In. lia.
  - apply IH; lia.
Qed.

(** ** Percentiles *)

Lemma len_sort_ascending (values : list Z) :
  JS.len (JS.sort ascending values) = JS.len values.
Proof. unfold JS.len. now rewrite sort_length. Qed.

(** On a non-empty series the source reads the sorted copy at the
    nearest-rank index. *)
Lemma percentile_unfold (values : list Z) (p : Z) :
  values <> [] ->
  percentile values p =
  nth (nearest_rank_index p (List.length values)) (JS.sort ascending values) 0.
Proof.
  intro Hne. unfold percentile.
  destruct (Z.eqb_spec (JS.len values) 0) as [E|_].
  - destruct values; [congruence|]. unfold JS.len in E. simpl in E. lia.
  - rewrite len_sort_ascending. reflexivity.
Qed.

Lemma nearest_rank_index_lt (p : Z) (n : nat) :
  (0 < n)%nat -> (nearest_rank_index p n < n)%nat.
Proof.
  intro Hn. unfold nearest_rank_index, clamp_range. lia.
Qed.

Lemma nearest_rank_index_mono (p q : Z) (n : nat) :
  p <= q -> (nearest_rank_index p n <= nearest_rank_index q n)%nat.
Proof.
  intro Hpq. unfold nearest_rank_index, clamp_range.
  assert (H : Qceiling (inject_Z p / 100 * inject_Z (Z.of_nat n))
              <= Qceiling (inject_Z q / 100 * inject_Z (Z.of_nat n))).
  { apply Qceiling_resp_le. apply Qmult_le_compat_r.
    - apply Qmult_le_compat_r; [|discriminate].
      rewrite <- Zle_Qle. exact Hpq.
    - change 0%Q with (inject_Z 0). rewrite <- Zle_Qle. lia. }
  lia.
Qed.

Lemma percentile_mono (values : list Z) (p q : Z) :
  values <> [] -> p <= q -> percentile values p <= percentile values q.
Proof.
  intros Hne Hpq. rewrite !percentile_unfold by assumption.
  apply sorted_nth_mono.
  - apply sort_ascending_sorted.
  - now apply nearest_rank_index_mono.
  - rewrite sort_length. apply nearest_rank_index_lt.
    destruct values; [congruence|simpl; lia].
Qed.

(** C3.  For the three percentiles the report computes, p50, p90 and p95,
    [percentile] is the nearest-rank percentile: on a non-empty series it
    returns the element of the ascending arrangement of the values at index
    [ceil((p/100) * n) - 1] clamped into [[0, n-1]].  Hence
    p50 <= p90 <= p95, and on a one-element series all three are that
    element.  (For other [p] the product [(p / 100) * n] of the source is
    rounded to a double before [Math.ceil], which can move the rank by one;
    at 50, 90 and 95 the rounded product has the same ceiling.) *)
Theorem percentile_nearest_rank (values sorted : list Z)
        (Hne : values <> [])
        (Hsorted : Sorted Z.le sorted)
        (Hperm : Permutation sorted values) :
  (forall p, In p [50; 90; 95] ->
             percentile values p
             = nth (nearest_rank_index p (List.length values)) sorted 0)
  /\ percentile values 50 <= percentile values 90 <= percentile values 95
  /\ (forall x, percentile [x] 50 = x /\ percentile [x] 90 = x
                /\ percentile [x] 95 = x).
Proof.
  split; [|split].
  - intros p _. rewrite percentile_unfold by assumption. f_equal.
    apply sorted_perm_unique.
    + apply sort_ascending_sorted.
    + exact Hsorted.
    + rewrite sort_perm. symmetry. exact Hperm.
  - split; apply percentile_mono; auto; lia.
  - intro x. repeat split; reflexivity.
Qed.

Lemma percentile_nearest_rank_witness :
  (forall p, In p [50; 90; 95] ->
             percentile [30; 10; 20] p
             = nth (nearest_rank_index p 3) [10; 20; 30] 0)
  /\ percentile [30; 10; 20] 50 <= percentile [30; 10; 20] 90
     <= percentile [30; 10; 20] 95
  /\ (forall x, percentile [x] 50 = x /\ percentile [x] 90 = x
                /\ percentile [x] 95 = x).
Proof.
  apply (percentile_nearest_rank [30; 10; 20] [10; 20; 30]).
  - discriminate.
  - repeat constructor; simpl; lia.
  - apply Permutation_sym.
    apply (perm_trans (l' := [10; 30; 20])).
    + apply perm_swap.
    + apply perm_skip, perm_swap.
Defined.

Example percentile_five :
  percentile [500; 100; 400; 200; 300] 50 = 300
  /\ percentile [500; 100; 400; 200; 300] 90 = 500
  /\ percentile [500; 100; 400; 200; 300] 95 = 500.
Proof. repeat split; reflexivity. Qed.

(** ** Empty input *)

(** C6.  On an empty record set [calculateStatistics] returns 0 for the
    pass, fail and skip rates, for the average and the maximum duration and
    for the minimum duration, and [percentile] returns 0 on the empty
    series. *)
Theorem empty_input_is_zero_valued (data : option ReportData)
        (Hempty : inputTestsOf data = []) :
  passRate (calculateStatistics data) = 0
  /\ failRate (calculateStatistics data) = 0
  /\ skipRate (calculateStatistics data) = 0
  /\ averageDuration (calculateStatistics data) = 0
  /\ maxDuration (calculateStatistics data) = 0
  /\ minDuration (calculateStatistics data) = 0
  /\ forall p, percentile [] p = 0.
Proof.
  assert (E : calculateStatistics data = emptyStatistics).
  { unfold calculateStatistics, inputTestsOf in *.
    destruct data as [d|]; [|reflexivity].
    destruct (tests d) as [ts|]; [|reflexivity].
    subst ts. reflexivity. }
  rewrite E. repeat split.
Qed.

Lemma empty_input_is_zero_valued_witness :
  passRate (calculateStatistics (Some (mkReportData 7 7 0 0 0 900 (Some []) None None None None))) = 0
  /\ minDuration (calculateStatistics None) = 0
  /\ percentile [] 95 = 0.
Proof.
  pose proof (empty_input_is_zero_valued
                (Some (mkReportData 7 7 0 0 0 900 (Some []) None None None None))
                eq_refl) as H1.
  pose proof (empty_input_is_zero_valued None eq_refl) as H2.
  split; [apply H1|]. split; [apply H2|]. apply H1.
Defined.

(** ** The tree flattener *)



Lemma collect_own_specs (title : option string) (specs : list SpecEntry) :
  forall acc,
    flat_map itemTests
      (fold_left
         (fun acc sp =>
            match sp_tests sp with
            | Some _ => acc ++ [mkCollectedSpec sp title]
            | None => acc
            end) specs acc)
    = flat_map itemTests acc ++ flat_map specTests specs.
Proof.
  induction specs as [|sp specs IH]; intro acc; simpl.
  - now rewrite app_nil_r.
  - rewrite IH. destruct (sp_tests sp) as [ts|] eqn:E.
    + rewrite flat_map_app. simpl.
      change (itemTests {| spec := sp; suiteTitle := title |}) with (specTests sp).
      now rewrite app_nil_r, <- app_assoc.
    + assert (Hs : specTests sp = []) by (unfold specTests; now rewrite E).
      now rewrite Hs.
Qed.

(** [collectSpecs] gathers the test nodes of the suite, in tree order. *)
Lemma collectSpecs_tests (suite : SuiteNode) :
  forall acc parent,
    flat_map itemTests (collectSpecs suite acc parent)
    = flat_map itemTests acc ++ suiteTestNodes suite.
Proof.
  induction suite as [t f specs childSuites IH] using SuiteNode_nested_ind.
  intros acc parent. simpl.
  set (title := JS.or_else t parent).
  set (acc1 := match specs with
               | Some specs0 => fold_left _ specs0 acc
               | None => acc
               end).
  assert (H1 : flat_map itemTests acc1
               = flat_map itemTests acc
                 ++ flat_map specTests (match specs with Some l => l | None => [] end)).
  { subst acc1. destruct specs as [specs|]; simpl.
    - apply collect_own_specs.
    - now rewrite app_nil_r. }
  destruct childSuites as [children|]; simpl in *.
  - rewrite app_assoc, <- H1. clear H1. generalize acc1. clear acc1.
    induction children as [|c cs IHc]; intro acc1; simpl.
    + now rewrite app_nil_r.
    + inversion IH as [|? ? Hc Hcs]; subst.
      rewrite (IHc Hcs). rewrite Hc. now rewrite app_assoc.
  - rewrite H1. now rewrite app_nil_r.
Qed.

Lemma last_cons_default {A} (rest : list A) :
  forall a b, last (b :: rest) a = last rest b.
Proof.
  induction rest as [|c rest IH]; intros a b; [reflexivity|].
  change (last (b :: c :: rest) a) with (last (c :: rest) a).
  now rewrite !IH.
Qed.

Lemma at_index_last {A} (a : A) (rest : list A) :
  JS.at_index (a :: rest) (JS.len (a :: rest) - 1) = Some (last rest a).
Proof.
  unfold JS.at_index, JS.len.
  replace (Z.of_nat (List.length (a :: rest)) - 1) with (Z.of_nat (List.length rest))
    by (cbn [List.length]; lia).
  destruct (Z.ltb_spec (Z.of_nat (List.length rest)) 0) as [H|_]; [lia|].
  rewrite Nat2Z.id. revert a.
  induction rest as [|b rest IH]; intro a; [reflexivity|].
  rewrite last_cons_default. exact (IH b).
Qed.

(** [getResultError] returns the attempt's own message, else the first
    listed one, else nothing. *)
Lemma getResultError_spec (result : AttemptResult) :
  ErrorOfAttempt result (getResultError result).
Proof.
  unfold getResultError.
  destruct (r_error result) as [e|] eqn:Ee.
  - destruct (message e) as [m|] eqn:Em; cbn [JS.truthy].
    + destruct (String.eqb_spec m EmptyString) as [->|Hm]; cbn [negb].
      * assert (Hown : forall m', ~ OwnMessage result m').
        { intros m' (e' & E1 & E2 & E3). congruence. }
        destruct (r_errors result) as [[|e0 es]|] eqn:Es.
        -- apply error_absent; [exact Hown|].
           intros m' (e0 & es & E1 & _). congruence.
        -- destruct (message e0) as [m0|] eqn:E0; cbn [JS.truthy].
           ++ destruct (String.eqb_spec m0 EmptyString) as [->|H0]; cbn [negb].
              ** apply error_absent; [exact Hown|].
                 intros m' (e1 & es1 & E1 & E2 & E3). congruence.
              ** apply error_first_listed; [exact Hown|].
                 exists e0, es. repeat split; assumption.
           ++ apply error_absent; [exact Hown|].
              intros m' (e1 & es1 & E1 & E2 & E3). congruence.
        -- apply error_absent; [exact Hown|].
           intros m' (e0 & es & E1 & _). congruence.
      * apply error_own. exists e. repeat split; assumption.
    + assert (Hown : forall m', ~ OwnMessage result m').
      { intros m' (e' & E1 & E2 & E3). congruence. }
      destruct (r_errors result) as [[|e0 es]|] eqn:Es.
      * apply error_absent; [exact Hown|].
        intros m' (e0 & es & E1 & _). congruence.
      * destruct (message e0) as [m0|] eqn:E0; cbn [JS.truthy].
        -- destruct (String.eqb_spec m0 EmptyString) as [->|H0]; cbn [negb].
           ++ apply error_absent; [exact Hown|].
              intros m' (e1 & es1 & E1 & E2 & E3). congruence.
           ++ apply error_first_listed; [exact Hown|].
              exists e0, es. repeat split; assumption.
        -- apply error_absent; [exact Hown|].
           intros m' (e1 & es1 & E1 & E2 & E3). congruence.
      * apply error_absent; [exact Hown|].
        intros m' (e0 & es & E1 & _). congruence.
  - assert (Hown : forall m', ~ OwnMessage result m').
    { intros m' (e' & E1 & _). congruence. }
    cbn [JS.truthy].
    destruct (r_errors result) as [[|e0 es]|] eqn:Es.
    + apply error_absent; [exact Hown|].
      intros m' (e0 & es & E1 & _). congruence.
    + destruct (message e0) as [m0|] eqn:E0; cbn [JS.truthy].
      * destruct (String.eqb_spec m0 EmptyString) as [->|H0]; cbn [negb].
        -- apply error_absent; [exact Hown|].
           intros m' (e1 & es1 & E1 & E2 & E3). congruence.
        -- apply error_first_listed; [exact Hown|].
           exists e0, es. repeat split; assumption.
      * apply error_absent; [exact Hown|].
        intros m' (e1 & es1 & E1 & E2 & E3). congruence.
    + apply error_absent; [exact Hown|].
      intros m' (e0 & es & E1 & _). congruence.
Qed.

(** The fields of an attempt leave one choice for the error of its record. *)
Lemma ErrorOfAttempt_unique (result : AttemptResult) (x y : option string) :
  ErrorOfAttempt result x -> ErrorOfAttempt result y -> x = y.
Proof.
  assert (Hown : forall m m', OwnMessage result m -> OwnMessage result m' -> m = m').
  { intros m m' (e & E1 & E2 & _) (e' & E1' & E2' & _). congruence. }
  assert (Hfirst : forall m m', FirstListedMessage result m ->
                                FirstListedMessage result m' -> m = m').
  { intros m m' (e & es & E1 & E2 & _) (e' & es' & E1' & E2' & _). congruence. }
  intros [m Hm|m Hno Hm|Hno Hnone] [m' Hm'|m' Hno' Hm'|Hno' Hnone'];
    try reflexivity;
    try (f_equal; auto; fail);
    try (exfalso; eapply Hno; eassumption);
    try (exfalso; eapply Hno'; eassumption);
    try (exfalso; eapply Hnone; eassumption);
    try (exfalso; eapply Hnone'; eassumption).
Qed.

Lemma recordsOf_emits (suite : SuiteNode) (item : CollectedSpec) (test : TestNode) :
  EmitsFor test (recordsOf suite item test).
Proof.
  unfold EmitsFor, recordsOf, processTest.
  destruct (t_results test) as [[|a rest]|]; try reflexivity.
  rewrite at_index_last. simpl. eexists. split; [reflexivity|].
  cbn [status duration error retries].
  split; [reflexivity|]. split; [reflexivity|].
  split; [apply getResultError_spec|].
  unfold JS.len; cbn [List.length]; lia.
Qed.

Lemma processTest_tests (suite : SuiteNode) (item : CollectedSpec)
      (st : ParseState) (test : TestNode) :
  st_tests (processTest suite item st test)
  = st_tests st ++ recordsOf suite item test.
Proof.
  unfold recordsOf, processTest.
  destruct (JS.at_index _ _); simpl; [reflexivity|now rewrite app_nil_r].
Qed.

Lemma processTests_tests (suite : SuiteNode) (item : CollectedSpec)
      (ts : list TestNode) :
  forall st,
    st_tests (fold_left (processTest suite item) ts st)
    = st_tests st ++ List.concat (map (recordsOf suite item) ts).
Proof.
  induction ts as [|test ts IH]; intro st; simpl.
  - now rewrite app_nil_r.
  - rewrite IH, processTest_tests. now rewrite app_assoc.
Qed.

Lemma processItem_tests (suite : SuiteNode) (item : CollectedSpec) (st : ParseState) :
  st_tests (processItem suite st item)
  = st_tests st ++ List.concat (map (recordsOf suite item) (itemTests item)).
Proof.
  unfold processItem. rewrite processTests_tests. reflexivity.
Qed.

Lemma processItems_tests (suite : SuiteNode) (items : list CollectedSpec) :
  forall st,
    st_tests (fold_left (processItem suite) items st)
    = st_tests st ++ List.concat (recordsOfItems suite items).
Proof.
  induction items as [|item items IH]; intro st; simpl.
  - now rewrite app_nil_r.
  - rewrite IH, processItem_tests. unfold recordsOfItems. simpl.
    rewrite concat_app. now rewrite app_assoc.
Qed.

Lemma recordsOfItems_emit (suite : SuiteNode) (items : list CollectedSpec) :
  Forall2 EmitsFor (flat_map itemTests items) (recordsOfItems suite items).
Proof.
  induction items as [|item items IH]; simpl; [constructor|].
  apply Forall2_app; [|exact IH].
  induction (itemTests item) as [|test ts IHt]; simpl; constructor.
  - apply recordsOf_emits.
  - exact IHt.
Qed.

Lemma processSuite_tests (st : ParseState) (suite : SuiteNode) :
  st_tests (processSuite st suite)
  = st_tests st ++ List.concat (recordsOfSuite suite).
Proof. unfold processSuite. now rewrite processItems_tests. Qed.

Lemma recordsOfSuite_emit (suite : SuiteNode) :
  Forall2 EmitsFor (suiteTestNodes suite) (recordsOfSuite suite).
Proof.
  pose proof (recordsOfItems_emit suite (collectSpecs suite [] None)) as H.
  now rewrite collectSpecs_tests in H.
Qed.

(** C4.  The records returned by [parsePlaywrightReport] are, in tree order,
    what each test node of the report emits: nothing for a node whose list
    of attempt results is empty, otherwise exactly one record whose status
    and duration are those of the last attempt, whose error is the message
    of the last attempt's [error], else that of the first of its [errors],
    else absent, and whose [retries] is the number of attempts minus one. *)
Theorem parse_emits_one_record_per_attempted_test (report : PlaywrightReport) :
  exists emitted : list (list TestResult),
    Forall2 EmitsFor (reportTestNodes report) emitted
    /\ tests (parsePlaywrightReport report) = Some (List.concat emitted).
Proof.
  unfold reportTestNodes, parsePlaywrightReport. simpl.
  set (roots := match pw_suites report with Some l => l | None => [] end).
  exists (flat_map recordsOfSuite roots). split.
  - induction roots as [|suite roots IH]; simpl; [constructor|].
    apply Forall2_app; [apply recordsOfSuite_emit|exact IH].
  - f_equal.
    assert (H : forall st,
               st_tests (fold_left processSuite roots st)
               = st_tests st ++ List.concat (flat_map recordsOfSuite roots)).
    { induction roots as [|suite roots IH]; intro st; simpl.
      - now rewrite app_nil_r.
      - rewrite IH, processSuite_tests, concat_app. now rewrite app_assoc. }
    now rewrite H.
Qed.

Example parse_two_attempts_one_record :
  let flakyTest :=
    mkTestNode (Some "logs in") (Some "chromium") None None None
      (Some [mkAttemptResult "failed" (Some 900)
               (Some (mkErrorInfo (Some "timeout") None)) None None;
             mkAttemptResult "passed" (Some 450) None None None]) in
  let neverRan := mkTestNode (Some "skipped by grep") None None None None (Some []) in
  let report :=
    mkPlaywrightReport
      (Some [mkSuiteNode (Some "auth") None
               (Some [mkSpecEntry "login" (Some "auth.spec.ts")
                        (Some [neverRan; flakyTest])])
               None]) in
  option_map (map (fun r => (status r, duration r, retries r, error r)))
             (tests (parsePlaywrightReport report))
  = Some [("passed", 450, 1, None)].
Proof. reflexivity. Qed.

(** ** The structural validator *)

Lemma lookup_height (k : string) (fields : list (string * JSON)) (v : JSON) :
  lookup k fields = Some v -> (height v < height (JObj fields))%nat.
Proof.
  simpl. induction fields as [|[k' v'] rest IH]; simpl; [discriminate|].
  destruct (k' =? k)%string.
  - intros [= ->]. lia.
  - intro H. specialize (IH H). lia.
Qed.

Lemma in_height (x : JSON) (items : list JSON) :
  In x items -> (height x < height (JArr items))%nat.
Proof.
  simpl. induction items as [|y items IH]; simpl; [tauto|].
  intros [->|H]; [lia|]. specialize (IH H). lia.
Qed.

(** An element of the array found at property [k] of [v] sits two levels
    below [v]. *)
Lemma element_height (v : JSON) (k : string) (items : list JSON) (x : JSON) :
  asArray (prop v k) = Some items -> In x items ->
  (height x + 2 <= height v)%nat.
Proof.
  intros Ha Hin. destruct v; simpl in Ha; try discriminate.
  destruct (lookup k fields) as [[]|] eqn:El; simpl in Ha; try discriminate.
  injection Ha as ->.
  apply lookup_height in El. apply in_height in Hin. lia.
Qed.

Lemma forEachOk_spec {A} (P : A -> Prop) (body : A -> option bool) (l : list A) :
  (forall x, In x l ->
             (body x = Some true /\ P x) \/ (body x = Some false /\ ~ P x)) ->
  (forEachOk body l = Some true /\ Forall P l)
  \/ (forEachOk body l = Some false /\ ~ Forall P l).
Proof.
  induction l as [|x l IH]; intro H; simpl.
  - left. split; [reflexivity|constructor].
  - destruct (H x (or_introl eq_refl)) as [[-> Hx]|[-> Hx]].
    + destruct IH as [[-> Hl]|[-> Hl]].
      * intros y Hy. apply H. now right.
      * left. split; [reflexivity|now constructor].
      * right. split; [reflexivity|]. intro F. inversion F. contradiction.
    + right. split; [reflexivity|]. intro F. inversion F. contradiction.
Qed.

Lemma wrapChild_accepted (child : JSON) :
  ReportAccepted (wrapChild child) <-> SuiteAccepted child.
Proof.
  unfold ReportAccepted, wrapChild. simpl. split.
  - intros (_ & _ & suites & [= <-] & F). now inversion F.
  - intro H. repeat split. exists [child]. split; [reflexivity|].
    constructor; [exact H|constructor].
Qed.

Lemma validateFuel_spec (fuel : nat) :
  forall report, (height report < fuel)%nat ->
    (validateFuel fuel report = Some true /\ ReportAccepted report)
    \/ (validateFuel fuel report = Some false /\ ~ ReportAccepted report).
Proof.
  induction fuel as [|fuel IH]; intros report Hh; [lia|].
  cbn [validateFuel].
  destruct (js_truthy report) eqn:Ht; cbn [negb orb];
    [|right; split; [reflexivity|intros (H & _); congruence]].
  destruct (typeof_object report) eqn:Hty; cbn [negb];
    [|right; split; [reflexivity|intros (_ & H & _); congruence]].
  destruct (asArray (prop report "suites")) as [suites|] eqn:Hs;
    [|right; split; [reflexivity|intros (_ & _ & s & H & _); congruence]].
  match goal with
  | |- context [forEachOk ?b suites] =>
      destruct (forEachOk_spec SuiteAccepted b suites) as [[-> F]|[-> F]]
  end.
  - (* each root suite is decided correctly *)
    intros suite Hin.
    pose proof (element_height _ _ _ _ Hs Hin) as Hsuite.
    destruct (js_truthy suite) eqn:Hst; cbn [negb orb];
      [|right; split; [reflexivity|intro H; inversion H; congruence]].
    destruct (typeof_object suite) eqn:Hsty; cbn [negb];
      [|right; split; [reflexivity|intro H; inversion H; congruence]].
    destruct (asArray (prop suite "suites")) as [children|] eqn:Hc.
    + destruct (Z.gtb_spec (JS.len children) 0) as [Hpos|Hzero].
      * rewrite andb_false_r.
        match goal with
        | |- context [forEachOk ?b children] =>
            destruct (forEachOk_spec SuiteAccepted b children) as [[-> G]|[-> G]]
        end.
        -- intros child Hchild.
           pose proof (element_height _ _ _ _ Hc Hchild) as Hchild_h.
           destruct (IH (wrapChild child)) as [[E A]|[E A]].
           ++ unfold wrapChild. simpl. lia.
           ++ left. split; [exact E|now apply wrapChild_accepted].
           ++ right. split; [exact E|]. intro S. apply A.
              now apply wrapChild_accepted.
        -- left. split; [reflexivity|]. constructor; try assumption.
           intros children' E. rewrite Hc in E. now injection E as <-.
        -- right. split; [reflexivity|]. intro S. inversion S as [? _ _ HF].
           apply G. now apply HF.
      * assert (children = []) as ->.
        { destruct children; [reflexivity|].
          unfold JS.len in Hzero. cbn [List.length] in Hzero. lia. }
        left. split.
        -- destruct (negb _ && negb false); reflexivity.
        -- constructor; try assumption.
           intros children' E. rewrite Hc in E. injection E as <-. constructor.
    + left. split.
      * destruct (negb _ && negb false); reflexivity.
      * constructor; try assumption. intros children' E. congruence.
  - left. split; [reflexivity|]. repeat split; try assumption.
    exists suites. now split.
  - right. split; [reflexivity|]. intros (_ & _ & suites' & E & F').
    rewrite Hs in E. injection E as <-. contradiction.
Qed.

(** The budget [validatePlaywrightReport] passes always suffices, and any
    larger one gives the same answer. *)
Lemma validateFuel_total (report : JSON) (fuel : nat) :
  (height report < fuel)%nat ->
  validateFuel fuel report = Some (validatePlaywrightReport report).
Proof.
  intro Hh. unfold validatePlaywrightReport.
  destruct (validateFuel_spec (S (height report)) report) as [[E A]|[E A]];
    [lia| |]; rewrite E;
    destruct (validateFuel_spec fuel report Hh) as [[E' A']|[E' A']];
    rewrite E'; try reflexivity; contradiction.
Qed.

Lemma validate_iff_accepted (report : JSON) :
  validatePlaywrightReport report = true <-> ReportAccepted report.
Proof.
  unfold validatePlaywrightReport.
  destruct (validateFuel_spec (S (height report)) report) as [[-> A]|[-> A]];
    [lia| |]; split; intro H; try assumption; try reflexivity;
    try discriminate; contradiction.
Qed.

(** C5 (as the validator behaves).  [validatePlaywrightReport] terminates
    within its budget and returns true exactly when the root is a non-null
    object with a [suites] array and every suite node reached through
    [suites] arrays is a non-null object.  The [specs] of a suite play no
    part: a suite with neither specs nor nested suites is accepted, and so
    is one whose [specs] or [suites] property has the wrong shape. *)
Theorem validate_accepts_object_trees (report : JSON) :
  (forall fuel, (height report < fuel)%nat ->
                validateFuel fuel report = Some (validatePlaywrightReport report))
  /\ (validatePlaywrightReport report = true <-> ReportAccepted report)
  /\ (forall suite,
        js_truthy suite = true -> typeof_object suite = true ->
        containsNestedSuites suite = false -> SuiteAccepted suite).
Proof.
  split; [|split].
  - intros fuel Hh. now apply validateFuel_total.
  - apply validate_iff_accepted.
  - intros suite Ht Hty Hn. constructor; try assumption.
    intros children E. unfold containsNestedSuites in Hn. rewrite E in Hn.
    destruct children; [constructor|].
    unfold JS.len in Hn. cbn [List.length] in Hn.
    destruct (Z.gtb_spec (Z.of_nat (S (List.length children))) 0); [discriminate|lia].
Qed.

Lemma validate_accepts_object_trees_witness :
  validateFuel 9 (JObj [("suites", JArr [JObj [("title", JStr "empty")]])])
  = Some true
  /\ ReportAccepted (JObj [("suites", JArr [JObj [("title", JStr "empty")]])])
  /\ SuiteAccepted (JObj [("title", JStr "empty")]).
Proof.
  destruct (validate_accepts_object_trees
              (JObj [("suites", JArr [JObj [("title", JStr "empty")]])]))
    as (Hfuel & Hiff & Hleaf).
  split; [|split].
  - rewrite (Hfuel 9%nat); [reflexivity|simpl; lia].
  - apply Hiff. reflexivity.
  - apply Hleaf; reflexivity.
Defined.

(** A suite whose only spec has no [tests] array, and a suite whose [specs]
    is a number and whose [suites] is a string, both pass the validator
    although neither has one of the three shapes of the specification. *)
Lemma validate_accepts_malformed_suites :
  validatePlaywrightReport
    (JObj [("suites", JArr [JObj [("specs", JArr [JObj [("title", JStr "login")]])]])])
  = true
  /\ specShapedSuite (JObj [("specs", JArr [JObj [("title", JStr "login")]])]) = false
  /\ validatePlaywrightReport
       (JObj [("suites", JArr [JObj [("specs", JNum 42); ("suites", JStr "oops")]])])
     = true
  /\ specShapedSuite (JObj [("specs", JNum 42); ("suites", JStr "oops")]) = false.
Proof. repeat split; reflexivity. Qed.

Example validate_rejects_null_child :
  validatePlaywrightReport
    (JObj [("suites", JArr [JObj [("suites", JArr [JObj []; JNull])]])]) = false
  /\ validatePlaywrightReport (JArr []) = false
  /\ validatePlaywrightReport (JObj [("suites", JObj [])]) = false
  /\ validatePlaywrightReport (JObj [("suites", JArr [])]) = true.
Proof. repeat split; reflexivity. Qed.

(** ** Rounding *)

Lemma inject_Z_pos_nonzero (b : Z) : 0 < b -> ~ (inject_Z b == 0)%Q.
Proof.
  intros Hb E. unfold Qeq in E. simpl in E. lia.
Qed.

(** [Math.round(a / b)] and [Math.round((a / b) * 100)] in integer
    arithmetic. *)
Lemma Math_round_div (a b : Z) :
  0 < b -> JS.Math_round (JS.div a b) = (2 * a + b) / (2 * b).
Proof.
  intro Hb. unfold JS.Math_round, JS.div. rewrite Zdiv_Qdiv.
  apply Qfloor_comp. rewrite inject_Z_plus, !inject_Z_mult.
  field. now apply inject_Z_pos_nonzero.
Qed.

Lemma Math_round_percent (a b : Z) :
  0 < b -> JS.Math_round (JS.div a b * 100) = (200 * a + b) / (2 * b).
Proof.
  intro Hb. unfold JS.Math_round, JS.div. rewrite Zdiv_Qdiv.
  apply Qfloor_comp. rewrite inject_Z_plus, !inject_Z_mult.
  field. now apply inject_Z_pos_nonzero.
Qed.

Lemma percentOf_bounds (part total : Z) :
  0 <= part <= total -> 0 <= percentOf part total <= 100.
Proof.
  intro H. unfold percentOf.
  destruct (Z.gtb_spec total 0) as [Hpos|_]; [|lia].
  rewrite Math_round_percent by lia. split.
  - apply Z.div_pos; lia.
  - apply Z.lt_succ_r. apply Z.div_lt_upper_bound; lia.
Qed.

Lemma clamp_bounds (n : Z) : 0 <= clamp n <= 100.
Proof. unfold clamp, clamp_range. lia. Qed.

Lemma percentOf_bounds_pos (part total : Z) :
  0 < total -> 0 <= part <= total ->
  0 <= JS.Math_round (JS.div part total * 100) <= 100.
Proof.
  intros Hpos H. pose proof (percentOf_bounds part total H) as Hb.
  unfold percentOf in Hb. destruct (Z.gtb_spec total 0); [exact Hb|lia].
Qed.

Lemma count_bounds {A} (f : A -> bool) (l : list A) :
  0 <= JS.count f l <= JS.len l.
Proof.
  unfold JS.count, JS.len. split; [lia|].
  apply inj_le. apply filter_length_le.
Qed.

(** ** The payload of generateVueReport *)

(** What a built payload contains, field by field. *)
Lemma payload_fields (D : string -> option Z) (data : option ReportData)
      (options : VueReportOptions) (p : VueReportPayload) :
  generateVueReport_payload D data options = Ok p ->
  exists history,
    historyOf D options = Ok history
    /\ pl_summary p = summaryOf (safeData data)
    /\ pl_insights p = insightsOf (safeData data) (comparisonOf history)
    /\ pl_fileInsights p = JS.slice_to 10 (fileInsightsOf (safeData data))
    /\ pl_history p = history
    /\ pl_comparison p = comparisonOf history.
Proof.
  unfold generateVueReport_payload.
  destruct (historyOf D options) as [history|e]; simpl; [|discriminate].
  intros [= <-]. exists history. repeat split.
Qed.

Lemma payload_exists (D : string -> option Z) (data : option ReportData)
      (options : VueReportOptions) (history : list HistoryPoint) :
  historyOf D options = Ok history ->
  exists p, generateVueReport_payload D data options = Ok p.
Proof.
  intro H. unfold generateVueReport_payload. rewrite H. simpl. eexists. reflexivity.
Qed.

Lemma testsOf_safeData (data : option ReportData) :
  testsOf (safeData data) = inputTestsOf data.
Proof. reflexivity. Qed.

(** The summary and the insight scores read only the six counters and the
    tests of [data]. *)
Section CoreFields.
Variables a b : ReportData.
Hypothesis Htotal : totalTests a = totalTests b.
Hypothesis Hpassed : passed a = passed b.
Hypothesis Hfailed : failed a = failed b.
Hypothesis Hskipped : skipped a = skipped b.
Hypothesis Hflaky : flaky a = flaky b.
Hypothesis Hduration : totalDuration a = totalDuration b.
Hypothesis Htests : tests a = tests b.

Lemma testsOf_ext : testsOf a = testsOf b.
Proof. unfold testsOf. now rewrite Htests. Qed.

Lemma calculateStatistics_ext :
  calculateStatistics (Some a) = calculateStatistics (Some b).
Proof.
  unfold calculateStatistics.
  rewrite Htests, Htotal, Hpassed, Hfailed, Hskipped, Hduration. reflexivity.
Qed.

Lemma enhancedOf_ext : enhancedOf a = enhancedOf b.
Proof.
  unfold enhancedOf, enhanceStats.
  rewrite calculateStatistics_ext, Htotal, Hflaky. reflexivity.
Qed.

Lemma timedOutOf_ext : timedOutOf a = timedOutOf b.
Proof. unfold timedOutOf. now rewrite testsOf_ext. Qed.

Lemma flakyRateOf_ext : flakyRateOf a = flakyRateOf b.
Proof. unfold flakyRateOf. now rewrite Htotal, Hflaky. Qed.

Lemma retryRateOf_ext : retryRateOf a = retryRateOf b.
Proof. unfold retryRateOf, retriedTestsOf. now rewrite Htotal, testsOf_ext. Qed.

Lemma p95Of_ext : p95Of a = p95Of b.
Proof. unfold p95Of, durationsOf. now rewrite testsOf_ext. Qed.

Lemma speedScoreOf_ext : speedScoreOf a = speedScoreOf b.
Proof. unfold speedScoreOf. now rewrite p95Of_ext. Qed.

Lemma stabilityScoreOf_ext : stabilityScoreOf a = stabilityScoreOf b.
Proof.
  unfold stabilityScoreOf.
  now rewrite retryRateOf_ext, enhancedOf_ext, timedOutOf_ext, Htotal.
Qed.

Lemma qualityScoreOf_ext : qualityScoreOf a = qualityScoreOf b.
Proof.
  unfold qualityScoreOf, retryHealthOf.
  now rewrite enhancedOf_ext, stabilityScoreOf_ext, speedScoreOf_ext,
    retryRateOf_ext.
Qed.

Lemma summaryOf_ext : summaryOf a = summaryOf b.
Proof.
  unfold summaryOf.
  now rewrite enhancedOf_ext, flakyRateOf_ext, timedOutOf_ext, Htotal, Hpassed,
    Hfailed, Hskipped, Hflaky, Hduration.
Qed.

Lemma insightsOf_ext (c : Comparison) : insightsOf a c = insightsOf b c.
Proof.
  unfold insightsOf, riskLevelOf, releaseGateOf, retryHealthOf,
    effectivePassRateOf, totalRetriesOf, p50Of, p90Of, durationsOf.
  now rewrite qualityScoreOf_ext, stabilityScoreOf_ext, speedScoreOf_ext,
    retryRateOf_ext, p95Of_ext, testsOf_ext, flakyRateOf_ext, timedOutOf_ext,
    Htotal, Hpassed, Hfailed, Hflaky.
Qed.
End CoreFields.

Lemma bucketGet_upsert (k k' : string) (m : list (string * Z)) :
  bucketGet k (upsert k' 0 (fun n => n + 1) m)
  = bucketGet k m + b2z (k' =? k)%string.
Proof.
  induction m as [|[k0 n] m IH]; simpl.
  - destruct (k' =? k)%string; reflexivity.
  - destruct (String.eqb_spec k0 k') as [->|Hne]; simpl.
    + destruct (k' =? k)%string; simpl; lia.
    + destruct (String.eqb_spec k0 k) as [->|Hne'].
      * destruct (String.eqb_spec k' k) as [->|_]; [congruence|simpl; lia].
      * exact IH.
Qed.

Lemma count_cons {A} (f : A -> bool) (x : A) (l : list A) :
  JS.count f (x :: l) = b2z (f x) + JS.count f l.
Proof.
  unfold JS.count, JS.len. simpl. destruct (f x); simpl b2z; [|lia].
  cbn [List.length]. lia.
Qed.

(** The [timedOut] bucket counts the tests whose status is ['timedOut']. *)
Lemma timedOut_bucket (ts : list TestResult) :
  bucketGet "timedOut" (statusBuckets ts) = JS.count isTimedOut ts.
Proof.
  unfold statusBuckets.
  assert (H : forall m,
             bucketGet "timedOut"
               (fold_left
                  (fun m t => upsert (JS.or_lit (Some (status t)) "unknown") 0
                                     (fun n => n + 1) m) ts m)
             = bucketGet "timedOut" m + JS.count isTimedOut ts).
  { induction ts as [|t ts IH]; intro m; cbn [fold_left].
    - unfold JS.count, JS.len. simpl. lia.
    - rewrite IH, bucketGet_upsert, count_cons.
      assert (E : (JS.or_lit (Some (status t)) "unknown" =? "timedOut")%string
                  = isTimedOut t).
      { unfold isTimedOut, JS.or_lit.
        destruct (String.eqb_spec (status t) EmptyString) as [->|_]; reflexivity. }
      rewrite E. lia. }
  rewrite H. reflexivity.
Qed.

Lemma timedOutOf_safeData (data : option ReportData) :
  timedOutOf (safeData data) = JS.count isTimedOut (inputTestsOf data).
Proof. unfold timedOutOf. rewrite testsOf_safeData. apply timedOut_bucket. Qed.

(** ** Score ranges *)

Lemma Forall_slice_to {A} (P : A -> Prop) (n : nat) (l : list A) :
  Forall P l -> Forall P (JS.slice_to n l).
Proof.
  unfold JS.slice_to. intro H. revert n.
  induction H as [|x l Hx Hl IH]; intros [|n]; simpl; constructor; auto.
Qed.

Lemma retryRateOf_bounds (data : option ReportData) :
  0 <= retryRateOf (safeData data) <= 100.
Proof.
  unfold retryRateOf, retriedTestsOf. rewrite testsOf_safeData.
  cbn [safeData totalTests].
  apply (percentOf_bounds (JS.count wasRetried (inputTestsOf data))
                          (JS.len (inputTestsOf data))).
  apply count_bounds.
Qed.

Lemma effectivePassRateOf_bounds (data : option ReportData) :
  0 <= effectivePassRateOf (safeData data) <= 100.
Proof.
  unfold effectivePassRateOf. cbn [safeData totalTests passed flaky].
  apply (percentOf_bounds
           (Z.max 0 (JS.count isPassed (inputTestsOf data)
                     - JS.count (fun t => wasRetried t && isPassed t)
                                (inputTestsOf data)))
           (JS.len (inputTestsOf data))).
  pose proof (count_bounds isPassed (inputTestsOf data)).
  pose proof (count_bounds (fun t => wasRetried t && isPassed t) (inputTestsOf data)).
  lia.
Qed.

Lemma fileInsightOf_bounds (p95 : Z) (entry : FileEntry) :
  0 <= riskScore (fileInsightOf p95 entry) <= 100.
Proof. unfold fileInsightOf. cbn [riskScore]. apply clamp_bounds. Qed.

Lemma fileInsightsOf_bounds (data : ReportData) :
  Forall (fun f => 0 <= riskScore f <= 100) (fileInsightsOf data).
Proof.
  unfold fileInsightsOf. apply sort_Forall.
  apply Forall_map, Forall_forall. intros e _. apply fileInsightOf_bounds.
Qed.

(** C2.  In every payload [generateVueReport] builds, [qualityScore],
    [stabilityScore], [speedScore], [retryHealth], [retryRate] and
    [effectivePassRate] are integers between 0 and 100, and so is the
    [riskScore] of every file, of the ten the payload keeps and of all the
    files ranked. *)
Theorem scores_between_0_and_100 (D : string -> option Z)
        (data : option ReportData) (options : VueReportOptions)
        (p : VueReportPayload)
        (Hbuilt : generateVueReport_payload D data options = Ok p) :
  0 <= qualityScore (pl_insights p) <= 100
  /\ 0 <= stabilityScore (pl_insights p) <= 100
  /\ 0 <= speedScore (pl_insights p) <= 100
  /\ 0 <= retryHealth (pl_insights p) <= 100
  /\ 0 <= retryRate (pl_insights p) <= 100
  /\ 0 <= effectivePassRate (pl_insights p) <= 100
  /\ Forall (fun f => 0 <= riskScore f <= 100) (pl_fileInsights p)
  /\ Forall (fun f => 0 <= riskScore f <= 100) (fileInsightsOf (safeData data)).
Proof.
  destruct (payload_fields _ _ _ _ Hbuilt) as (history & _ & _ & Hi & Hf & _).
  rewrite Hi, Hf. cbn [insightsOf qualityScore stabilityScore speedScore
                       retryHealth retryRate effectivePassRate].
  repeat split; try apply clamp_bounds;
    try apply retryRateOf_bounds; try apply effectivePassRateOf_bounds.
  - apply Forall_slice_to, fileInsightsOf_bounds.
  - apply fileInsightsOf_bounds.
Qed.

Lemma scores_between_0_and_100_witness :
  exists p,
    generateVueReport_payload sampleClock
      (sampleData [sampleTest "a" "failed" 20000 2 "a.spec.ts";
                   sampleTest "b" "passed" 300 1 "b.spec.ts";
                   sampleTest "c" "timedOut" 30000 0 "a.spec.ts"])
      (sampleOptions None) = Ok p
    /\ 0 <= qualityScore (pl_insights p) <= 100
    /\ 0 <= stabilityScore (pl_insights p) <= 100
    /\ 0 <= speedScore (pl_insights p) <= 100
    /\ 0 <= retryHealth (pl_insights p) <= 100
    /\ 0 <= retryRate (pl_insights p) <= 100
    /\ 0 <= effectivePassRate (pl_insights p) <= 100
    /\ Forall (fun f => 0 <= riskScore f <= 100) (pl_fileInsights p)
    /\ Forall (fun f => 0 <= riskScore f <= 100)
              (fileInsightsOf
                 (safeData
                    (sampleData [sampleTest "a" "failed" 20000 2 "a.spec.ts";
                                 sampleTest "b" "passed" 300 1 "b.spec.ts";
                                 sampleTest "c" "timedOut" 30000 0 "a.spec.ts"]))).
Proof.
  eexists. split.
  - reflexivity.
  - apply (scores_between_0_and_100 sampleClock
             (sampleData [sampleTest "a" "failed" 20000 2 "a.spec.ts";
                          sampleTest "b" "passed" 300 1 "b.spec.ts";
                          sampleTest "c" "timedOut" 30000 0 "a.spec.ts"])
             (sampleOptions None)).
    reflexivity.
Defined.

(** The scores of three degenerate runs: no test, every test failed, every
    test flaky. *)
Example scores_of_degenerate_runs :
  let scores data :=
    match generateVueReport_payload sampleClock data (sampleOptions None) with
    | Ok p => let i := pl_insights p in
              [qualityScore i; stabilityScore i; speedScore i; retryHealth i;
               retryRate i; effectivePassRate i]
              ++ map riskScore (pl_fileInsights p)
    | Throw _ => []
    end in
  scores None = [60; 100; 100; 100; 0; 0]
  /\ scores (sampleData [sampleTest "a" "failed" 16000 3 "a.spec.ts";
                         sampleTest "b" "failed" 90000 3 "b.spec.ts"])
     = [0; 0; 0; 0; 100; 0; 100; 80]
  /\ scores (sampleData [sampleTest "a" "passed" 100 1 "a.spec.ts";
                         sampleTest "b" "passed" 200 2 "a.spec.ts"])
     = [73; 45; 99; 0; 100; 0; 39].
Proof. repeat split; vm_compute; reflexivity. Qed.

(** ** Counters recomputed from the tests *)

Lemma safeData_same_tests (d1 d2 : option ReportData) :
  inputTestsOf d1 = inputTestsOf d2 ->
  summaryOf (safeData d1) = summaryOf (safeData d2)
  /\ forall c, insightsOf (safeData d1) c = insightsOf (safeData d2) c.
Proof.
  intro H.
  split; [apply summaryOf_ext|intro c; apply insightsOf_ext];
    cbn [safeData totalTests passed failed skipped flaky totalDuration tests];
    now rewrite H.
Qed.

(** C9.  The summary counters and the insight scores of the payload depend
    on the [tests] array only: two inputs with the same tests, whatever
    their own [totalTests], [passed], [failed], [skipped], [flaky] and
    [totalDuration] say, give the same summary and the same insights, and
    the counters shown are the counts taken over the tests. *)
Theorem counters_come_from_tests (D : string -> option Z)
        (d1 d2 : option ReportData) (options : VueReportOptions)
        (Hsame : inputTestsOf d1 = inputTestsOf d2) :
  match generateVueReport_payload D d1 options,
        generateVueReport_payload D d2 options with
  | Ok p1, Ok p2 =>
      pl_summary p1 = pl_summary p2
      /\ pl_insights p1 = pl_insights p2
      /\ s_total (pl_summary p1) = JS.len (inputTestsOf d1)
      /\ s_passed (pl_summary p1) = JS.count isPassed (inputTestsOf d1)
      /\ s_failed (pl_summary p1) = JS.count isFailed (inputTestsOf d1)
      /\ s_skipped (pl_summary p1) = JS.count isSkipped (inputTestsOf d1)
      /\ s_flaky (pl_summary p1) = JS.count isFlaky (inputTestsOf d1)
      /\ s_durationMs (pl_summary p1)
         = fold_left (fun acc t => acc + Z.max 0 (duration t)) (inputTestsOf d1) 0
  | Throw e1, Throw e2 => e1 = e2
  | _, _ => False
  end.
Proof.
  unfold generateVueReport_payload.
  destruct (historyOf D options) as [history|e]; cbn [bindExc]; [|reflexivity].
  cbn [pl_summary pl_insights].
  destruct (safeData_same_tests d1 d2 Hsame) as [Hs Hi].
  split; [exact Hs|]. split; [apply Hi|]. repeat split.
Qed.

Lemma counters_come_from_tests_witness :
  let ts := [sampleTest "a" "passed" 120 1 "a.spec.ts";
             sampleTest "b" "failed" 800 0 "b.spec.ts"] in
  let inflated := Some (mkReportData 500 500 0 0 0 1 (Some ts) None None None None) in
  match generateVueReport_payload sampleClock inflated (sampleOptions None),
        generateVueReport_payload sampleClock (sampleData ts) (sampleOptions None) with
  | Ok p1, Ok p2 =>
      pl_summary p1 = pl_summary p2
      /\ pl_insights p1 = pl_insights p2
      /\ s_total (pl_summary p1) = 2
      /\ s_passed (pl_summary p1) = 1
      /\ s_failed (pl_summary p1) = 1
      /\ s_skipped (pl_summary p1) = 0
      /\ s_flaky (pl_summary p1) = 1
      /\ s_durationMs (pl_summary p1) = 920
  | Throw e1, Throw e2 => e1 = e2
  | _, _ => False
  end.
Proof.
  exact (counters_come_from_tests sampleClock
           (Some (mkReportData 500 500 0 0 0 1
                    (Some [sampleTest "a" "passed" 120 1 "a.spec.ts";
                           sampleTest "b" "failed" 800 0 "b.spec.ts"])
                    None None None None))
           (sampleData [sampleTest "a" "passed" 120 1 "a.spec.ts";
                        sampleTest "b" "failed" 800 0 "b.spec.ts"])
           (sampleOptions None) eq_refl).
Defined.

(** ** The trend window and the comparison *)

Lemma mapExc_length {A B} (f : A -> Exc B) (l : list A) :
  forall l', mapExc f l = Ok l' -> List.length l' = List.length l.
Proof.
  induction l as [|x l IH]; simpl; intros l' H.
  - now injection H as <-.
  - destruct (f x) as [y|e]; simpl in H; [|discriminate].
    destruct (mapExc f l) as [ys|e]; simpl in H; [|discriminate].
    injection H as <-. simpl. f_equal. now apply IH.
Qed.

Lemma slice_last_length {A} (n : nat) (l : list A) :
  List.length (JS.slice_last n l) = Nat.min n (List.length l).
Proof. unfold JS.slice_last. rewrite length_skipn. lia. Qed.

Lemma historyOf_length (D : string -> option Z) (options : VueReportOptions)
      (history : list HistoryPoint) :
  historyOf D options = Ok history ->
  List.length history = Nat.min 20 (List.length (historyArg options)).
Proof.
  unfold historyOf.
  destruct (mapExc historyPointOf (historyArg options)) as [mapped|e] eqn:E;
    simpl; [|discriminate].
  intros [= <-]. rewrite slice_last_length, sort_length.
  now rewrite (mapExc_length _ _ _ E).
Qed.

Lemma comparisonOf_no_baseline (history : list HistoryPoint) :
  (List.length history < 2)%nat ->
  hasBaseline (comparisonOf history) = false
  /\ passRateDelta (comparisonOf history) = Some 0
  /\ failedDelta (comparisonOf history) = Some 0
  /\ flakyRateDelta (comparisonOf history) = Some 0
  /\ durationDeltaSec (comparisonOf history) = Some 0.
Proof.
  intro H. unfold comparisonOf.
  assert (E : previousRunOf history = None).
  { unfold previousRunOf, JS.len.
    destruct (Z.gtb_spec (Z.of_nat (List.length history)) 1); [lia|reflexivity]. }
  rewrite E. destruct (latestRunOf history); repeat split.
Qed.

Lemma timeOf_pointOf (D : string -> option Z) (e : HistoryEntry) :
  timeOf D (pointOf e) = entryTime D e.
Proof. reflexivity. Qed.

(** Two object entries given oldest first stay in that order. *)
Lemma historyOf_two_in_order (D : string -> option Z) (options : VueReportOptions)
      (e1 e2 : HistoryEntry) :
  o_history options = Some [HObject e1; HObject e2] ->
  (forall t1 t2, entryTime D e1 = Some t1 -> entryTime D e2 = Some t2 -> t1 <= t2) ->
  historyOf D options = Ok [pointOf e1; pointOf e2].
Proof.
  intros Ho Hchrono. unfold historyOf, historyArg. rewrite Ho.
  cbn [mapExc historyPointOf bindExc JS.sort JS.insert].
  assert (E : (byGeneratedAt D (pointOf e1) (pointOf e2) <=? 0) = true).
  { unfold byGeneratedAt. rewrite !timeOf_pointOf.
    destruct (entryTime D e1) as [t1|] eqn:E1, (entryTime D e2) as [t2|] eqn:E2;
      cbn [nsub]; try reflexivity.
    specialize (Hchrono t1 t2 eq_refl eq_refl). apply Z.leb_le. lia. }
  rewrite E. reflexivity.
Qed.

(** C7.  With fewer than two history entries the comparison has no baseline
    and its four deltas are 0.  With the two entries
    [{passRate: 80, failed: 2, durationMs: 10000}] and then
    [{passRate: 90, failed: 0, durationMs: 8000}], given oldest first, it
    reports [passRateDelta = 10], [failedDelta = -2] and
    [durationDeltaSec = -2]. *)
Theorem trend_comparison_deltas (D : string -> option Z)
        (data : option ReportData) (options : VueReportOptions)
        (p : VueReportPayload)
        (Hbuilt : generateVueReport_payload D data options = Ok p) :
  ((List.length (historyArg options) < 2)%nat ->
   hasBaseline (pl_comparison p) = false
   /\ passRateDelta (pl_comparison p) = Some 0
   /\ failedDelta (pl_comparison p) = Some 0
   /\ flakyRateDelta (pl_comparison p) = Some 0
   /\ durationDeltaSec (pl_comparison p) = Some 0)
  /\ (forall e1 e2,
        o_history options = Some [HObject e1; HObject e2] ->
        h_passRate e1 = Some 80 -> h_failed e1 = Some 2 ->
        h_durationMs e1 = Some 10000 ->
        h_passRate e2 = Some 90 -> h_failed e2 = Some 0 ->
        h_durationMs e2 = Some 8000 ->
        (forall t1 t2, entryTime D e1 = Some t1 -> entryTime D e2 = Some t2 ->
                       t1 <= t2) ->
        hasBaseline (pl_comparison p) = true
        /\ passRateDelta (pl_comparison p) = Some 10
        /\ failedDelta (pl_comparison p) = Some (-2)
        /\ durationDeltaSec (pl_comparison p) = Some (-2)).
Proof.
  destruct (payload_fields _ _ _ _ Hbuilt) as (history & Hh & _ & _ & _ & _ & Hc).
  rewrite Hc. split.
  - intro Hlen. apply comparisonOf_no_baseline.
    rewrite (historyOf_length _ _ _ Hh). lia.
  - intros e1 e2 Ho P1 F1 D1 P2 F2 D2 Hchrono.
    rewrite (historyOf_two_in_order D options e1 e2 Ho Hchrono) in Hh.
    injection Hh as <-.
    unfold comparisonOf, latestRunOf, previousRunOf.
    cbn [JS.len List.length Z.of_nat].
    cbn [hasBaseline passRateDelta failedDelta durationDeltaSec].
    simpl. rewrite P1, F1, D1, P2, F2, D2. repeat split.
Qed.

Lemma trend_comparison_deltas_witness :
  exists p1 p2,
    generateVueReport_payload sampleClock None
      (sampleOptions (Some [HObject (sampleRun None 80 2 10000)])) = Ok p1
    /\ hasBaseline (pl_comparison p1) = false
    /\ durationDeltaSec (pl_comparison p1) = Some 0
    /\ generateVueReport_payload sampleClock None
         (sampleOptions
            (Some [HObject (mkHistoryEntry None None None (Some 2) None None None
                              (Some 10000) (Some 80));
                   HObject (mkHistoryEntry None None None (Some 0) None None None
                              (Some 8000) (Some 90))])) = Ok p2
    /\ hasBaseline (pl_comparison p2) = true
    /\ passRateDelta (pl_comparison p2) = Some 10
    /\ failedDelta (pl_comparison p2) = Some (-2)
    /\ durationDeltaSec (pl_comparison p2) = Some (-2).
Proof.
  eexists. eexists.
  split; [reflexivity|].
  destruct (trend_comparison_deltas sampleClock None
              (sampleOptions (Some [HObject (sampleRun None 80 2 10000)])) _ eq_refl)
    as [Hone _].
  destruct Hone as (B1 & _ & _ & _ & S1); [simpl; lia|].
  split; [exact B1|]. split; [exact S1|].
  split; [reflexivity|].
  destruct (trend_comparison_deltas sampleClock None
              (sampleOptions
                 (Some [HObject (mkHistoryEntry None None None (Some 2) None None None
                                   (Some 10000) (Some 80));
                        HObject (mkHistoryEntry None None None (Some 0) None None None
                                   (Some 8000) (Some 90))])) _ eq_refl)
    as [_ Htwo].
  apply (Htwo (mkHistoryEntry None None None (Some 2) None None None
                 (Some 10000) (Some 80))
              (mkHistoryEntry None None None (Some 0) None None None
                 (Some 8000) (Some 90)));
    try reflexivity.
  intros t1 t2 H. discriminate H.
Defined.

(** Entries that carry dates are put in date order before they are compared. *)
Example trend_comparison_sorts_by_date :
  match generateVueReport_payload sampleClock None
          (sampleOptions
             (Some [HObject (sampleRun (Some "2024-05-02T10:00:00.000Z") 90 0 8000);
                    HObject (sampleRun (Some "2024-05-01T10:00:00.000Z") 80 2 10000)]))
  with
  | Ok p => (passRateDelta (pl_comparison p), failedDelta (pl_comparison p),
             durationDeltaSec (pl_comparison p)) = (Some 10, Some (-2), Some (-2))
  | Throw _ => False
  end.
Proof. vm_compute. reflexivity. Qed.

(** ** The release gate *)

Lemma rounded_seconds_above_20 (d : Z) :
  (JS.Math_round (JS.div d 1000) >? 20) = (d >=? 20500).
Proof.
  rewrite Math_round_div by lia.
  destruct (Z.geb_spec d 20500) as [H|H].
  - apply Z.gtb_lt. apply Z.lt_le_trans with 21; [lia|].
    apply Z.div_le_lower_bound; lia.
  - destruct (Z.gtb_spec ((2 * d + 1000) / (2 * 1000)) 20) as [G|_]; [|reflexivity].
    assert ((2 * d + 1000) / (2 * 1000) < 21)
      by (apply Z.div_lt_upper_bound; lia).
    lia.
Qed.

Lemma rounded_percent_at_least_8 (part total : Z) :
  0 <= part ->
  (percentOf part total >=? 8) = (total >? 0) && (200 * part >=? 15 * total).
Proof.
  intro Hpart. unfold percentOf.
  destruct (Z.gtb_spec total 0) as [Hpos|Hneg]; cbn [andb]; [|reflexivity].
  rewrite Math_round_percent by lia.
  destruct (Z.geb_spec (200 * part) (15 * total)) as [H|H].
  - apply Z.geb_le. apply Z.div_le_lower_bound; lia.
  - destruct (Z.geb_spec ((200 * part + total) / (2 * total)) 8) as [G|_];
      [|reflexivity].
    assert ((200 * part + total) / (2 * total) < 8)
      by (apply Z.div_lt_upper_bound; lia).
    lia.
Qed.

Lemma baseline_and_growth (history : list HistoryPoint) :
  hasBaseline (comparisonOf history)
  && ngt (durationDeltaSec (comparisonOf history)) 20
  = match durationGrowthMs history with
    | Some d => d >=? 20500
    | None => false
    end.
Proof.
  unfold comparisonOf, durationGrowthMs.
  destruct (latestRunOf history) as [l|]; [|reflexivity].
  destruct (previousRunOf history) as [pr|]; [|reflexivity].
  cbn [hasBaseline durationDeltaSec andb].
  destruct (nsub _ _) as [d|]; [|reflexivity].
  cbn [option_map ngt]. apply rounded_seconds_above_20.
Qed.

(** C1 (as the gate is computed).  [releaseGate] is BLOCKED when the number
    of failed tests or of timed-out tests is positive; otherwise RISKY when
    the reported [flakyRate], the percentage rounded to an integer, is at
    least 8, or the comparison has a baseline and its [durationDeltaSec], the
    growth in seconds rounded to an integer, exceeds 20; otherwise READY.
    On the unrounded values: the flaky share is at least 7.5 percent, or the
    latest run is at least 20500 ms longer than the previous one. *)
Theorem release_gate_rule (D : string -> option Z)
        (data : option ReportData) (options : VueReportOptions)
        (p : VueReportPayload)
        (Hbuilt : generateVueReport_payload D data options = Ok p) :
  let failedCount := JS.count isFailed (inputTestsOf data) in
  let timedOutCount := JS.count isTimedOut (inputTestsOf data) in
  let flakyCount := JS.count isFlaky (inputTestsOf data) in
  let total := JS.len (inputTestsOf data) in
  releaseGate (pl_insights p)
  = (if (failedCount >? 0) || (timedOutCount >? 0) then BLOCKED
     else if (s_flakyRate (pl_summary p) >=? 8)
             || (hasBaseline (pl_comparison p)
                 && ngt (durationDeltaSec (pl_comparison p)) 20)
          then RISKY
          else READY)
  /\ s_failed (pl_summary p) = failedCount
  /\ s_timedOut (pl_summary p) = timedOutCount
  /\ (s_flakyRate (pl_summary p) >=? 8)
     = (total >? 0) && (200 * flakyCount >=? 15 * total)
  /\ hasBaseline (pl_comparison p) && ngt (durationDeltaSec (pl_comparison p)) 20
     = match durationGrowthMs (pl_history p) with
       | Some d => d >=? 20500
       | None => false
       end.
Proof.
  destruct (payload_fields _ _ _ _ Hbuilt)
    as (history & _ & Hs & Hi & _ & Hh & Hc).
  rewrite Hs, Hi, Hh, Hc.
  cbn [insightsOf releaseGate summaryOf s_flakyRate s_failed s_timedOut].
  unfold releaseGateOf. rewrite timedOutOf_safeData.
  cbn [safeData failed].
  repeat split.
  - unfold flakyRateOf. cbn [safeData totalTests flaky].
    apply (rounded_percent_at_least_8 (JS.count isFlaky (inputTestsOf data))
                                      (JS.len (inputTestsOf data))).
    apply count_bounds.
  - apply baseline_and_growth.
Qed.

Lemma release_gate_rule_witness :
  exists p,
    generateVueReport_payload sampleClock
      (sampleData [sampleTest "a" "passed" 100 1 "a.spec.ts";
                   sampleTest "b" "passed" 100 0 "a.spec.ts"])
      (sampleOptions None) = Ok p
    /\ releaseGate (pl_insights p) = RISKY
    /\ s_flakyRate (pl_summary p) = 50.
Proof.
  eexists. split; [reflexivity|]. split; [|reflexivity].
  rewrite (proj1 (release_gate_rule sampleClock
             (sampleData [sampleTest "a" "passed" 100 1 "a.spec.ts";
                          sampleTest "b" "passed" 100 0 "a.spec.ts"])
             (sampleOptions None) _ eq_refl)).
  reflexivity.
Defined.

(** No test failed or timed out, a previous run exists and the latest run
    took 20.4 seconds longer, yet the gate is READY. *)
Lemma release_gate_ready_after_growth_above_20s :
  exists p,
    generateVueReport_payload sampleClock
      (sampleData [sampleTest "a" "passed" 100 0 "a.spec.ts"])
      (sampleOptions
         (Some [HObject (sampleRun (Some "2024-05-01T10:00:00.000Z") 100 0 100000);
                HObject (sampleRun (Some "2024-05-02T10:00:00.000Z") 100 0 120400)]))
    = Ok p
    /\ s_failed (pl_summary p) = 0
    /\ s_timedOut (pl_summary p) = 0
    /\ s_flakyRate (pl_summary p) = 0
    /\ hasBaseline (pl_comparison p) = true
    /\ durationGrowthMs (pl_history p) = Some 20400
    /\ 20400 > 20 * 1000
    /\ releaseGate (pl_insights p) = READY.
Proof.
  eexists. split; [reflexivity|]. vm_compute. repeat split.
Qed.

Example release_gate_by_case :
  let gate ts history :=
    match generateVueReport_payload sampleClock (sampleData ts)
            (sampleOptions history) with
    | Ok p => Some (releaseGate (pl_insights p), qualityScore (pl_insights p))
    | Throw _ => None
    end in
  let fast n := sampleTest "t" "passed" 10 0 n in
  gate [fast "a"; fast "b"; fast "c"; fast "d"; fast "e"; fast "f"; fast "g";
        fast "h"; fast "i"; sampleTest "x" "timedOut" 10 0 "x"] None
  = Some (BLOCKED, 95)
  /\ gate [fast "a"] None = Some (READY, 100)
  /\ gate [fast "a"]
          (Some [HObject (sampleRun (Some "2024-05-01T10:00:00.000Z") 100 0 100000);
                 HObject (sampleRun (Some "2024-05-02T10:00:00.000Z") 100 0 120500)])
     = Some (RISKY, 100).
Proof. vm_compute. repeat split. Qed.

(** ** Malformed history entries *)

Lemma pointOf_spec (e : HistoryEntry) : PointOfEntry e (pointOf e).
Proof.
  unfold PointOfEntry, pointOf, FlakyRateFor, ngt.
  cbn [hp_entry hp_durationShown hp_flakyRate].
  split; [reflexivity|]. split; [reflexivity|].
  destruct (h_total e) as [t|]; [|reflexivity].
  destruct (Z.gtb_spec t 0) as [Hpos|_]; [|reflexivity].
  destruct (h_flaky e) as [f|]; [|reflexivity].
  eexists. split; [reflexivity|]. intro Hf.
  apply (percentOf_bounds_pos f t Hpos Hf).
Qed.

Lemma mapExc_history_ok (items : list HistoryItem) :
  existsb item_nullish items = false ->
  exists mapped,
    mapExc historyPointOf items = Ok mapped /\ Forall2 PointFor items mapped.
Proof.
  induction items as [|item items IH]; simpl; intro H.
  - exists []. split; [reflexivity|constructor].
  - apply orb_false_elim in H. destruct H as [Hitem Hrest].
    destruct (IH Hrest) as (mapped & E & F). rewrite E.
    destruct item; try discriminate; simpl; eexists; split; try reflexivity;
      constructor; try assumption; apply pointOf_spec.
Qed.

Lemma cli_filter_keeps_objects (items : list HistoryItem) :
  filter (fun e => item_truthy e && item_typeof_object e) items
  = filter (fun e => match e with HObject _ => true | _ => false end) items.
Proof.
  apply filter_ext. intros [| |pr|o]; try reflexivity.
  simpl. now rewrite andb_false_r.
Qed.

Lemma Forall_slice_last {A} (P : A -> Prop) (n : nat) (l : list A) :
  Forall P l -> Forall P (JS.slice_last n l).
Proof.
  unfold JS.slice_last. generalize (List.length l - n)%nat. intros k H. revert k.
  induction H as [|x l Hx Hl IH]; intros [|k]; simpl; auto.
Qed.





Lemma In_slice_last {A} (n : nat) (l : list A) (x : A) :
  In x (JS.slice_last n l) -> In x l.
Proof.
  unfold JS.slice_last. generalize (List.length l - n)%nat. intro k. revert l.
  induction k as [|k IH]; intros [|y l] H; simpl in *; auto.
Qed.




(** ** The guards of the basic and the advanced generator *)

Lemma NoTestsGiven_noTests (data : option ReportData) :
  NoTestsGiven data -> noTests data = true.
Proof.
  intros [->|(d & -> & [H|H])]; simpl; try reflexivity; now rewrite H.
Qed.

(** C10.  Given no data, data without a [tests] array, or an empty [tests]
    array, [generateReport] and [generateAdvancedReport] throw an [Error]
    and leave the outside world as it was: no directory is made, no file
    written, no webhook called. *)
Theorem empty_input_rejected_without_output
        (renderReport : string -> string -> Statistics -> ReportData -> string)
        (renderAdvanced : string -> string -> EnhancedMetrics -> ReportData -> string)
        (slackBody teamsBody : EnhancedMetrics -> string)
        (dirname : string -> string)
        (data : option ReportData)
        (basic : ReportOptions) (advanced : AdvancedReportOptions) (w : World)
        (Hempty : NoTestsGiven data) :
  generateReport renderReport dirname data basic w
  = (Throw (Error "Invalid or empty ReportData provided to generateReport."), w)
  /\ generateAdvancedReport renderAdvanced slackBody teamsBody dirname
       data advanced w
     = (Throw (Error "Invalid or empty ReportData provided to generateAdvancedReport."),
        w).
Proof.
  apply NoTestsGiven_noTests in Hempty.
  unfold generateReport, generateAdvancedReport. now rewrite Hempty.
Qed.

Lemma empty_input_rejected_without_output_witness :
  let w := mkWorld ["reports"] [("reports/old.html", "<html>")] [] in
  let data := Some (mkReportData 3 3 0 0 0 900 (Some []) None None None None) in
  generateReport (fun _ _ _ _ => "<html>") (fun path => path) data
    (mkReportOptions None None "reports/report.html") w
  = (Throw (Error "Invalid or empty ReportData provided to generateReport."), w)
  /\ generateAdvancedReport (fun _ _ _ _ => "<html>") (fun _ => "{}") (fun _ => "{}")
       (fun path => path) data
       (mkAdvancedReportOptions None None "reports/report.html"
          (Some "https://hooks.example/slack") None) w
     = (Throw (Error "Invalid or empty ReportData provided to generateAdvancedReport."),
        w).
Proof.
  apply empty_input_rejected_without_output.
  right. eexists. split; [reflexivity|]. right. reflexivity.
Defined.

(** With one test the same calls write the report, and the advanced one
    posts to the configured webhook. *)
Example nonempty_input_writes_report :
  let w := mkWorld [] [] [] in
  let data := sampleData [sampleTest "a" "passed" 100 0 "a.spec.ts"] in
  generateReport (fun _ _ _ _ => "<html>") (fun _ => "reports") data
    (mkReportOptions None None "reports/report.html") w
  = (Ok "reports/report.html",
     mkWorld ["reports"] [("reports/report.html", "<html>")] [])
  /\ generateAdvancedReport (fun _ _ _ _ => "<html>") (fun _ => "{}") (fun _ => "{}")
       (fun _ => "reports") data
       (mkAdvancedReportOptions None None "reports/report.html"
          (Some "https://hooks.example/slack") None) w
     = (Ok "reports/report.html",
        mkWorld ["reports"] [("reports/report.html", "<html>")]
                [("https://hooks.example/slack", "{}")]).
Proof. split; reflexivity. Qed.

(** * Further properties of the sources *)

(** ** Sorting with a comparator *)

Section SortAdjacent.
Variable A : Type.
Variable cmp : A -> A -> Z.
Hypothesis cmp_anti : forall x y, cmp x y > 0 -> cmp y x <= 0.

Lemma insert_adjacent (x : A) (s : list A) :
  Sorted (fun a b => cmp a b <= 0) s ->
  Sorted (fun a b => cmp a b <= 0) (JS.insert cmp x s).
Proof.
  induction 1 as [|y s Hs IH Hhd]; simpl.
  - repeat constructor.
  - destruct (Z.leb_spec (cmp x y) 0) as [Hle|Hgt].
    + constructor; [constructor; assumption|]. now constructor.
    + constructor; [exact IH|].
      destruct s as [|z s']; simpl.
      * constructor. apply cmp_anti. lia.
      * destruct (cmp x z <=? 0); constructor.
        -- apply cmp_anti. lia.
        -- now inversion Hhd.
Qed.

Lemma sort_adjacent (l : list A) :
  Sorted (fun a b => cmp a b <= 0) (JS.sort cmp l).
Proof.
  induction l as [|x l IH]; simpl; [constructor|].
  now apply insert_adjacent.
Qed.

(** Sorting a list that is already in order returns it unchanged. *)
Lemma sort_of_sorted (l : list A) :
  Sorted (fun a b => cmp a b <= 0) l -> JS.sort cmp l = l.
Proof.
  induction 1 as [|x l Hl IH Hhd]; simpl; [reflexivity|].
  rewrite IH. destruct Hhd as [|y l' Hxy]; simpl; [reflexivity|].
  destruct (Z.leb_spec (cmp x y) 0); [reflexivity|lia].
Qed.
End SortAdjacent.

Lemma StronglySorted_app_inv {A} (R : A -> A -> Prop) (l1 l2 : list A) :
  StronglySorted R (l1 ++ l2) ->
  forall a b, In a l1 -> In b l2 -> R a b.
Proof.
  induction l1 as [|x l1 IH]; simpl; intros H a b Ha Hb; [contradiction|].
  inversion H as [|? ? Hs Hall]; subst.
  destruct Ha as [->|Ha].
  - rewrite Forall_forall in Hall. apply Hall, in_or_app. now right.
  - now apply IH.
Qed.

Lemma count_app {A} (f : A -> bool) (l1 l2 : list A) :
  JS.count f (l1 ++ l2) = JS.count f l1 + JS.count f l2.
Proof.
  unfold JS.count, JS.len. rewrite filter_app, length_app. lia.
Qed.

Lemma count_nil {A} (f : A -> bool) : JS.count f [] = 0.
Proof. reflexivity. Qed.

Lemma len_cons {A} (x : A) (l : list A) : JS.len (x :: l) = 1 + JS.len l.
Proof. unfold JS.len. cbn [List.length]. lia. Qed.

(** ** statistics.ts: what calculateStatistics returns *)

Lemma calculateStatistics_nonempty (d : ReportData) (t : TestResult)
      (ts : list TestResult) :
  tests d = Some (t :: ts) ->
  calculateStatistics (Some d)
  = let ts := t :: ts in
    {| passRate := percentOf (passed d) (totalTests d);
       failRate := percentOf (failed d) (totalTests d);
       skipRate := percentOf (skipped d) (totalTests d);
       averageDuration :=
         if totalTests d >? 0
         then JS.Math_round (JS.div (totalDuration d) (totalTests d)) else 0;
       maxDuration := fold_left (fun m t => Z.max m (duration t)) ts 0;
       minDuration :=
         match fold_left (fun m t => minWith m (duration t)) ts None with
         | None => 0
         | Some m => m
         end;
       durationByStatus_passed := sumDuration isPassed ts;
       durationByStatus_failed := sumDuration isFailed ts;
       durationByStatus_skipped := sumDuration isSkipped ts;
       retriesDistribution := fold_left (fun m t => bump (retries t) m) ts [];
       durationRanges_fast := JS.count (fun t => duration t <? 1000) ts;
       durationRanges_medium :=
         JS.count (fun t => negb (duration t <? 1000) && (duration t <? 5000)) ts;
       durationRanges_slow :=
         JS.count (fun t => negb (duration t <? 5000) && (duration t <? 15000)) ts;
       durationRanges_verySlow := JS.count (fun t => negb (duration t <? 15000)) ts;
       failedTests := filter isFailed ts;
       flakyTests := filter isFlaky ts;
       slowestTests := JS.slice_to 10 (JS.sort byDurationDesc ts) |}.
Proof.
  intro E. unfold calculateStatistics. rewrite E.
  destruct (Z.eqb_spec (JS.len (t :: ts)) 0) as [H|_]; [|reflexivity].
  rewrite len_cons in H. unfold JS.len in H. lia.
Qed.

Lemma calculateStatistics_empty (data : option ReportData) :
  inputTestsOf data = [] -> calculateStatistics data = emptyStatistics.
Proof.
  unfold calculateStatistics, inputTestsOf.
  destruct data as [d|]; [|reflexivity].
  destruct (tests d) as [ts|]; [|reflexivity].
  now intros ->.
Qed.

(** Either shape of the input: no test, or at least one. *)
Lemma inputTests_cases (data : option ReportData) :
  inputTestsOf data = []
  \/ exists d t ts, data = Some d /\ tests d = Some (t :: ts)
                    /\ inputTestsOf data = t :: ts.
Proof.
  unfold inputTestsOf. destruct data as [d|]; [|now left].
  destruct (tests d) as [[|t ts]|] eqn:E; [now left| |now left].
  right. exists d, t, ts. now rewrite E.
Qed.

Lemma duration_buckets_sum (ts : list TestResult) :
  JS.count (fun t => duration t <? 1000) ts
  + JS.count (fun t => negb (duration t <? 1000) && (duration t <? 5000)) ts
  + JS.count (fun t => negb (duration t <? 5000) && (duration t <? 15000)) ts
  + JS.count (fun t => negb (duration t <? 15000)) ts
  = JS.len ts.
Proof.
  induction ts as [|t ts IH]; [reflexivity|].
  rewrite !count_cons, len_cons.
  destruct (Z.ltb_spec (duration t) 1000), (Z.ltb_spec (duration t) 5000),
    (Z.ltb_spec (duration t) 15000); cbn [negb andb b2z]; lia.
Qed.

(** X1.  The four duration ranges of [calculateStatistics] split the tests:
    fast, medium, slow and very slow add up to the number of tests, whatever
    the durations are. *)
Theorem duration_ranges_partition_tests (data : option ReportData) :
  durationRanges_fast (calculateStatistics data)
  + durationRanges_medium (calculateStatistics data)
  + durationRanges_slow (calculateStatistics data)
  + durationRanges_verySlow (calculateStatistics data)
  = JS.len (inputTestsOf data).
Proof.
  destruct (inputTests_cases data) as [E|(d & t & ts & -> & Et & E)].
  - rewrite (calculateStatistics_empty data E), E. reflexivity.
  - rewrite (calculateStatistics_nonempty d t ts Et), E.
    cbn [durationRanges_fast durationRanges_medium durationRanges_slow
         durationRanges_verySlow].
    apply duration_buckets_sum.
Qed.

Lemma distGet_bump (k k' : Z) (m : list (Z * Z)) :
  distGet k (bump k' m) = distGet k m + b2z (k' =? k).
Proof.
  induction m as [|[k0 n] m IH]; simpl.
  - destruct (k' =? k); reflexivity.
  - destruct (Z.eqb_spec k0 k') as [->|Hne]; simpl.
    + destruct (k' =? k); simpl; lia.
    + destruct (Z.eqb_spec k0 k) as [->|Hne'].
      * destruct (Z.eqb_spec k' k) as [->|_]; [congruence|simpl; lia].
      * exact IH.
Qed.

Lemma bump_keys (k : Z) (m : list (Z * Z)) (x : Z) :
  In x (map fst (bump k m)) <-> x = k \/ In x (map fst m).
Proof.
  induction m as [|[k0 n] m IH]; simpl.
  - intuition.
  - destruct (Z.eqb_spec k0 k) as [->|Hne]; simpl; intuition.
Qed.

Lemma bump_NoDup (k : Z) (m : list (Z * Z)) :
  NoDup (map fst m) -> NoDup (map fst (bump k m)).
Proof.
  induction m as [|[k0 n] m IH]; simpl; intro H.
  - repeat constructor. intros [].
  - inversion H as [|? ? Hin Hnd]; subst.
    destruct (Z.eqb_spec k0 k) as [->|Hne]; simpl.
    + now constructor.
    + constructor; [|now apply IH].
      rewrite bump_keys. intros [->|Hin']; [congruence|contradiction].
Qed.

Lemma bump_total (k : Z) (m : list (Z * Z)) :
  total_of (map snd (bump k m)) = total_of (map snd m) + 1.
Proof.
  unfold total_of. induction m as [|[k0 n] m IH]; simpl; [lia|].
  destruct (k0 =? k); simpl; lia.
Qed.

Lemma retries_fold (ts : list TestResult) :
  forall m,
    let dist := fold_left (fun m t => bump (retries t) m) ts m in
    (forall k, distGet k dist
               = distGet k m + JS.count (fun t => retries t =? k) ts)
    /\ (NoDup (map fst m) -> NoDup (map fst dist))
    /\ total_of (map snd dist) = total_of (map snd m) + JS.len ts.
Proof.
  induction ts as [|t ts IH]; intro m; cbn [fold_left].
  - repeat split; intros; try assumption; rewrite ?count_nil; unfold JS.len;
      simpl; lia.
  - destruct (IH (bump (retries t) m)) as (Hget & Hnd & Hsum).
    repeat split.
    + intro k. rewrite Hget, distGet_bump, count_cons. lia.
    + intro H. now apply Hnd, bump_NoDup.
    + cbv zeta in Hsum. rewrite Hsum, bump_total, len_cons. lia.
Qed.

(** X2.  The retries histogram of [calculateStatistics] has one entry per
    retry count that occurs: the entry for [k] holds the number of tests
    with exactly [k] retries (absent means none), no retry count appears
    twice, and the entries add up to the number of tests. *)
Theorem retries_histogram_counts_tests (data : option ReportData) :
  let dist := retriesDistribution (calculateStatistics data) in
  (forall k, distGet k dist
             = JS.count (fun t => retries t =? k) (inputTestsOf data))
  /\ NoDup (map fst dist)
  /\ total_of (map snd dist) = JS.len (inputTestsOf data).
Proof.
  destruct (inputTests_cases data) as [E|(d & t & ts & -> & Et & E)].
  - rewrite (calculateStatistics_empty data E), E. simpl.
    repeat split. constructor.
  - rewrite (calculateStatistics_nonempty d t ts Et), E.
    cbn [retriesDistribution].
    destruct (retries_fold (t :: ts) []) as (Hget & Hnd & Hsum).
    repeat split.
    + intro k. rewrite Hget. simpl. lia.
    + apply Hnd. constructor.
    + rewrite Hsum. simpl. lia.
Qed.

(** ** Minimum, maximum and the slowest tests *)

Lemma fold_max_spec (ts : list TestResult) :
  forall m0,
    let m := fold_left (fun m t => Z.max m (duration t)) ts m0 in
    m0 <= m
    /\ Forall (fun t => duration t <= m) ts
    /\ (m = m0 \/ exists t, In t ts /\ duration t = m).
Proof.
  induction ts as [|t ts IH]; intro m0; cbn [fold_left].
  - repeat split; [lia|constructor|now left].
  - destruct (IH (Z.max m0 (duration t))) as (Hle & Hall & Hatt). cbv zeta in *.
    repeat split.
    + lia.
    + constructor; [lia|exact Hall].
    + destruct Hatt as [Heq|(t' & Hin & Heq)].
      * destruct (Z.max_spec m0 (duration t)) as [[_ Hm]|[_ Hm]].
        -- right. exists t. split; [now left|congruence].
        -- left. congruence.
      * right. exists t'. split; [now right|exact Heq].
Qed.

Lemma fold_min_spec (ts : list TestResult) :
  forall m0 m,
    fold_left (fun m t => minWith m (duration t)) ts (Some m0) = Some m ->
    m <= m0
    /\ Forall (fun t => m <= duration t) ts
    /\ (m = m0 \/ exists t, In t ts /\ duration t = m).
Proof.
  induction ts as [|t ts IH]; intros m0 m; cbn [fold_left minWith].
  - intros [= <-]. repeat split; [lia|constructor|now left].
  - intro H. destruct (IH _ _ H) as (Hle & Hall & Hatt).
    repeat split.
    + lia.
    + constructor; [lia|exact Hall].
    + destruct Hatt as [Heq|(t' & Hin & Heq)].
      * destruct (Z.min_spec m0 (duration t)) as [[_ Hm]|[_ Hm]].
        -- left. congruence.
        -- right. exists t. split; [now left|congruence].
      * right. exists t'. split; [now right|exact Heq].
Qed.

Lemma fold_min_some (ts : list TestResult) (m0 : Z) :
  exists m, fold_left (fun m t => minWith m (duration t)) ts (Some m0) = Some m.
Proof.
  revert m0. induction ts as [|t ts IH]; intro m0; cbn [fold_left minWith].
  - now exists m0.
  - apply IH.
Qed.

(** X3.  With at least one test, every duration lies between [minDuration]
    and [maxDuration]; [minDuration] is the duration of some test, while
    [maxDuration], which starts from 0, is the duration of some test or 0 and
    is never negative. *)
Theorem min_max_duration_bound_tests (data : option ReportData)
        (Hsome : inputTestsOf data <> []) :
  let stats := calculateStatistics data in
  Forall (fun t => minDuration stats <= duration t <= maxDuration stats)
         (inputTestsOf data)
  /\ (exists t, In t (inputTestsOf data) /\ duration t = minDuration stats)
  /\ (maxDuration stats = 0
      \/ exists t, In t (inputTestsOf data) /\ duration t = maxDuration stats)
  /\ 0 <= maxDuration stats.
Proof.
  destruct (inputTests_cases data) as [E|(d & t & ts & -> & Et & E)];
    [contradiction|].
  rewrite (calculateStatistics_nonempty d t ts Et), E.
  cbn [minDuration maxDuration].
  destruct (fold_max_spec (t :: ts) 0) as (Hle & Hall & Hatt).
  cbn [fold_left minWith].
  destruct (fold_min_some ts (duration t)) as [m Hm].
  rewrite Hm.
  destruct (fold_min_spec ts (duration t) m Hm) as (Hle' & Hall' & Hatt').
  repeat split.
  - apply Forall_forall. intros x Hx. rewrite Forall_forall in Hall, Hall'.
    split; [|now apply Hall].
    destruct Hx as [<-|Hx]; [lia|now apply Hall'].
  - destruct Hatt' as [->|(t' & Hin & Heq)].
    + exists t. split; [now left|reflexivity].
    + exists t'. split; [now right|exact Heq].
  - exact Hatt.
  - exact Hle.
Qed.

Lemma min_max_duration_bound_tests_witness :
  let data := sampleData [sampleTest "a" "passed" (-5) 0 "a.spec.ts";
                          sampleTest "b" "failed" (-2) 0 "a.spec.ts"] in
  minDuration (calculateStatistics data) = -5
  /\ maxDuration (calculateStatistics data) = 0
  /\ Forall (fun t => minDuration (calculateStatistics data) <= duration t
                      <= maxDuration (calculateStatistics data))
            (inputTestsOf data).
Proof.
  split; [reflexivity|]. split; [reflexivity|].
  apply (min_max_duration_bound_tests
           (sampleData [sampleTest "a" "passed" (-5) 0 "a.spec.ts";
                        sampleTest "b" "failed" (-2) 0 "a.spec.ts"])).
  discriminate.
Defined.

Lemma byDurationDesc_anti (x y : TestResult) :
  byDurationDesc x y > 0 -> byDurationDesc y x <= 0.
Proof. unfold byDurationDesc. lia. Qed.

Lemma sort_byDurationDesc_strongly (ts : list TestResult) :
  StronglySorted (fun a b => duration b <= duration a) (JS.sort byDurationDesc ts).
Proof.
  apply Sorted_StronglySorted; [intros a b c; lia|].
  pose proof (sort_adjacent _ byDurationDesc byDurationDesc_anti ts) as H.
  induction H as [|x l Hl IH Hhd]; constructor; [exact IH|].
  destruct Hhd as [|y l' Hxy]; constructor. unfold byDurationDesc in Hxy. lia.
Qed.

(** X4.  [slowestTests] holds the ten slowest tests (all of them when there
    are fewer), slowest first: together with the tests left out it is a
    rearrangement of the input, and no test left out is slower than a
    listed one. *)
Theorem slowest_tests_are_the_top_ten (data : option ReportData) :
  let slowest := slowestTests (calculateStatistics data) in
  List.length slowest = Nat.min 10 (List.length (inputTestsOf data))
  /\ StronglySorted (fun a b => duration b <= duration a) slowest
  /\ exists rest,
      Permutation (slowest ++ rest) (inputTestsOf data)
      /\ forall s r, In s slowest -> In r rest -> duration r <= duration s.
Proof.
  destruct (inputTests_cases data) as [E|(d & t & ts & -> & Et & E)].
  - rewrite (calculateStatistics_empty data E), E. simpl.
    repeat split; [constructor|]. exists []. split; [constructor|intros ? ? []].
  - rewrite (calculateStatistics_nonempty d t ts Et), E.
    cbn [slowestTests]. unfold JS.slice_to.
    set (sorted := JS.sort byDurationDesc (t :: ts)).
    pose proof (sort_byDurationDesc_strongly (t :: ts)) as Hs. fold sorted in Hs.
    rewrite <- (firstn_skipn 10 sorted) in Hs.
    repeat split.
    + rewrite length_firstn. unfold sorted. now rewrite sort_length.
    + clear -Hs. induction (firstn 10 sorted) as [|x l IH]; [constructor|].
      simpl in Hs. inversion Hs as [|? ? Hs' Hall]; subst.
      constructor; [now apply IH|].
      rewrite Forall_forall in *. intros y Hy. apply Hall, in_or_app. now left.
    + exists (skipn 10 sorted). split.
      * rewrite firstn_skipn. apply sort_perm.
      * intros s r Hin Hr. exact (StronglySorted_app_inv _ _ _ Hs s r Hin Hr).
Qed.

(** ** Percentiles are values of the series *)

Lemma nearest_rank_index_top (p : Z) (n : nat) :
  100 <= p -> (0 < n)%nat -> nearest_rank_index p n = (n - 1)%nat.
Proof.
  intros Hp Hn. unfold nearest_rank_index, clamp_range.
  assert (H : Z.of_nat n <= Qceiling (inject_Z p / 100 * inject_Z (Z.of_nat n))).
  { rewrite <- (Qceiling_Z (Z.of_nat n)) at 1. apply Qceiling_resp_le.
    setoid_replace (inject_Z (Z.of_nat n)) with (1 * inject_Z (Z.of_nat n))%Q at 1
      by ring.
    apply Qmult_le_compat_r.
    - apply Qle_shift_div_l; [reflexivity|].
      rewrite Qmult_1_l. change 100%Q with (inject_Z 100).
      rewrite <- Zle_Qle. exact Hp.
    - change 0%Q with (inject_Z 0). rewrite <- Zle_Qle. lia. }
  lia.
Qed.

Lemma nearest_rank_index_bottom (p : Z) (n : nat) :
  p <= 0 -> nearest_rank_index p n = 0%nat.
Proof.
  intro Hp. unfold nearest_rank_index, clamp_range.
  assert (H : Qceiling (inject_Z p / 100 * inject_Z (Z.of_nat n)) <= 0).
  { rewrite <- (Qceiling_Z 0). apply Qceiling_resp_le.
    setoid_replace (inject_Z 0) with (0 * inject_Z (Z.of_nat n))%Q by ring.
    apply Qmult_le_compat_r.
    - apply Qle_shift_div_r; [reflexivity|].
      rewrite Qmult_0_l. change 0%Q with (inject_Z 0).
      rewrite <- Zle_Qle. exact Hp.
    - change 0%Q with (inject_Z 0). rewrite <- Zle_Qle. lia. }
  lia.
Qed.

(** X5.  On a non-empty series [percentile] always returns one of the
    values, never an interpolated one; for [p >= 100] it is the largest
    value and for [p <= 0] the smallest. *)
Theorem percentile_returns_a_value (values : list Z) (p : Z)
        (Hne : values <> []) :
  In (percentile values p) values
  /\ (100 <= p -> forall v, In v values -> v <= percentile values p)
  /\ (p <= 0 -> forall v, In v values -> percentile values p <= v).
Proof.
  assert (Hlen : (0 < List.length values)%nat)
    by (destruct values; [congruence|simpl; lia]).
  rewrite percentile_unfold by assumption.
  pose proof (sort_ascending_sorted values) as Hs.
  pose proof (sort_perm _ ascending values) as Hperm.
  pose proof (sort_length _ ascending values) as Hl.
  pose proof (nearest_rank_index_lt p (List.length values) Hlen) as Hidx.
  split; [|split].
  - apply (Permutation_in _ Hperm). apply nth_In. lia.
  - intros Hp v Hv. rewrite nearest_rank_index_top by assumption.
    apply (Permutation_in _ (Permutation_sym Hperm)) in Hv.
    destruct (In_nth _ _ 0 Hv) as (i & Hi & <-).
    apply sorted_nth_mono; [exact Hs|lia|lia].
  - intros Hp v Hv. rewrite nearest_rank_index_bottom by assumption.
    apply (Permutation_in _ (Permutation_sym Hperm)) in Hv.
    destruct (In_nth _ _ 0 Hv) as (i & Hi & <-).
    apply sorted_nth_mono; [exact Hs|lia|lia].
Qed.

Lemma percentile_returns_a_value_witness :
  In (percentile [700; 100; 400] 90) [700; 100; 400]
  /\ (100 <= 90 -> forall v, In v [700; 100; 400] -> v <= percentile [700; 100; 400] 90)
  /\ (90 <= 0 -> forall v, In v [700; 100; 400] -> percentile [700; 100; 400] 90 <= v).
Proof.
  apply (percentile_returns_a_value [700; 100; 400] 90). discriminate.
Defined.

(** ** parser.ts: what parsePlaywrightReport returns *)

Lemma total_of_app (l1 l2 : list Z) :
  total_of (l1 ++ l2) = total_of l1 + total_of l2.
Proof. unfold total_of. induction l1 as [|x l1 IH]; simpl; lia. Qed.

Lemma fold_left_invariant {S X} (Inv : S -> Prop) (f : S -> X -> S) (l : list X) :
  (forall st x, Inv st -> Inv (f st x)) ->
  forall st, Inv st -> Inv (fold_left f l st).
Proof.
  intro Hstep. induction l as [|x l IH]; intros st H; simpl; [exact H|].
  apply IH. now apply Hstep.
Qed.

(** An invariant of the walk is kept by [parsePlaywrightReport] as soon as
    it holds at the start and the three state updates keep it. *)
Lemma parse_state_invariant (Inv : ParseState -> Prop) :
  Inv initialParseState ->
  (forall st x, Inv st ->
     Inv {| st_tests := st_tests st; st_suites := add_if_truthy x (st_suites st);
            st_browsers := st_browsers st;
            st_totalDuration := st_totalDuration st |}) ->
  (forall suite item st test, Inv st -> Inv (processTest suite item st test)) ->
  forall suites, Inv (fold_left processSuite suites initialParseState).
Proof.
  intros H0 Hadd Htest suites.
  apply fold_left_invariant; [|exact H0].
  intros st suite Hst. unfold processSuite.
  apply fold_left_invariant.
  - intros st' item Hst'. unfold processItem.
    apply fold_left_invariant; [intros; now apply Htest|].
    now apply Hadd.
  - exact (Hadd _ (su_file suite) (Hadd _ (su_title suite) Hst)).
Qed.

Lemma set_add_In (s x : string) (l : list string) :
  In x (set_add s l) <-> x = s \/ In x l.
Proof.
  unfold set_add. destruct (existsb (String.eqb s) l) eqn:E.
  - split; [now right|]. intros [->|H]; [|exact H].
    apply existsb_exists in E. destruct E as (y & Hy & Heq).
    apply String.eqb_eq in Heq. now subst.
  - rewrite in_app_iff. simpl. intuition.
Qed.

Lemma set_add_NoDup (s : string) (l : list string) :
  NoDup l -> NoDup (set_add s l).
Proof.
  intro H. unfold set_add. destruct (existsb (String.eqb s) l) eqn:E; [exact H|].
  apply NoDup_app; [exact H|repeat constructor; intros []|].
  intros x Hx [Heq|[]]. subst x.
  assert (existsb (String.eqb s) l = true); [|congruence].
  apply existsb_exists. exists s. split; [exact Hx|apply String.eqb_refl].
Qed.

Lemma add_if_truthy_In (o : option string) (x : string) (l : list string) :
  In x (add_if_truthy o l) <-> (o = Some x /\ x <> EmptyString) \/ In x l.
Proof.
  unfold add_if_truthy. destruct o as [s|].
  - destruct (String.eqb_spec s EmptyString) as [->|Hne].
    + split; [now right|]. intros [[[= <-] H]|H]; [congruence|exact H].
    + rewrite set_add_In. split.
      * intros [->|H]; [left; now split|now right].
      * intros [[[= ->] _]|H]; [now left|now right].
  - split; [now right|]. intros [[H _]|H]; [discriminate|exact H].
Qed.

Lemma add_if_truthy_NoDup (o : option string) (l : list string) :
  NoDup l -> NoDup (add_if_truthy o l).
Proof.
  intro H. unfold add_if_truthy. destruct o as [s|]; [|exact H].
  destruct (s =? EmptyString)%string; [exact H|now apply set_add_NoDup].
Qed.

Lemma or_lit_nonempty (a : option string) (d : string) :
  d <> EmptyString -> JS.or_lit a d <> EmptyString.
Proof.
  intro Hd. unfold JS.or_lit. destruct a as [s|]; [|exact Hd].
  destruct (String.eqb_spec s EmptyString); assumption.
Qed.

Lemma truthy_not_empty (o : option string) :
  JS.truthy o = true -> o <> Some EmptyString.
Proof. intros H ->. discriminate H. Qed.

Lemma getResultError_not_empty (r : AttemptResult) :
  getResultError r <> Some EmptyString.
Proof.
  unfold getResultError.
  destruct (JS.truthy (match r_error r with Some e => message e | None => None end))
    eqn:E; [now apply truthy_not_empty|].
  destruct (r_errors r) as [[|e0 l]|]; try discriminate.
  destruct (JS.truthy (message e0)) eqn:E0; [now apply truthy_not_empty|discriminate].
Qed.

Lemma getResultErrorStack_not_empty (r : AttemptResult) :
  getResultErrorStack r <> Some EmptyString.
Proof.
  unfold getResultErrorStack.
  destruct (JS.truthy (match r_error r with Some e => stack e | None => None end))
    eqn:E; [now apply truthy_not_empty|].
  destruct (r_errors r) as [[|e0 l]|]; try discriminate.
  destruct (JS.truthy (stack e0)) eqn:E0; [now apply truthy_not_empty|discriminate].
Qed.

Lemma stdoutSteps_nonempty_lines (stdout : list (option string)) :
  Forall (fun line => line <> EmptyString) (stdoutSteps stdout).
Proof.
  unfold stdoutSteps. apply Forall_forall. intros x Hx.
  apply filter_In in Hx. destruct Hx as [_ Hx].
  destruct (String.eqb_spec x EmptyString); [discriminate|assumption].
Qed.

(** What one step of the walk adds to the state. *)
Lemma processTest_cases (root : SuiteNode) (item : CollectedSpec)
      (st : ParseState) (test : TestNode) :
  processTest root item st test = st
  \/ exists r,
      FlattenedRecord r
      /\ browser r = t_projectName test
      /\ processTest root item st test
         = {| st_tests := st_tests st ++ [r];
              st_suites := st_suites st;
              st_browsers := add_if_truthy (browser r) (st_browsers st);
              st_totalDuration := st_totalDuration st + duration r |}.
Proof.
  unfold processTest.
  destruct (t_results test) as [[|a rest]|]; try (now left).
  rewrite at_index_last. right. cbv zeta.
  match goal with |- context [st_tests st ++ [?r]] => exists r end.
  split; [|split; reflexivity].
  unfold FlattenedRecord.
  cbn [title suite retries error errorStack steps].
  repeat split.
  - apply or_lit_nonempty. discriminate.
  - eexists. split; [reflexivity|]. apply or_lit_nonempty. discriminate.
  - rewrite len_cons. unfold JS.len. lia.
  - apply getResultError_not_empty.
  - apply getResultErrorStack_not_empty.
  - destruct (r_stdout (last rest a)) as [out|]; simpl; [|exact I].
    pose proof (stdoutSteps_nonempty_lines out) as H.
    destruct (stdoutSteps out); [exact I|]. split; [discriminate|exact H].
Qed.

Lemma walk_invariant (suites : list SuiteNode) :
  WalkInvariant (fold_left processSuite suites initialParseState).
Proof.
  apply parse_state_invariant.
  - unfold WalkInvariant. simpl.
    split; [constructor|]. split; [reflexivity|]. split; [constructor|].
    split; [|split; [constructor|intros []]].
    intro b. split; [intros []|intros (_ & r & [] & _)].
  - intros st x (H1 & H2 & H3 & H4 & H5 & H6).
    unfold WalkInvariant. cbn [st_tests st_suites st_browsers st_totalDuration].
    split; [exact H1|]. split; [exact H2|]. split; [exact H3|].
    split; [exact H4|]. split; [now apply add_if_truthy_NoDup|].
    rewrite add_if_truthy_In. intros [[_ H]|H]; [congruence|contradiction].
  - intros root item st test (H1 & H2 & H3 & H4 & H5 & H6).
    destruct (processTest_cases root item st test) as [->|(r & Hr & Hb & ->)];
      [unfold WalkInvariant; tauto|].
    unfold WalkInvariant. cbn [st_tests st_suites st_browsers st_totalDuration].
    split; [apply Forall_app; split; [exact H1|constructor; [exact Hr|constructor]]|].
    split; [rewrite map_app, total_of_app, H2; unfold total_of; simpl; lia|].
    split; [now apply add_if_truthy_NoDup|].
    split; [|split; assumption].
    intro b. rewrite add_if_truthy_In. split.
    + intros [[Hbr Hne]|H].
      * split; [exact Hne|]. exists r.
        split; [apply in_or_app; right; now left|exact Hbr].
      * apply H4 in H as (Hne & r' & Hin & Hbr). split; [exact Hne|].
        exists r'. split; [apply in_or_app; now left|exact Hbr].
    + intros (Hne & r' & Hin & Hbr).
      apply in_app_or in Hin as [Hin|[<-|[]]].
      * right. apply H4. split; [exact Hne|]. now exists r'.
      * left. now split.
Qed.

Lemma count_le_count {A} (f g : A -> bool) (l : list A) :
  (forall x, f x = true -> g x = true) -> JS.count f l <= JS.count g l.
Proof.
  intro H. induction l as [|x l IH]; [rewrite !count_nil; lia|].
  rewrite !count_cons. specialize (H x).
  destruct (f x), (g x); cbn [b2z]; try lia;
    try (specialize (H eq_refl); discriminate).
Qed.

(** The four status counters and the tests of any other status split the
    tests. *)
Lemma status_is_one_of_five (t : TestResult) :
  b2z (isPassed t) + b2z (isFailed t) + b2z (isSkipped t) + b2z (isTimedOut t)
  + b2z (hasOtherStatus t) = 1.
Proof.
  unfold hasOtherStatus, isPassed, isFailed, isSkipped, isTimedOut.
  destruct (String.eqb_spec (status t) "passed") as [E|_];
    [rewrite E; reflexivity|].
  destruct (String.eqb_spec (status t) "failed") as [E|_];
    [rewrite E; reflexivity|].
  destruct (String.eqb_spec (status t) "skipped") as [E|_];
    [rewrite E; reflexivity|].
  destruct (String.eqb_spec (status t) "timedOut") as [E|_]; reflexivity.
Qed.

Lemma status_counts_split (ts : list TestResult) :
  JS.count isPassed ts + JS.count isFailed ts + JS.count isSkipped ts
  + JS.count isTimedOut ts + JS.count hasOtherStatus ts = JS.len ts.
Proof.
  induction ts as [|t ts IH]; [reflexivity|].
  rewrite !count_cons, len_cons. pose proof (status_is_one_of_five t). lia.
Qed.

Lemma flaky_le_passed (ts : list TestResult) :
  JS.count isFlaky ts <= JS.count isPassed ts.
Proof.
  apply count_le_count. intros t H. unfold isFlaky in H.
  now apply andb_prop in H.
Qed.

Lemma parsed_state (report : PlaywrightReport) :
  exists st,
    WalkInvariant st
    /\ parsedTests report = st_tests st
    /\ totalDuration (parsePlaywrightReport report) = st_totalDuration st
    /\ browsers (parsePlaywrightReport report) = Some (st_browsers st)
    /\ suites (parsePlaywrightReport report) = Some (st_suites st).
Proof.
  eexists. split; [apply walk_invariant|]. repeat split.
Qed.

(** X6.  The counters [parsePlaywrightReport] returns agree with its
    records: [totalTests] is their number, [totalDuration] the sum of their
    durations, [passed], [failed] and [skipped] count disjoint records and
    fall short of [totalTests] by the records with any other status, and
    [flaky] never exceeds [passed]. *)
Theorem parsed_counters_agree_with_records (report : PlaywrightReport) :
  let data := parsePlaywrightReport report in
  let ts := parsedTests report in
  tests data = Some ts
  /\ totalTests data = JS.len ts
  /\ totalDuration data = total_of (map duration ts)
  /\ passed data + failed data + skipped data
     + JS.count isTimedOut ts + JS.count hasOtherStatus ts = totalTests data
  /\ 0 <= flaky data <= passed data.
Proof.
  destruct (parsed_state report) as (st & (_ & Hd & _) & Ht & Hdur & _).
  cbv zeta. split; [reflexivity|]. split; [reflexivity|].
  split; [now rewrite Hdur, Ht|].
  split.
  - apply (status_counts_split (parsedTests report)).
  - split; [apply count_bounds|apply (flaky_le_passed (parsedTests report))].
Qed.

(** X7.  Every record [parsePlaywrightReport] returns has a non-empty title
    and a non-empty suite name (the fallbacks ['Unnamed test'] and
    ['Unknown Suite'] see to it), a retry count of at least 0, an error
    message and stack that are absent rather than empty, and steps that are
    absent rather than an empty list, none of them an empty line. *)
Theorem parsed_records_are_well_formed (report : PlaywrightReport) :
  Forall FlattenedRecord (parsedTests report).
Proof.
  destruct (parsed_state report) as (st & (H & _) & Ht & _).
  now rewrite Ht.
Qed.

(** X8.  The [browsers] of a parsed report are the distinct non-empty
    project names of its records, each listed once; its [suites] hold no
    name twice and never the empty string. *)
Theorem parsed_name_sets_are_sets (report : PlaywrightReport) :
  exists bs ss,
    browsers (parsePlaywrightReport report) = Some bs
    /\ suites (parsePlaywrightReport report) = Some ss
    /\ NoDup bs
    /\ (forall b, In b bs
                  <-> b <> EmptyString
                      /\ exists r, In r (parsedTests report) /\ browser r = Some b)
    /\ NoDup ss
    /\ ~ In EmptyString ss.
Proof.
  destruct (parsed_state report)
    as (st & (_ & _ & H3 & H4 & H5 & H6) & Ht & _ & Hb & Hs).
  exists (st_browsers st), (st_suites st). rewrite Ht.
  repeat split; try assumption; now apply H4.
Qed.

(** ** Rollups by browser, suite and file *)

Lemma upsert_keys {V} (key : string) (fresh : V) (f : V -> V)
      (m : list (string * V)) (x : string) :
  In x (map fst (upsert key fresh f m)) <-> x = key \/ In x (map fst m).
Proof.
  induction m as [|[k v] m IH]; simpl.
  - intuition.
  - destruct (String.eqb_spec k key) as [->|Hne]; simpl; intuition.
Qed.

Lemma upsert_NoDup {V} (key : string) (fresh : V) (f : V -> V)
      (m : list (string * V)) :
  NoDup (map fst m) -> NoDup (map fst (upsert key fresh f m)).
Proof.
  induction m as [|[k v] m IH]; simpl; intro H.
  - repeat constructor. intros [].
  - inversion H as [|? ? Hin Hnd]; subst.
    destruct (String.eqb_spec k key) as [->|Hne]; simpl.
    + now constructor.
    + constructor; [|now apply IH].
      rewrite upsert_keys. intros [->|Hin']; [congruence|contradiction].
Qed.

Lemma set_add_cons_other (k k0 : string) (l : list string) :
  k <> k0 -> set_add k (k0 :: l) = k0 :: set_add k l.
Proof.
  intro Hne. unfold set_add. simpl.
  destruct (String.eqb_spec k k0) as [E|_]; [contradiction|]. simpl.
  now destruct (existsb (String.eqb k) l).
Qed.

Lemma set_add_cons_same (k : string) (l : list string) :
  set_add k (k :: l) = k :: l.
Proof. unfold set_add. simpl. now rewrite String.eqb_refl. Qed.

Lemma firstSeen_snoc (keys : list string) (k : string) :
  firstSeen (keys ++ [k]) = set_add k (firstSeen keys).
Proof. unfold firstSeen. now rewrite fold_left_app. Qed.

Lemma firstSeen_spec (keys : list string) :
  NoDup (firstSeen keys) /\ forall k, In k (firstSeen keys) <-> In k keys.
Proof.
  induction keys as [|k keys IH] using rev_ind.
  - split; [constructor|reflexivity].
  - destruct IH as [Hnd Hin]. rewrite firstSeen_snoc. split.
    + now apply set_add_NoDup.
    + intro x. rewrite set_add_In, in_app_iff, Hin. simpl. intuition.
Qed.

(** A map filled by [upsert], one test at a time, holds one entry per key in
    the order of first occurrence, each the summary of the tests of its
    key. *)
Section GroupedFold.
Variable V : Type.
Variable key : TestResult -> string.
Variable fresh : string -> V.
Variable step : TestResult -> V -> V.
Variable summary : string -> list TestResult -> V.
Hypothesis summary_nil : forall k, summary k [] = fresh k.
Hypothesis summary_mine :
  forall k ts t, key t = k -> summary k (ts ++ [t]) = step t (summary k ts).
Hypothesis summary_other :
  forall k ts t, key t <> k -> summary k (ts ++ [t]) = summary k ts.

Lemma summary_unseen (k : string) (ts : list TestResult) :
  ~ In k (map key ts) -> summary k ts = fresh k.
Proof.
  induction ts as [|t ts IH] using rev_ind; intro H; [apply summary_nil|].
  rewrite map_app, in_app_iff in H. simpl in H.
  rewrite summary_other; [apply IH; tauto|]. intro E. apply H. right. now left.
Qed.

Lemma upsert_summaries (ts : list TestResult) (t : TestResult) (keys : list string) :
  NoDup keys ->
  (~ In (key t) keys -> ~ In (key t) (map key ts)) ->
  upsert (key t) (fresh (key t)) (step t) (map (fun k => (k, summary k ts)) keys)
  = map (fun k => (k, summary k (ts ++ [t]))) (set_add (key t) keys).
Proof.
  induction keys as [|k0 keys IH]; intros Hnd Hunseen.
  - cbn [map upsert]. unfold set_add. cbn [existsb app map].
    rewrite (summary_mine (key t) ts t eq_refl).
    now rewrite (summary_unseen (key t) ts (Hunseen (fun H => H))).
  - inversion Hnd as [|? ? Hnot Hnd']; subst. cbn [map upsert].
    destruct (String.eqb_spec k0 (key t)) as [E|Hne].
    + subst k0. rewrite set_add_cons_same. cbn [map].
      rewrite (summary_mine (key t) ts t eq_refl). f_equal.
      apply map_ext_in. intros k Hk. f_equal. symmetry. apply summary_other.
      intros E. subst k. contradiction.
    + rewrite set_add_cons_other by congruence. cbn [map].
      rewrite (summary_other k0 ts t) by congruence. f_equal.
      apply IH; [exact Hnd'|]. intros H. apply Hunseen. intros [E|H']; [congruence|].
      now apply H.
Qed.

Lemma grouped_fold (ts : list TestResult) :
  fold_left (fun m t => upsert (key t) (fresh (key t)) (step t) m) ts []
  = map (fun k => (k, summary k ts)) (firstSeen (map key ts)).
Proof.
  induction ts as [|t ts IH] using rev_ind; [reflexivity|].
  rewrite fold_left_app. cbn [fold_left]. rewrite IH.
  rewrite map_app. cbn [map]. rewrite firstSeen_snoc.
  destruct (firstSeen_spec (map key ts)) as [Hnd Hin].
  apply upsert_summaries; [exact Hnd|]. now rewrite Hin.
Qed.
End GroupedFold.

Lemma len_app {A} (l1 l2 : list A) : JS.len (l1 ++ l2) = JS.len l1 + JS.len l2.
Proof. unfold JS.len. rewrite length_app. lia. Qed.

Lemma total_of_perm (l1 l2 : list Z) :
  Permutation l1 l2 -> total_of l1 = total_of l2.
Proof.
  unfold total_of. induction 1; simpl; lia.
Qed.

Lemma total_of_map_add {A} (f g : A -> Z) (l : list A) :
  total_of (map (fun x => f x + g x) l) = total_of (map f l) + total_of (map g l).
Proof. unfold total_of. induction l as [|x l IH]; simpl; lia. Qed.

Lemma total_of_indicator (x : string) (keys : list string) :
  NoDup keys ->
  total_of (map (fun k => b2z (x =? k)%string) keys)
  = b2z (existsb (String.eqb x) keys).
Proof.
  unfold total_of. induction 1 as [|k keys Hnot Hnd IH]; simpl; [reflexivity|].
  rewrite IH. destruct (String.eqb_spec x k) as [->|_]; simpl; [|reflexivity].
  destruct (existsb (String.eqb k) keys) eqn:E; [|reflexivity].
  apply existsb_exists in E. destruct E as (y & Hy & Heq).
  apply String.eqb_eq in Heq. subst y. contradiction.
Qed.

(** The tests of a list are split by any duplicate-free list of keys that
    covers the keys of the tests. *)
Lemma counts_by_key_sum (key : TestResult -> string) (keys : list string)
      (ts : list TestResult) :
  NoDup keys -> (forall t, In t ts -> In (key t) keys) ->
  total_of (map (fun k => JS.count (fun t => (key t =? k)%string) ts) keys)
  = JS.len ts.
Proof.
  intros Hnd. induction ts as [|t ts IH]; intro Hcov.
  - clear. unfold total_of. induction keys; simpl; [reflexivity|exact IHkeys].
  - rewrite (map_ext (fun k => JS.count (fun t0 => (key t0 =? k)%string) (t :: ts))
                     (fun k => b2z (key t =? k)%string
                               + JS.count (fun t0 => (key t0 =? k)%string) ts))
      by (intro k; rewrite count_cons; reflexivity).
    rewrite total_of_map_add, IH, len_cons, total_of_indicator by
      (try assumption; intros; apply Hcov; now right).
    assert (E : existsb (String.eqb (key t)) keys = true).
    { apply existsb_exists. exists (key t).
      split; [apply Hcov; now left|apply String.eqb_refl]. }
    rewrite E. reflexivity.
Qed.

Lemma tallyOf_mine (key : TestResult -> string) (k : string)
      (ts : list TestResult) (t : TestResult) :
  key t = k -> tallyOf key k (ts ++ [t]) = tally t (tallyOf key k ts).
Proof.
  intro E. unfold tallyOf, tally. cbv zeta.
  cbn [g_name g_total g_passed g_failed g_skipped g_timedOut g_flaky g_passRate
       g_duration].
  rewrite filter_app. cbn [filter]. rewrite E, String.eqb_refl.
  rewrite len_app, !count_app, map_app, total_of_app.
  f_equal; try reflexivity; rewrite ?count_cons, ?count_nil; try lia.
  unfold total_of. simpl. lia.
Qed.

Lemma tallyOf_other (key : TestResult -> string) (k : string)
      (ts : list TestResult) (t : TestResult) :
  key t <> k -> tallyOf key k (ts ++ [t]) = tallyOf key k ts.
Proof.
  intro E. unfold tallyOf. rewrite filter_app. cbn [filter].
  destruct (String.eqb_spec (key t) k); [contradiction|]. now rewrite app_nil_r.
Qed.

(** The rollup before its sort: one group per key, in the order in which
    the keys first occur. *)
Lemma derivedStats_spec (key : TestResult -> string) (ts : list TestResult) :
  derivedStats key ts
  = map (fun k => withPassRate (tallyOf key k ts)) (firstSeen (map key ts)).
Proof.
  unfold derivedStats, groupBy.
  rewrite (grouped_fold GroupStats key emptyGroup tally (tallyOf key)).
  - rewrite !map_map. reflexivity.
  - reflexivity.
  - intros. now apply tallyOf_mine.
  - intros. now apply tallyOf_other.
Qed.

Lemma byTotalDesc_anti (x y : GroupStats) :
  byTotalDesc x y > 0 -> byTotalDesc y x <= 0.
Proof. unfold byTotalDesc. lia. Qed.

Lemma Sorted_impl {A} (R S : A -> A -> Prop) (l : list A) :
  (forall a b, R a b -> S a b) -> Sorted R l -> Sorted S l.
Proof.
  intros H Hs. induction Hs as [|x l Hl IH Hhd]; constructor; [exact IH|].
  destruct Hhd; constructor. now apply H.
Qed.

Lemma percentOf_rounded (part total : Z) :
  0 < total -> RoundedPercent part total (percentOf part total).
Proof.
  intro Hpos. unfold RoundedPercent, percentOf.
  destruct (Z.gtb_spec total 0); [|lia].
  rewrite Math_round_percent by exact Hpos.
  pose proof (Z.mul_div_le (200 * part + total) (2 * total)).
  pose proof (Z.mul_succ_div_gt (200 * part + total) (2 * total)).
  lia.
Qed.

Lemma sorted_rollup (key : TestResult -> string) (ts : list TestResult) :
  Rollup key ts (JS.sort byTotalDesc (derivedStats key ts)).
Proof.
  destruct (firstSeen_spec (map key ts)) as [Hnd Hin].
  pose proof (sort_perm _ byTotalDesc (derivedStats key ts)) as Hperm.
  assert (Hnames : map g_name (derivedStats key ts) = firstSeen (map key ts)).
  { rewrite derivedStats_spec, map_map. cbn [withPassRate g_name tallyOf].
    apply map_id. }
  unfold Rollup. split; [|split; [|split; [|split]]].
  - apply (Permutation_NoDup (l := map g_name (derivedStats key ts))).
    + apply Permutation_map. now symmetry.
    + now rewrite Hnames.
  - apply sort_Forall. rewrite derivedStats_spec.
    apply Forall_map, Forall_forall. intros k Hk. cbv zeta.
    cbn [withPassRate tallyOf g_total g_passRate g_passed g_failed g_skipped
         g_timedOut g_flaky g_duration g_name].
    set (mine := filter (fun t => (key t =? k)%string) ts).
    assert (Hpos : 0 < JS.len mine).
    { apply Hin, in_map_iff in Hk. destruct Hk as (t & Et & Ht).
      assert (In t mine) by (apply filter_In; split; [exact Ht|];
                             rewrite Et; apply String.eqb_refl).
      destruct mine; [contradiction|]. rewrite len_cons. unfold JS.len. lia. }
    do 7 (split; [reflexivity|]).
    split; [exact Hpos|]. split.
    + apply (percentOf_bounds (JS.count isPassed mine) (JS.len mine)).
      apply count_bounds.
    + apply (percentOf_rounded (JS.count isPassed mine) (JS.len mine) Hpos).
  - intros t Ht. apply (Permutation_in _ (Permutation_map g_name (Permutation_sym Hperm))).
    rewrite Hnames. apply Hin. now apply in_map.
  - apply (Sorted_impl (fun a b => byTotalDesc a b <= 0)).
    + unfold byTotalDesc. intros. lia.
    + apply sort_adjacent. exact byTotalDesc_anti.
  - rewrite (total_of_perm _ _ (Permutation_map g_total Hperm)).
    rewrite derivedStats_spec, map_map.
    cbn [withPassRate tallyOf g_total].
    apply (counts_by_key_sum key); [exact Hnd|].
    intros t Ht. apply Hin. now apply in_map.
Qed.

(** X9.  The [browserStats] and [suiteStats] of a parsed report are rollups
    of its records by browser (['unknown'] when absent) and by suite: one
    group per name that occurs, each holding the counts and the duration of
    exactly the records of that name; its pass rate lies between 0 and 100
    and within half a point of the share of its passed records.  The groups
    are ordered by falling total and their totals add up to the number of
    records. *)
Theorem parsed_rollups_tally_the_records (report : PlaywrightReport) :
  exists byBrowser bySuite,
    browserStats (parsePlaywrightReport report) = Some byBrowser
    /\ suiteStats (parsePlaywrightReport report) = Some bySuite
    /\ Rollup browserKey (parsedTests report) byBrowser
    /\ Rollup suiteKey (parsedTests report) bySuite.
Proof.
  eexists. eexists. split; [reflexivity|]. split; [reflexivity|].
  split; apply sorted_rollup.
Qed.

Example parsed_rollup_of_two_browsers :
  let test name project outcome ms :=
    mkTestNode (Some name) project None None None
               (Some [mkAttemptResult outcome (Some ms) None None None]) in
  let report :=
    mkPlaywrightReport
      (Some [mkSuiteNode (Some "checkout") None
               (Some [mkSpecEntry "pays" (Some "pay.spec.ts")
                        (Some [test "a" (Some "firefox") "passed" 100;
                               test "b" (Some "chromium") "failed" 300;
                               test "c" (Some "chromium") "passed" 200;
                               test "d" None "passed" 50])])
               None]) in
  option_map (map (fun g => (g_name g, g_total g, g_passed g, g_passRate g,
                             g_duration g)))
             (browserStats (parsePlaywrightReport report))
  = Some [("chromium", 2, 1, 50, 500); ("firefox", 1, 1, 100, 100);
          ("unknown", 1, 1, 100, 50)].
Proof. vm_compute. reflexivity. Qed.

(** ** parser.ts: collectSpecs *)

Lemma truthy_or_else (a b : option string) :
  JS.truthy (JS.or_else a b) = JS.truthy a || JS.truthy b.
Proof. unfold JS.or_else. destruct (JS.truthy a) eqn:E; [exact E|reflexivity]. Qed.

Lemma pushSpecs_acc (title : option string) (specs : list SpecEntry) :
  forall acc, pushSpecs title specs acc = acc ++ pushSpecs title specs [].
Proof.
  unfold pushSpecs. induction specs as [|sp specs IH]; intro acc; simpl.
  - now rewrite app_nil_r.
  - rewrite IH. rewrite (IH (match sp_tests sp with Some _ => _ | None => [] end)).
    destruct (sp_tests sp); [now rewrite <- app_assoc|reflexivity].
Qed.

Lemma pushSpecs_items (title : option string) (specs : list SpecEntry) :
  Forall (fun item => sp_tests (spec item) <> None /\ suiteTitle item = title
                      /\ In (spec item) specs)
         (pushSpecs title specs []).
Proof.
  induction specs as [|sp specs IH]; [constructor|].
  unfold pushSpecs in *. cbn [fold_left].
  fold (pushSpecs title specs (match sp_tests sp with
                                | Some _ => [] ++ [mkCollectedSpec sp title]
                                | None => [] end)).
  rewrite pushSpecs_acc. apply Forall_app. split.
  - destruct (sp_tests sp) eqn:E; [|constructor].
    simpl. constructor; [|constructor]. simpl.
    split; [congruence|]. split; [reflexivity|now left].
  - eapply Forall_impl; [|exact IH]. simpl. intros item (H1 & H2 & H3).
    repeat split; try assumption. now right.
Qed.

Lemma collectSpecs_unfold (t f : option string) (specs : option (list SpecEntry))
      (childSuites : option (list SuiteNode)) (acc : list CollectedSpec)
      (parent : option string) :
  collectSpecs (mkSuiteNode t f specs childSuites) acc parent
  = fold_left (fun acc child => collectSpecs child acc (JS.or_else t parent))
      (match childSuites with Some l => l | None => [] end)
      (pushSpecs (JS.or_else t parent)
                 (match specs with Some l => l | None => [] end) acc).
Proof.
  cbn [collectSpecs]. unfold pushSpecs.
  destruct specs, childSuites; reflexivity.
Qed.

Lemma children_acc (title : option string) (children : list SuiteNode) :
  Forall (fun c => forall acc p, collectSpecs c acc p = acc ++ collectSpecs c [] p)
         children ->
  forall acc,
    fold_left (fun acc c => collectSpecs c acc title) children acc
    = acc ++ fold_left (fun acc c => collectSpecs c acc title) children [].
Proof.
  induction 1 as [|c cs Hc Hcs IH]; intro acc; simpl.
  - now rewrite app_nil_r.
  - rewrite IH, (IH (collectSpecs c [] title)), (Hc acc title).
    now rewrite app_assoc.
Qed.

Lemma collectSpecs_acc (suite : SuiteNode) :
  forall acc parent,
    collectSpecs suite acc parent = acc ++ collectSpecs suite [] parent.
Proof.
  induction suite as [t f specs childSuites IH] using SuiteNode_nested_ind.
  intros acc parent. rewrite !collectSpecs_unfold.
  rewrite (children_acc _ _ IH), (children_acc _ _ IH (pushSpecs _ _ [])).
  rewrite pushSpecs_acc. now rewrite app_assoc.
Qed.

Lemma collectSpecs_items (suite : SuiteNode) :
  forall parent,
    Forall (fun item =>
              sp_tests (spec item) <> None
              /\ (JS.truthy (JS.or_else (su_title suite) parent) = true ->
                  JS.truthy (suiteTitle item) = true))
           (collectSpecs suite [] parent).
Proof.
  induction suite as [t f specs childSuites IH] using SuiteNode_nested_ind.
  intro parent. rewrite collectSpecs_unfold. cbn [su_title].
  set (title := JS.or_else t parent).
  set (children := match childSuites with Some l => l | None => [] end) in *.
  assert (Hacc : Forall (fun c => forall acc p,
                           collectSpecs c acc p = acc ++ collectSpecs c [] p)
                        children)
    by (apply Forall_forall; intros c _; apply collectSpecs_acc).
  rewrite (children_acc _ _ Hacc). apply Forall_app. split.
  - eapply Forall_impl; [|apply pushSpecs_items]. simpl.
    intros item (H1 & H2 & _). split; [exact H1|]. now rewrite H2.
  - clear Hacc. induction IH as [|c cs Hc Hcs IHcs]; [constructor|].
    cbn [fold_left].
    assert (Hacc : Forall (fun c => forall acc p,
                             collectSpecs c acc p = acc ++ collectSpecs c [] p) cs)
      by (apply Forall_forall; intros c' _; apply collectSpecs_acc).
    rewrite (children_acc _ _ Hacc). apply Forall_app. split; [|exact IHcs].
    eapply Forall_impl; [|apply (Hc title)]. simpl.
    intros item (H1 & H2). split; [exact H1|]. intro Ht. apply H2.
    rewrite truthy_or_else, Ht. apply orb_true_r.
Qed.

(** X10.  [collectSpecs] only appends to its accumulator, what it appends
    does not depend on what the accumulator holds, every spec it collects
    has a [tests] array, and once the suite or an ancestor has a non-empty
    title every collected spec carries a non-empty suite title. *)
Theorem collectSpecs_appends_titled_specs (suite : SuiteNode)
        (acc : list CollectedSpec) (parent : option string) :
  collectSpecs suite acc parent = acc ++ collectSpecs suite [] parent
  /\ Forall (fun item => sp_tests (spec item) <> None)
            (collectSpecs suite [] parent)
  /\ (JS.truthy (su_title suite) = true \/ JS.truthy parent = true ->
      Forall (fun item => JS.truthy (suiteTitle item) = true)
             (collectSpecs suite [] parent)).
Proof.
  split; [apply collectSpecs_acc|]. split.
  - eapply Forall_impl; [|apply collectSpecs_items]. simpl. now intros item [H _].
  - intro Ht. eapply Forall_impl; [|apply collectSpecs_items]. simpl.
    intros item [_ H]. apply H. rewrite truthy_or_else.
    destruct Ht as [-> | ->]; [reflexivity|apply orb_true_r].
Qed.

Lemma collectSpecs_appends_titled_specs_witness :
  let inner :=
    mkSuiteNode None None
      (Some [mkSpecEntry "pays" None (Some []); mkSpecEntry "draft" None None])
      None in
  let outer := mkSuiteNode (Some "checkout") None None (Some [inner]) in
  map (fun item => (sp_title (spec item), suiteTitle item))
      (collectSpecs outer [] None)
  = [("pays", Some "checkout")]
  /\ Forall (fun item => JS.truthy (suiteTitle item) = true)
            (collectSpecs outer [] None).
Proof.
  split; [reflexivity|].
  apply (collectSpecs_appends_titled_specs
           (mkSuiteNode (Some "checkout") None None
              (Some [mkSuiteNode None None
                       (Some [mkSpecEntry "pays" None (Some []);
                              mkSpecEntry "draft" None None])
                       None]))
           [] None).
  left. reflexivity.
Defined.

(** ** vueReportGenerator.ts: the summary and the retry figures *)

(** A built payload, written out. *)
Lemma payload_shape (D : string -> option Z) (data : option ReportData)
      (options : VueReportOptions) (p : VueReportPayload) :
  generateVueReport_payload D data options = Ok p ->
  exists history,
    historyOf D options = Ok history
    /\ p = {| pl_title := JS.or_lit (o_title options) "Playwright Fire Reports";
              pl_theme := JS.or_lit (o_theme options) "professional";
              pl_summary := summaryOf (safeData data);
              pl_highlights :=
                {| hl_browsers := JS.len (browserStatsOf (safeData data));
                   hl_suites := JS.len (suiteStatsOf (safeData data));
                   hl_retriedTests := retriedTestsOf (safeData data);
                   hl_historyPoints := JS.len history |};
              pl_insights := insightsOf (safeData data) (comparisonOf history);
              pl_fileInsights := JS.slice_to 10 (fileInsightsOf (safeData data));
              pl_browserStats := browserStatsOf (safeData data);
              pl_suiteStats := JS.slice_to 20 (suiteStatsOf (safeData data));
              pl_history := history;
              pl_comparison := comparisonOf history;
              pl_hasFailures := failed (safeData data) >? 0 |}.
Proof.
  unfold generateVueReport_payload.
  destruct (historyOf D options) as [history|e]; simpl; [|discriminate].
  intros [= <-]. exists history. split; reflexivity.
Qed.

Lemma fold_sum_from {A} (f : A -> Z) (l : list A) :
  forall a, fold_left (fun acc x => acc + f x) l a = a + total_of (map f l).
Proof.
  unfold total_of. induction l as [|x l IH]; intro a; simpl; [lia|].
  rewrite IH. lia.
Qed.

Lemma total_of_nonneg (l : list Z) : Forall (fun x => 0 <= x) l -> 0 <= total_of l.
Proof. unfold total_of. induction 1; simpl; lia. Qed.

(** X11.  In every payload the summary counters split the tests: passed,
    failed, skipped and timed out, together with the tests of any other
    status, add up to the total; [nonPassing] is failed plus timed out,
    [flaky] never exceeds [passed], the duration shown is never negative
    (a negative test duration counts as 0), and [hasFailures] says that
    [failed] is positive, timed-out tests alone do not set it. *)
Theorem summary_counters_split_the_tests (D : string -> option Z)
        (data : option ReportData) (options : VueReportOptions)
        (p : VueReportPayload)
        (Hbuilt : generateVueReport_payload D data options = Ok p) :
  let s := pl_summary p in
  s_passed s + s_failed s + s_skipped s + s_timedOut s
  + JS.count hasOtherStatus (inputTestsOf data) = s_total s
  /\ s_nonPassing s = s_failed s + s_timedOut s
  /\ 0 <= s_flaky s <= s_passed s
  /\ 0 <= s_durationMs s
  /\ (pl_hasFailures p = true <-> 0 < s_failed s).
Proof.
  destruct (payload_shape _ _ _ _ Hbuilt) as (history & _ & ->).
  cbn [pl_summary pl_hasFailures summaryOf s_passed s_failed s_skipped s_timedOut
       s_total s_nonPassing s_flaky s_durationMs].
  rewrite timedOutOf_safeData.
  cbn [safeData passed failed skipped totalTests flaky totalDuration].
  split; [apply status_counts_split|]. split; [reflexivity|].
  split; [split; [apply count_bounds|apply (flaky_le_passed (inputTestsOf data))]|].
  split.
  - rewrite fold_sum_from. apply Z.add_nonneg_nonneg; [lia|].
    apply total_of_nonneg, Forall_map, Forall_forall. intros t _. lia.
  - destruct (Z.gtb_spec (JS.count isFailed (inputTestsOf data)) 0);
      split; intro; try lia; try reflexivity; discriminate.
Qed.

Lemma summary_counters_split_the_tests_witness :
  exists p,
    generateVueReport_payload sampleClock
      (sampleData [sampleTest "a" "timedOut" (-40) 0 "a.spec.ts";
                   sampleTest "b" "interrupted" 300 0 "b.spec.ts"])
      (sampleOptions None) = Ok p
    /\ s_total (pl_summary p) = 2
    /\ s_nonPassing (pl_summary p) = 1
    /\ s_durationMs (pl_summary p) = 300
    /\ pl_hasFailures p = false
    /\ s_passed (pl_summary p) + s_failed (pl_summary p)
       + s_skipped (pl_summary p) + s_timedOut (pl_summary p) + 1
       = s_total (pl_summary p).
Proof.
  eexists. split; [reflexivity|].
  split; [reflexivity|]. split; [reflexivity|]. split; [reflexivity|].
  split; [reflexivity|].
  exact (proj1 (summary_counters_split_the_tests sampleClock
                  (sampleData [sampleTest "a" "timedOut" (-40) 0 "a.spec.ts";
                               sampleTest "b" "interrupted" 300 0 "b.spec.ts"])
                  (sampleOptions None) _ eq_refl)).
Defined.

Lemma retries_total_ge_count (ts : list TestResult) :
  JS.count wasRetried ts <= total_of (map (fun t => Z.max 0 (retries t)) ts).
Proof.
  induction ts as [|t ts IH]; [rewrite count_nil; unfold total_of; simpl; lia|].
  rewrite count_cons. unfold total_of in *. simpl. unfold wasRetried at 1.
  destruct (Z.gtb_spec (retries t) 0); cbn [b2z]; lia.
Qed.

(** X12.  In every payload [retryHealth] and [retryRate] add up to 100, the
    number of retried tests lies between the number of flaky tests and the
    retry burden, and the retry burden only counts retries above 0. *)
Theorem retry_figures_are_consistent (D : string -> option Z)
        (data : option ReportData) (options : VueReportOptions)
        (p : VueReportPayload)
        (Hbuilt : generateVueReport_payload D data options = Ok p) :
  retryHealth (pl_insights p) + retryRate (pl_insights p) = 100
  /\ s_flaky (pl_summary p) <= hl_retriedTests (pl_highlights p)
     <= retryBurden (pl_insights p)
  /\ retryBurden (pl_insights p)
     = total_of (map (fun t => Z.max 0 (retries t)) (inputTestsOf data)).
Proof.
  destruct (payload_shape _ _ _ _ Hbuilt) as (history & _ & ->).
  cbn [pl_insights pl_summary pl_highlights insightsOf summaryOf retryHealth
       retryRate s_flaky hl_retriedTests retryBurden].
  pose proof (retryRateOf_bounds data) as Hr.
  assert (Hb : totalRetriesOf (safeData data)
               = total_of (map (fun t => Z.max 0 (retries t)) (inputTestsOf data))).
  { unfold totalRetriesOf. rewrite testsOf_safeData, fold_sum_from. lia. }
  split; [unfold retryHealthOf, clamp, clamp_range; lia|].
  split; [|exact Hb].
  rewrite Hb. unfold retriedTestsOf. rewrite testsOf_safeData.
  cbn [safeData flaky]. split.
  - apply count_le_count. intros t H. now apply andb_prop in H.
  - apply retries_total_ge_count.
Qed.

Lemma retry_figures_are_consistent_witness :
  exists p,
    generateVueReport_payload sampleClock
      (sampleData [sampleTest "a" "passed" 10 2 "a.spec.ts";
                   sampleTest "b" "failed" 10 3 "a.spec.ts";
                   sampleTest "c" "passed" 10 0 "a.spec.ts"])
      (sampleOptions None) = Ok p
    /\ (retryHealth (pl_insights p), retryRate (pl_insights p),
        s_flaky (pl_summary p), hl_retriedTests (pl_highlights p),
        retryBurden (pl_insights p)) = (33, 67, 1, 2, 5)
    /\ retryHealth (pl_insights p) + retryRate (pl_insights p) = 100.
Proof.
  eexists. split; [reflexivity|]. split; [reflexivity|].
  exact (proj1 (retry_figures_are_consistent sampleClock
                  (sampleData [sampleTest "a" "passed" 10 2 "a.spec.ts";
                               sampleTest "b" "failed" 10 3 "a.spec.ts";
                               sampleTest "c" "passed" 10 0 "a.spec.ts"])
                  (sampleOptions None) _ eq_refl)).
Defined.

(** X13.  The speed score is 0 exactly when the 95th percentile is at
    least 14925 ms, and 100 exactly when it is below 75 ms. *)
Theorem speed_score_thresholds (D : string -> option Z)
        (data : option ReportData) (options : VueReportOptions)
        (p : VueReportPayload)
        (Hbuilt : generateVueReport_payload D data options = Ok p) :
  p95 (pl_insights p) = percentile (map duration (inputTestsOf data)) 95
  /\ (speedScore (pl_insights p) = 0 <-> 14925 <= p95 (pl_insights p))
  /\ (speedScore (pl_insights p) = 100 <-> p95 (pl_insights p) < 75).
Proof.
  destruct (payload_shape _ _ _ _ Hbuilt) as (history & _ & ->).
  cbn [pl_insights insightsOf p95 speedScore].
  split; [reflexivity|].
  unfold speedScoreOf. rewrite Math_round_percent by lia.
  generalize (p95Of (safeData data)). intro x.
  unfold clamp, clamp_range.
  assert (H1 : 14925 <= x -> 100 <= (200 * x + 15000) / (2 * 15000))
    by (intro; apply Z.div_le_lower_bound; lia).
  assert (H2 : x < 14925 -> (200 * x + 15000) / (2 * 15000) < 100)
    by (intro; apply Z.div_lt_upper_bound; lia).
  assert (H3 : x < 75 -> (200 * x + 15000) / (2 * 15000) < 1)
    by (intro; apply Z.div_lt_upper_bound; lia).
  assert (H4 : 75 <= x -> 1 <= (200 * x + 15000) / (2 * 15000))
    by (intro; apply Z.div_le_lower_bound; lia).
  split; split; intro; lia.
Qed.

Lemma speed_score_thresholds_witness :
  exists p,
    generateVueReport_payload sampleClock
      (sampleData [sampleTest "a" "passed" 14925 0 "a.spec.ts"])
      (sampleOptions None) = Ok p
    /\ p95 (pl_insights p) = 14925
    /\ speedScore (pl_insights p) = 0.
Proof.
  eexists. split; [reflexivity|]. split; [reflexivity|].
  apply (speed_score_thresholds sampleClock
           (sampleData [sampleTest "a" "passed" 14925 0 "a.spec.ts"])
           (sampleOptions None) _ eq_refl).
  vm_compute. discriminate.
Defined.

(** ** The trend window *)

Lemma byGeneratedAt_anti (D : string -> option Z) (x y : HistoryPoint) :
  byGeneratedAt D x y > 0 -> byGeneratedAt D y x <= 0.
Proof.
  unfold byGeneratedAt.
  destruct (timeOf D x), (timeOf D y); cbn [nsub]; lia.
Qed.

Lemma Sorted_skipn {A} (R : A -> A -> Prop) (n : nat) (l : list A) :
  Sorted R l -> Sorted R (skipn n l).
Proof.
  intro H. revert n. induction H as [|x l Hl IH Hhd]; intros [|n]; simpl;
    try constructor; auto.
Qed.

Lemma at_index_in_range {A} (l : list A) (i : Z) :
  0 <= i < JS.len l -> exists x, JS.at_index l i = Some x.
Proof.
  intros [H0 H1]. unfold JS.at_index, JS.len in *.
  destruct (Z.ltb_spec i 0); [lia|].
  destruct (nth_error l (Z.to_nat i)) eqn:E; [now eexists|].
  apply nth_error_None in E. lia.
Qed.

Lemma comparisonOf_baseline (history : list HistoryPoint) :
  hasBaseline (comparisonOf history) = true <-> (2 <= List.length history)%nat.
Proof.
  split.
  - intro H. destruct (Nat.lt_ge_cases (List.length history) 2) as [Hlt|]; [|assumption].
    destruct (comparisonOf_no_baseline history Hlt) as [E _]. congruence.
  - intro H. unfold comparisonOf, latestRunOf, previousRunOf.
    assert (Hlen : 2 <= JS.len history) by (unfold JS.len; lia).
    destruct (Z.gtb_spec (JS.len history) 0); [|lia].
    destruct (Z.gtb_spec (JS.len history) 1); [|lia].
    destruct (at_index_in_range history (JS.len history - 1)) as [a ->]; [lia|].
    destruct (at_index_in_range history (JS.len history - 2)) as [b ->]; [lia|].
    reflexivity.
Qed.

(** X14.  The trend window of a payload holds at most 20 points, as many as
    [historyPoints] says, in date order: of two neighbours that both carry
    a valid date the earlier comes first.  The comparison has a baseline
    exactly when the history given has at least two entries. *)
Theorem trend_window_is_ordered_and_capped (D : string -> option Z)
        (data : option ReportData) (options : VueReportOptions)
        (p : VueReportPayload)
        (Hbuilt : generateVueReport_payload D data options = Ok p) :
  List.length (pl_history p) = Nat.min 20 (List.length (historyArg options))
  /\ hl_historyPoints (pl_highlights p) = JS.len (pl_history p)
  /\ Sorted (fun a b => forall ta tb, timeOf D a = Some ta -> timeOf D b = Some tb ->
                                      ta <= tb)
            (pl_history p)
  /\ (hasBaseline (pl_comparison p) = true
      <-> (2 <= List.length (historyArg options))%nat).
Proof.
  destruct (payload_shape _ _ _ _ Hbuilt) as (history & Hh & ->).
  cbn [pl_history pl_highlights pl_comparison hl_historyPoints].
  pose proof (historyOf_length _ _ _ Hh) as Hlen.
  split; [exact Hlen|]. split; [reflexivity|]. split.
  - unfold historyOf in Hh.
    destruct (mapExc historyPointOf (historyArg options)) as [mapped|e];
      simpl in Hh; [|discriminate].
    injection Hh as <-. unfold JS.slice_last. apply Sorted_skipn.
    apply (Sorted_impl (fun a b => byGeneratedAt D a b <= 0)).
    + intros a b Hab ta tb Ea Eb. unfold byGeneratedAt in Hab.
      rewrite Ea, Eb in Hab. cbn [nsub] in Hab. lia.
    + apply sort_adjacent. apply byGeneratedAt_anti.
  - rewrite comparisonOf_baseline, Hlen. lia.
Qed.

Lemma trend_window_is_ordered_and_capped_witness :
  exists p,
    generateVueReport_payload sampleClock None
      (sampleOptions
         (Some [HObject (sampleRun (Some "2024-05-02T10:00:00.000Z") 90 0 8000);
                HObject (sampleRun (Some "2024-05-01T10:00:00.000Z") 80 2 10000)]))
    = Ok p
    /\ map (fun h => h_passRate (hp_entry h)) (pl_history p) = [Some 80; Some 90]
    /\ List.length (pl_history p) = 2%nat
    /\ hasBaseline (pl_comparison p) = true.
Proof.
  eexists. split; [reflexivity|]. split; [reflexivity|].
  destruct (trend_window_is_ordered_and_capped sampleClock None
              (sampleOptions
                 (Some [HObject (sampleRun (Some "2024-05-02T10:00:00.000Z") 90 0 8000);
                        HObject (sampleRun (Some "2024-05-01T10:00:00.000Z") 80 2 10000)]))
              _ eq_refl) as (Hlen & _ & _ & Hbase).
  split; [exact Hlen|]. apply Hbase. simpl. lia.
Defined.

(** ** The command-line history *)

Lemma slice_last_snoc {A} (n : nat) (l : list A) (x : A) :
  JS.slice_last (S n) (l ++ [x]) = JS.slice_last n l ++ [x].
Proof.
  unfold JS.slice_last. rewrite length_app. cbn [List.length].
  replace (List.length l + 1 - S n)%nat with (List.length l - n)%nat by lia.
  rewrite skipn_app.
  replace (List.length l - n - List.length l)%nat with 0%nat by lia.
  reflexivity.
Qed.

Lemma cliHistory_snoc (stored : HistoryFile) (current : HistoryEntry)
      (historyLimit : nat) :
  exists older,
    cliHistory stored current historyLimit = older ++ [HObject current]
    /\ (List.length older <= Nat.max 1 historyLimit - 1)%nat
    /\ (forall items, stored = ArrayOf items ->
          older = JS.slice_last (Nat.max 1 historyLimit - 1)
                    (filter (fun e => match e with HObject _ => true | _ => false end)
                            items))
    /\ (stored = NoFile \/ stored = Unparsable \/ stored = NotAnArray -> older = []).
Proof.
  unfold cliHistory.
  set (kept := match stored with
               | ArrayOf parsed => filter _ parsed
               | _ => []
               end).
  destruct (Nat.max 1 historyLimit) as [|n] eqn:En; [lia|].
  rewrite slice_last_snoc. exists (JS.slice_last n kept).
  replace (S n - 1)%nat with n by lia.
  split; [reflexivity|]. split; [rewrite slice_last_length; lia|]. split.
  - intros items ->. subst kept. now rewrite cli_filter_keeps_objects.
  - intros [->|[->| ->]]; subst kept; unfold JS.slice_last;
      cbn [List.length]; apply skipn_nil.
Qed.

(** X15.  The history the command-line tool keeps always ends with the
    current run, whatever the history file held and however small the
    limit: before it come the newest stored objects, at most
    [max(1, limit) - 1] of them, and none when there is no usable file. *)
Theorem cli_history_ends_with_current_run (stored : HistoryFile)
        (current : HistoryEntry) (historyLimit : nat) :
  exists older,
    cliHistory stored current historyLimit = older ++ [HObject current]
    /\ (List.length older <= Nat.max 1 historyLimit - 1)%nat
    /\ (forall items, stored = ArrayOf items ->
          older = JS.slice_last (Nat.max 1 historyLimit - 1)
                    (filter (fun e => match e with HObject _ => true | _ => false end)
                            items))
    /\ (stored = NoFile \/ stored = Unparsable \/ stored = NotAnArray -> older = []).
Proof. apply cliHistory_snoc. Qed.

Lemma cli_history_ends_with_current_run_witness :
  cliHistory (ArrayOf [HObject (sampleRun None 70 3 9000); HPrimitive (PBool true);
                       HObject (sampleRun None 80 2 10000)])
             (sampleRun None 90 0 8000) 2
  = [HObject (sampleRun None 80 2 10000)] ++ [HObject (sampleRun None 90 0 8000)]
  /\ cliHistory Unparsable (sampleRun None 90 0 8000) 0
     = [] ++ [HObject (sampleRun None 90 0 8000)].
Proof.
  split.
  - destruct (cli_history_ends_with_current_run
                (ArrayOf [HObject (sampleRun None 70 3 9000); HPrimitive (PBool true);
                          HObject (sampleRun None 80 2 10000)])
                (sampleRun None 90 0 8000) 2) as (older & E & _ & Hitems & _).
    rewrite E, (Hitems _ eq_refl). reflexivity.
  - destruct (cli_history_ends_with_current_run Unparsable
                (sampleRun None 90 0 8000) 0) as (older & E & _ & _ & Hnone).
    rewrite E, Hnone; [reflexivity|]. right. now left.
Defined.

Lemma objects_not_nullish (items : list HistoryItem) :
  Forall (fun e => exists o, e = HObject o) items ->
  existsb item_nullish items = false.
Proof.
  induction 1 as [|e items (o & ->) Hitems IH]; [reflexivity|]. simpl. exact IH.
Qed.

Lemma cliHistory_objects (stored : HistoryFile) (current : HistoryEntry)
      (historyLimit : nat) :
  Forall (fun e => exists o, e = HObject o) (cliHistory stored current historyLimit).
Proof.
  unfold cliHistory. apply Forall_slice_last, Forall_app. split.
  - destruct stored; try constructor.
    rewrite cli_filter_keeps_objects. apply Forall_forall.
    intros e He. apply filter_In in He. destruct He as [_ He].
    destruct e; try discriminate. now eexists.
  - constructor; [now eexists|constructor].
Qed.

Lemma Forall2_In_r {A B} (R : A -> B -> Prop) (l : list A) (l' : list B) (y : B) :
  Forall2 R l l' -> In y l' -> exists x, In x l /\ R x y.
Proof.
  induction 1 as [|x y' l l' Hxy _ IH]; intro Hy; [contradiction|].
  destruct Hy as [<-|Hy].
  - exists x. split; [now left|exact Hxy].
  - destruct (IH Hy) as (x' & Hx' & Hr). exists x'. split; [now right|exact Hr].
Qed.

(** X16.  When the history file is absent, unparsable, not an array, or an
    array whose entries are primitives, [null], arrays or objects with
    properties of the declared types, the history the command-line tool
    builds never makes [generateVueReport] throw: the payload is built, for
    a run without any test as well, and its trend window holds between 1
    and 20 points, each the point of an entry of that history. *)
Theorem cli_history_never_aborts_the_report
        (D : string -> option Z) (data : option ReportData)
        (content : HistoryFileContent) (stored : HistoryFile)
        (current : HistoryEntry) (historyLimit : nat)
        (title theme : option string) (outputPath : string)
        (Htyped : storedHistoryOf content = Some stored) :
  let options :=
    mkVueReportOptions title theme
      (Some (cliHistory stored current historyLimit)) outputPath in
  exists p,
    generateVueReport_payload D data options = Ok p
    /\ (1 <= List.length (pl_history p) <= 20)%nat
    /\ forall pt, In pt (pl_history p) ->
                  exists e, In (HObject e) (cliHistory stored current historyLimit)
                            /\ PointOfEntry e pt.
Proof.
  cbv zeta.
  set (options := mkVueReportOptions title theme _ outputPath).
  assert (Hclean : existsb item_nullish (historyArg options) = false)
    by (apply objects_not_nullish, cliHistory_objects).
  destruct (mapExc_history_ok _ Hclean) as (mapped & E & F).
  assert (Hh : historyOf D options
               = Ok (JS.slice_last 20 (JS.sort (byGeneratedAt D) mapped)))
    by (unfold historyOf; now rewrite E).
  destruct (payload_exists D data options _ Hh) as [p Hp].
  exists p. split; [exact Hp|].
  destruct (payload_shape _ _ _ _ Hp) as (history & Hh' & ->).
  cbn [pl_history]. split.
  - rewrite (historyOf_length _ _ _ Hh').
    destruct (cliHistory_snoc stored current historyLimit) as (older & Eo & _).
    unfold historyArg, options. cbn [o_history]. rewrite Eo, length_app.
    cbn [List.length]. lia.
  - intros pt Hpt. rewrite Hh in Hh'. injection Hh' as <-.
    apply In_slice_last in Hpt.
    apply (Permutation_in _ (sort_perm _ (byGeneratedAt D) mapped)) in Hpt.
    destruct (Forall2_In_r _ _ _ _ F Hpt) as (item & Hitem & Hpoint).
    unfold historyArg, options in Hitem. cbn [o_history] in Hitem.
    pose proof (cliHistory_objects stored current historyLimit) as Hobj.
    rewrite Forall_forall in Hobj. destruct (Hobj _ Hitem) as (e & ->).
    exists e. split; [exact Hitem|exact Hpoint].
Qed.

Lemma cli_history_never_aborts_the_report_witness :
  exists p,
    generateVueReport_payload sampleClock None
      (mkVueReportOptions None None
         (Some (cliHistory (ArrayOf [HNull; HPrimitive (PNum 42);
                                     HObject (sampleRun None 80 2 10000)])
                           (sampleRun None 90 0 8000) 30))
         "reports/report.html") = Ok p
    /\ List.length (pl_history p) = 2%nat.
Proof.
  destruct (cli_history_never_aborts_the_report sampleClock None
              (FileParsed (JArr [JNull; JNum 42; sampleRunJSON 80 2 10000]))
              (ArrayOf [HNull; HPrimitive (PNum 42);
                        HObject (sampleRun None 80 2 10000)])
              (sampleRun None 90 0 8000) 30%nat None None "reports/report.html"
              eq_refl) as (p & Hp & _).
  exists p. split; [exact Hp|].
  cbv zeta in Hp. vm_compute in Hp. injection Hp as <-. reflexivity.
Defined.

(** ** Performance tiers *)

Lemma floor_quarter (n : Z) : Math_floor (inject_Z n * 0.25) = n / 4.
Proof.
  unfold Math_floor. rewrite Zdiv_Qdiv. apply Qfloor_comp. field.
Qed.

Lemma floor_half (n : Z) : Math_floor (inject_Z n * 0.5) = n / 2.
Proof.
  unfold Math_floor. rewrite Zdiv_Qdiv. apply Qfloor_comp. field.
Qed.

Lemma floor_three_quarters (n : Z) : Math_floor (inject_Z n * 0.75) = (3 * n) / 4.
Proof.
  unfold Math_floor. rewrite Zdiv_Qdiv. apply Qfloor_comp.
  rewrite inject_Z_mult. field.
Qed.

Lemma strongly_sorted_at_index {A} (R : A -> A -> Prop) (l : list A) :
  StronglySorted R l -> (forall a, R a a) ->
  forall i j a b,
    i <= j -> JS.at_index l i = Some a -> JS.at_index l j = Some b -> R a b.
Proof.
  intros Hs Hrefl i j a b Hij. unfold JS.at_index.
  destruct (Z.ltb_spec i 0); [discriminate|].
  destruct (Z.ltb_spec j 0); [lia|].
  assert (Hn : (Z.to_nat i <= Z.to_nat j)%nat) by lia.
  generalize dependent (Z.to_nat j). generalize (Z.to_nat i). clear i j Hij H H0.
  induction Hs as [|x l Hl IH Hall]; intros i j Hn Ha Hb.
  - destruct i; discriminate.
  - destruct i as [|i], j as [|j]; simpl in *; try lia.
    + injection Ha as <-. injection Hb as <-. apply Hrefl.
    + injection Ha as <-. rewrite Forall_forall in Hall.
      apply Hall. eapply nth_error_In. exact Hb.
    + apply (IH i j); [lia|assumption..].
Qed.

(** The three quartile durations fall as the fraction grows, since they are
    read from the list sorted by falling duration. *)
Lemma quartiles_fall (ts : list TestResult) :
  let sorted := JS.sort byDurationDesc ts in
  quartileAt sorted 0.75 <= quartileAt sorted 0.5 <= quartileAt sorted 0.25.
Proof.
  cbv zeta. set (sorted := JS.sort byDurationDesc ts).
  unfold quartileAt. rewrite floor_quarter, floor_half, floor_three_quarters.
  destruct ts as [|t ts]; [simpl; lia|].
  assert (Hlen : 1 <= JS.len sorted).
  { unfold sorted, JS.len. rewrite sort_length. cbn [List.length]. lia. }
  pose proof (sort_byDurationDesc_strongly (t :: ts)) as Hs. fold sorted in Hs.
  assert (H4 : 0 <= JS.len sorted / 4 < JS.len sorted)
    by (split; [apply Z.div_pos; lia|apply Z.div_lt_upper_bound; lia]).
  assert (H2 : JS.len sorted / 4 <= JS.len sorted / 2 < JS.len sorted).
  { split; [|apply Z.div_lt_upper_bound; lia].
    apply Z.div_le_lower_bound; [lia|].
    pose proof (Z.mul_div_le (JS.len sorted) 4). lia. }
  assert (H3 : JS.len sorted / 2 <= 3 * JS.len sorted / 4 < JS.len sorted).
  { split; [|apply Z.div_lt_upper_bound; lia].
    apply Z.div_le_lower_bound; [lia|].
    pose proof (Z.mul_div_le (JS.len sorted) 2). lia. }
  destruct (at_index_in_range sorted (JS.len sorted / 4)) as [a Ea]; [lia|].
  destruct (at_index_in_range sorted (JS.len sorted / 2)) as [b Eb]; [lia|].
  destruct (at_index_in_range sorted (3 * JS.len sorted / 4)) as [c Ec]; [lia|].
  rewrite Ea, Eb, Ec. split.
  - apply (strongly_sorted_at_index _ _ Hs (fun x => Z.le_refl _) _ _ b c
             (proj1 H3) Eb Ec).
  - apply (strongly_sorted_at_index _ _ Hs (fun x => Z.le_refl _) _ _ a b
             (proj1 H2) Ea Eb).
Qed.

Lemma count_none {A} (f : A -> bool) (l : list A) :
  (forall x, f x = false) -> JS.count f l = 0.
Proof.
  intro H. induction l as [|x l IH]; [reflexivity|].
  rewrite count_cons, H, IH. reflexivity.
Qed.

Lemma count_either {A} (f g : A -> bool) (l : list A) :
  (forall x, f x || g x = true) -> JS.len l <= JS.count f l + JS.count g l.
Proof.
  intro H. induction l as [|x l IH]; [rewrite !count_nil; reflexivity|].
  rewrite !count_cons, len_cons. specialize (H x).
  destruct (f x), (g x); cbn [b2z]; try lia; discriminate.
Qed.

Lemma tier_counts (ts : list TestResult) (q25 q50 q75 : Z) :
  q75 <= q50 <= q25 ->
  JS.count (fun t => (duration t >? q25) && (duration t <=? q50)) ts = 0
  /\ JS.count (fun t => (duration t >? q50) && (duration t <=? q75)) ts = 0
  /\ JS.len ts <= JS.count (fun t => duration t <=? q25) ts
                  + JS.count (fun t => duration t >? q75) ts.
Proof.
  intro H. split; [|split].
  - apply count_none. intro t.
    destruct (Z.gtb_spec (duration t) q25), (Z.leb_spec (duration t) q50);
      try reflexivity. lia.
  - apply count_none. intro t.
    destruct (Z.gtb_spec (duration t) q50), (Z.leb_spec (duration t) q75);
      try reflexivity. lia.
  - apply count_either. intro t.
    destruct (Z.leb_spec (duration t) q25), (Z.gtb_spec (duration t) q75);
      try reflexivity. lia.
Qed.

(** X17.  The performance tiers do not split the tests into quarters: the
    quartile durations are read from the list sorted slowest first, so the
    "Fast" and the "Normal" tier are always empty, while the counts of
    "Ultra Fast" and "Slow" add up to at least the number of tests.  The
    tiers of the advanced report have the same names and counts. *)
Theorem middle_performance_tiers_are_empty (data : ReportData) :
  exists ultraFast slow,
    map (fun t => (tier t, tier_count t)) (tiersOf data)
    = [("Ultra Fast", ultraFast); ("Fast", 0); ("Normal", 0); ("Slow", slow)]
    /\ map (fun t => (pt_tier t, pt_count t)) (generatePerformanceAnalysis data)
       = [("Ultra Fast", ultraFast); ("Fast", 0); ("Normal", 0); ("Slow", slow)]
    /\ JS.len (testsOf data) <= ultraFast + slow.
Proof.
  pose proof (quartiles_fall (testsOf data)) as Hq. cbv zeta in Hq.
  destruct (tier_counts (testsOf data) _ _ _ Hq) as (Hfast & Hnormal & Hcover).
  eexists. eexists. unfold tiersOf, generatePerformanceAnalysis.
  cbn [map tier tier_count pt_tier pt_count].
  rewrite Hfast, Hnormal. split; [reflexivity|]. split; [reflexivity|exact Hcover].
Qed.

Example tiers_of_four_tests :
  map (fun t => (tier t, tier_count t))
      (tiersOf (safeData (sampleData [sampleTest "a" "passed" 100 0 "a";
                                      sampleTest "b" "passed" 200 0 "a";
                                      sampleTest "c" "passed" 300 0 "a";
                                      sampleTest "d" "passed" 400 0 "a"])))
  = [("Ultra Fast", 3); ("Fast", 0); ("Normal", 0); ("Slow", 3)].
Proof. vm_compute. reflexivity. Qed.

(** ** Scores of the advanced report *)

Lemma Math_round_clamped (x : Q) :
  0 <= JS.Math_round (Qmax 0 (Qmin 100 x)) <= 100.
Proof.
  unfold JS.Math_round. split.
  - rewrite <- (Qfloor_Z 0). apply Qfloor_resp_le.
    apply Qle_trans with (Qmax 0 (Qmin 100 x)); [apply Q.le_max_l|].
    rewrite <- (Qplus_0_r (Qmax 0 (Qmin 100 x))) at 1.
    apply Qplus_le_compat; [apply Qle_refl|discriminate].
  - change 100 with (Qfloor (100 + (1 # 2))).
    apply Qfloor_resp_le. apply Qplus_le_compat; [|apply Qle_refl].
    apply Q.max_lub; [discriminate|apply Q.le_min_l].
Qed.

(** X18.  The performance, reliability and efficiency scores that
    [enhanceStatistics] computes, and the two scores of [enhanceStats], are
    integers between 0 and 100 whatever statistics and counters they are
    given, inconsistent ones included. *)
Theorem enhanced_scores_between_0_and_100 (stats : Statistics) (data : ReportData) :
  0 <= em_performanceScore (enhanceStatistics stats data) <= 100
  /\ 0 <= em_reliabilityScore (enhanceStatistics stats data) <= 100
  /\ 0 <= em_efficiency (enhanceStatistics stats data) <= 100
  /\ 0 <= performanceScore (enhanceStats stats data) <= 100
  /\ 0 <= reliabilityScore (enhanceStats stats data) <= 100.
Proof.
  unfold enhanceStatistics, enhanceStats.
  cbn [em_performanceScore em_reliabilityScore em_efficiency performanceScore
       reliabilityScore].
  repeat split; apply Math_round_clamped.
Qed.

(** ** escapeHtml *)

Lemma string_app_assoc (a b c : string) :
  ((a ++ b) ++ c = a ++ (b ++ c))%string.
Proof. induction a as [|x a IH]; simpl; [reflexivity|now rewrite IH]. Qed.

Lemma replaceAll_app (c : Ascii.ascii) (r s1 s2 : string) :
  replaceAll c r (s1 ++ s2)%string
  = (replaceAll c r s1 ++ replaceAll c r s2)%string.
Proof.
  induction s1 as [|a s1 IH]; simpl; [reflexivity|].
  destruct (Ascii.eqb a c); rewrite IH; [|reflexivity].
  now rewrite string_app_assoc.
Qed.

Lemma escapeHtml_app (s1 s2 : string) :
  escapeHtml (s1 ++ s2)%string = (escapeHtml s1 ++ escapeHtml s2)%string.
Proof. unfold escapeHtml. now rewrite !replaceAll_app. Qed.

Lemma escapeHtml_char (a : Ascii.ascii) :
  escapeHtml (String a EmptyString) = escapeChar a.
Proof.
  unfold escapeHtml, escapeChar. cbn [replaceAll].
  destruct (Ascii.eqb_spec a "&"%char) as [->|]; [reflexivity|].
  cbn [replaceAll].
  destruct (Ascii.eqb_spec a "<"%char) as [->|]; [reflexivity|].
  cbn [replaceAll].
  destruct (Ascii.eqb_spec a ">"%char) as [->|]; [reflexivity|].
  cbn [replaceAll].
  destruct (Ascii.eqb_spec a dquote) as [->|]; reflexivity.
Qed.

Lemma escapeHtml_cons (a : Ascii.ascii) (s : string) :
  escapeHtml (String a s) = (escapeChar a ++ escapeHtml s)%string.
Proof.
  change (String a s) with (String a EmptyString ++ s)%string.
  now rewrite escapeHtml_app, escapeHtml_char.
Qed.

Lemma escapeHtml_each (s : string) : escapeHtml s = escapeEach s.
Proof.
  induction s as [|a s IH]; [reflexivity|].
  rewrite escapeHtml_cons, IH. reflexivity.
Qed.

Lemma occurs_app (c : Ascii.ascii) (s1 s2 : string) :
  occurs c (s1 ++ s2)%string = occurs c s1 || occurs c s2.
Proof.
  induction s1 as [|a s1 IH]; simpl; [reflexivity|].
  now rewrite IH, orb_assoc.
Qed.

Lemma escapeChar_clean (a : Ascii.ascii) :
  occurs "<"%char (escapeChar a) = false
  /\ occurs ">"%char (escapeChar a) = false
  /\ occurs dquote (escapeChar a) = false.
Proof.
  unfold escapeChar.
  destruct (Ascii.eqb a "&"%char); [repeat split; reflexivity|].
  destruct (Ascii.eqb_spec a "<"%char); [repeat split; reflexivity|].
  destruct (Ascii.eqb_spec a ">"%char); [repeat split; reflexivity|].
  destruct (Ascii.eqb_spec a dquote); [repeat split; reflexivity|].
  cbn [occurs]. rewrite !orb_false_r.
  repeat split; apply Ascii.eqb_neq; assumption.
Qed.

(** X19.  [escapeHtml] acts on each character on its own: the four
    replacements done one after the other give the same string as escaping
    every character once (no ampersand of an inserted entity is escaped
    again), so it distributes over concatenation, and its result holds no
    [<], no [>] and no double quote. *)
Theorem escapeHtml_escapes_each_character_once (s1 s2 : string) :
  escapeHtml (s1 ++ s2)%string = (escapeHtml s1 ++ escapeHtml s2)%string
  /\ escapeHtml s1 = escapeEach s1
  /\ occurs "<"%char (escapeHtml s1) = false
  /\ occurs ">"%char (escapeHtml s1) = false
  /\ occurs dquote (escapeHtml s1) = false.
Proof.
  split; [apply escapeHtml_app|]. split; [apply escapeHtml_each|].
  rewrite escapeHtml_each.
  induction s1 as [|a s IH]; [repeat split; reflexivity|].
  cbn [escapeEach]. rewrite !occurs_app.
  destruct (escapeChar_clean a) as (H1 & H2 & H3).
  destruct IH as (I1 & I2 & I3).
  rewrite H1, H2, H3, I1, I2, I3. repeat split; reflexivity.
Qed.

Example escapeHtml_of_a_title :
  escapeHtml "a<b> & &lt;" = "a&lt;b&gt; &amp; &amp;lt;".
Proof. reflexivity. Qed.

Lemma escapeEach_step (a b : Ascii.ascii) (s t : string) :
  (escapeChar a ++ s = escapeChar b ++ t)%string -> a = b /\ s = t.
Proof.
  unfold escapeChar.
  destruct (Ascii.eqb_spec a "&"%char) as [->|Na];
  destruct (Ascii.eqb_spec b "&"%char) as [->|Nb]; cbn [Ascii.eqb].
  - simpl. intro H. injection H as ->. split; reflexivity.
  - destruct (Ascii.eqb_spec b "<"%char) as [->|];
      [simpl; intro H; discriminate|].
    destruct (Ascii.eqb_spec b ">"%char) as [->|];
      [simpl; intro H; discriminate|].
    destruct (Ascii.eqb_spec b dquote) as [->|];
      [simpl; intro H; discriminate|].
    simpl. intro H. injection H as E _. congruence.
  - destruct (Ascii.eqb_spec a "<"%char) as [->|];
      [simpl; intro H; discriminate|].
    destruct (Ascii.eqb_spec a ">"%char) as [->|];
      [simpl; intro H; discriminate|].
    destruct (Ascii.eqb_spec a dquote) as [->|];
      [simpl; intro H; discriminate|].
    simpl. intro H. injection H as E _. congruence.
  - destruct (Ascii.eqb_spec a "<"%char) as [->|Na1];
    destruct (Ascii.eqb_spec b "<"%char) as [->|Nb1].
    + simpl. intro H. injection H as ->. split; reflexivity.
    + destruct (Ascii.eqb_spec b ">"%char) as [->|];
        [simpl; intro H; discriminate|].
      destruct (Ascii.eqb_spec b dquote) as [->|];
        [simpl; intro H; discriminate|].
      simpl. intro H. injection H as E _. congruence.
    + destruct (Ascii.eqb_spec a ">"%char) as [->|];
        [simpl; intro H; discriminate|].
      destruct (Ascii.eqb_spec a dquote) as [->|];
        [simpl; intro H; discriminate|].
      simpl. intro H. injection H as E _. congruence.
    + destruct (Ascii.eqb_spec a ">"%char) as [->|Na2];
      destruct (Ascii.eqb_spec b ">"%char) as [->|Nb2].
      * simpl. intro H. injection H as ->. split; reflexivity.
      * destruct (Ascii.eqb_spec b dquote) as [->|];
          [simpl; intro H; discriminate|].
        simpl. intro H. injection H as E _. congruence.
      * destruct (Ascii.eqb_spec a dquote) as [->|];
          [simpl; intro H; discriminate|].
        simpl. intro H. injection H as E _. congruence.
      * destruct (Ascii.eqb_spec a dquote) as [->|Na3];
        destruct (Ascii.eqb_spec b dquote) as [->|Nb3].
        -- simpl. intro H. injection H as ->. split; reflexivity.
        -- simpl. intro H. injection H as E _. congruence.
        -- simpl. intro H. injection H as E _. congruence.
        -- simpl. intro H. injection H as -> ->. split; reflexivity.
Qed.

Lemma escapeChar_nonempty (a : Ascii.ascii) (s : string) :
  (escapeChar a ++ s)%string <> EmptyString.
Proof.
  unfold escapeChar.
  destruct (Ascii.eqb a "&"%char); [discriminate|].
  destruct (Ascii.eqb a "<"%char); [discriminate|].
  destruct (Ascii.eqb a ">"%char); [discriminate|].
  destruct (Ascii.eqb a dquote); discriminate.
Qed.

(** X20.  [escapeHtml] loses nothing: two strings with the same escaped
    form are the same string, so an escaped title determines the title. *)
Theorem escapeHtml_is_injective (s t : string) :
  escapeHtml s = escapeHtml t -> s = t.
Proof.
  rewrite !escapeHtml_each. revert t.
  induction s as [|a s IH]; intros [|b t] H; cbn [escapeEach] in H.
  - reflexivity.
  - symmetry in H. now apply escapeChar_nonempty in H.
  - now apply escapeChar_nonempty in H.
  - apply escapeEach_step in H. destruct H as [-> H]. f_equal. now apply IH.
Qed.

Lemma escapeHtml_is_injective_witness :
  escapeHtml "a<b" = escapeHtml "a<b" /\ "a<b" = "a<b".
Proof.
  split; [reflexivity|apply (escapeHtml_is_injective "a<b" "a<b"); reflexivity].
Defined.

(** ** The file insights of the Vue report *)

Lemma fileTallyOf_mine (k : string) (ts : list TestResult) (t : TestResult) :
  fileKey t = k -> fileTallyOf k (ts ++ [t]) = fileTally t (fileTallyOf k ts).
Proof.
  intro E. unfold fileTallyOf, fileTally. cbv zeta.
  cbn [fe_file fe_total fe_failed fe_flaky fe_duration fe_retries].
  rewrite filter_app. cbn [filter]. rewrite E, String.eqb_refl.
  rewrite len_app, !count_app, !map_app, !total_of_app.
  f_equal; try reflexivity; rewrite ?count_cons, ?count_nil; try lia;
    unfold total_of; simpl; lia.
Qed.

Lemma fileTallyOf_other (k : string) (ts : list TestResult) (t : TestResult) :
  fileKey t <> k -> fileTallyOf k (ts ++ [t]) = fileTallyOf k ts.
Proof.
  intro E. unfold fileTallyOf. rewrite filter_app. cbn [filter].
  destruct (String.eqb_spec (fileKey t) k); [contradiction|]. now rewrite app_nil_r.
Qed.

(** [fileMap] holds one entry per file, in the order in which the files
    first occur, each the tally of the tests of its file. *)
Lemma fileMap_spec (ts : list TestResult) :
  fileMap ts = map (fun k => (k, fileTallyOf k ts)) (firstSeen (map fileKey ts)).
Proof.
  unfold fileMap.
  apply (grouped_fold FileEntry fileKey (fun k => mkFileEntry k 0 0 0 0 0)
                      fileTally fileTallyOf).
  - reflexivity.
  - intros. now apply fileTallyOf_mine.
  - intros. now apply fileTallyOf_other.
Qed.

Lemma byRiskDesc_anti (x y : FileInsight) :
  byRiskDesc x y > 0 -> byRiskDesc y x <= 0.
Proof. unfold byRiskDesc. lia. Qed.

(** X21.  The file insights of the Vue report hold one entry per file of
    the tests (['unknown-file'] for a test without one), each counted from
    exactly the tests of that file: its total is their number, positive,
    its failed count the failed and timed-out ones, its flaky count the
    retried ones; its fail rate lies between 0 and 100 and within half a
    point of the share of its failed tests, and its risk score between 0
    and 100.  The entries are ordered by falling risk score and their
    totals add up to the number of tests. *)
Theorem file_insights_tally_the_tests (data : ReportData) :
  let ts := testsOf data in
  let insights := fileInsightsOf data in
  NoDup (map fi_file insights)
  /\ Forall (fun i =>
               let mine := fileTallyOf (fi_file i) ts in
               fi_total i = fe_total mine
               /\ fi_failed i = fe_failed mine
               /\ fi_flaky i = fe_flaky mine
               /\ 0 < fi_total i
               /\ 0 <= fi_failed i <= fi_total i
               /\ 0 <= fi_flaky i <= fi_total i
               /\ 0 <= fi_failRate i <= 100
               /\ RoundedPercent (fi_failed i) (fi_total i) (fi_failRate i)
               /\ 0 <= riskScore i <= 100) insights
  /\ (forall t, In t ts -> In (fileKey t) (map fi_file insights))
  /\ Sorted (fun a b => riskScore b <= riskScore a) insights
  /\ total_of (map fi_total insights) = JS.len ts.
Proof.
  cbv zeta. unfold fileInsightsOf. set (ts := testsOf data).
  rewrite fileMap_spec, !map_map. cbn [snd].
  set (raw := map (fun k => fileInsightOf (p95Of data) (fileTallyOf k ts))
                  (firstSeen (map fileKey ts))).
  destruct (firstSeen_spec (map fileKey ts)) as [Hnd Hin].
  pose proof (sort_perm _ byRiskDesc raw) as Hperm.
  assert (Hnames : map fi_file raw = firstSeen (map fileKey ts)).
  { unfold raw. rewrite map_map. cbn [fileInsightOf fi_file fileTallyOf fe_file].
    apply map_id. }
  split; [|split; [|split; [|split]]].
  - apply (Permutation_NoDup (l := map fi_file raw)).
    + apply Permutation_map. now symmetry.
    + now rewrite Hnames.
  - apply sort_Forall. unfold raw. apply Forall_map, Forall_forall. intros k Hk.
    pose proof (fileInsightOf_bounds (p95Of data) (fileTallyOf k ts)) as Hrisk.
    revert Hrisk.
    cbn [fileInsightOf fileTallyOf fi_total fi_failed fi_flaky fi_failRate
         fe_total fe_failed fe_flaky fe_file fi_file riskScore].
    set (mine := filter (fun t => (fileKey t =? k)%string) ts).
    intro Hrisk.
    assert (Hpos : 0 < JS.len mine).
    { apply Hin, in_map_iff in Hk. destruct Hk as (t & Et & Ht).
      assert (In t mine) by (apply filter_In; split; [exact Ht|];
                             rewrite Et; apply String.eqb_refl).
      destruct mine; [contradiction|]. rewrite len_cons. unfold JS.len. lia. }
    do 3 (split; [reflexivity|]).
    split; [exact Hpos|]. split; [apply count_bounds|]. split; [apply count_bounds|].
    split; [|split].
    + apply (percentOf_bounds
               (JS.count (fun t => isFailed t || isTimedOut t) mine) (JS.len mine)).
      apply count_bounds.
    + apply (percentOf_rounded
               (JS.count (fun t => isFailed t || isTimedOut t) mine) (JS.len mine)
               Hpos).
    + exact Hrisk.
  - intros t Ht.
    apply (Permutation_in _ (Permutation_map fi_file (Permutation_sym Hperm))).
    rewrite Hnames. apply Hin. now apply in_map.
  - apply (Sorted_impl (fun a b => byRiskDesc a b <= 0)).
    + unfold byRiskDesc. intros. lia.
    + apply sort_adjacent. exact byRiskDesc_anti.
  - rewrite (total_of_perm _ _ (Permutation_map fi_total Hperm)).
    unfold raw. rewrite map_map.
    cbn [fileInsightOf fileTallyOf fi_total fe_total].
    apply (counts_by_key_sum fileKey); [exact Hnd|].
    intros t Ht. apply Hin. now apply in_map.
Qed.

(** ** From the parser to the Vue report *)

Lemma total_of_map_le {A} (f g : A -> Z) (l : list A) :
  (forall x, f x <= g x) -> total_of (map f l) <= total_of (map g l).
Proof.
  intro H. unfold total_of. induction l as [|x l IH]; simpl; [lia|].
  specialize (H x). lia.
Qed.

Lemma total_of_map_ext_in {A} (f g : A -> Z) (l : list A) :
  Forall (fun x => f x = g x) l -> total_of (map f l) = total_of (map g l).
Proof.
  unfold total_of. induction 1 as [|x l Hx _ IH]; simpl; [reflexivity|].
  rewrite Hx, IH. reflexivity.
Qed.

(** Statistics that are already a sorted rollup of the tests pass through
    [browserStatsOf] and [suiteStatsOf] unchanged. *)
Lemma resorted_rollup (given : list GroupStats) (key : TestResult -> string)
      (ts : list TestResult) :
  given = JS.sort byTotalDesc (derivedStats key ts) ->
  JS.sort byTotalDesc
    match given with
    | b :: bs => b :: bs
    | [] => derivedStats key ts
    end
  = given.
Proof.
  intro E. destruct given as [|b bs]; [now symmetry|].
  apply (sort_of_sorted _ byTotalDesc). rewrite E.
  apply sort_adjacent. exact byTotalDesc_anti.
Qed.

(** X22.  A Vue report built from the result of [parsePlaywrightReport]
    shows the parser's figures: the total, passed, failed, skipped and flaky
    counters of the summary are the parser's, the browser groups are the
    parser's in the same order and the suite groups its first twenty.  The
    duration shown is at least the parser's total duration and equal to it
    when no record has a negative duration. *)
Theorem report_of_a_parsed_run_keeps_its_figures (D : string -> option Z)
        (report : PlaywrightReport) (options : VueReportOptions)
        (p : VueReportPayload)
        (Hbuilt : generateVueReport_payload D (Some (parsePlaywrightReport report))
                                            options = Ok p) :
  let data := parsePlaywrightReport report in
  let s := pl_summary p in
  s_total s = totalTests data
  /\ s_passed s = passed data
  /\ s_failed s = failed data
  /\ s_skipped s = skipped data
  /\ s_flaky s = flaky data
  /\ totalDuration data <= s_durationMs s
  /\ (Forall (fun t => 0 <= duration t) (parsedTests report) ->
      s_durationMs s = totalDuration data)
  /\ Some (pl_browserStats p) = browserStats data
  /\ Some (pl_suiteStats p) = option_map (JS.slice_to 20) (suiteStats data).
Proof.
  destruct (payload_shape _ _ _ _ Hbuilt) as (history & _ & ->).
  destruct (parsed_state report) as (st & (_ & Hd & _) & Ht & Hdur & _).
  cbv zeta.
  cbn [pl_summary pl_browserStats pl_suiteStats summaryOf s_total s_passed
       s_failed s_skipped s_flaky s_durationMs].
  split; [reflexivity|]. split; [reflexivity|]. split; [reflexivity|].
  split; [reflexivity|]. split; [reflexivity|].
  assert (Eshown : totalDuration (safeData (Some (parsePlaywrightReport report)))
                   = total_of (map (fun t => Z.max 0 (duration t))
                                   (parsedTests report))).
  { cbn [safeData totalDuration]. rewrite fold_sum_from. reflexivity. }
  rewrite Eshown, Hdur, Hd, <- Ht.
  split; [apply total_of_map_le; intro t; lia|].
  split.
  - intro Hpos. apply total_of_map_ext_in.
    eapply Forall_impl; [|exact Hpos]. intros t Ht0. cbv beta in *. lia.
  - unfold browserStatsOf, suiteStatsOf.
    cbn [safeData browserStats suiteStats tests testsOf parsePlaywrightReport
         option_map inputTestsOf].
    split; f_equal; [|f_equal].
    + apply (resorted_rollup _ browserKey
               (st_tests (fold_left processSuite
                            match pw_suites report with Some l => l | None => [] end
                            initialParseState))).
      reflexivity.
    + apply (resorted_rollup _ suiteKey
               (st_tests (fold_left processSuite
                            match pw_suites report with Some l => l | None => [] end
                            initialParseState))).
      reflexivity.
Qed.

Lemma report_of_a_parsed_run_keeps_its_figures_witness :
  exists p,
    generateVueReport_payload sampleClock
      (Some (parsePlaywrightReport sampleReport)) (sampleOptions None) = Ok p
    /\ totalDuration (parsePlaywrightReport sampleReport) = 380
    /\ s_durationMs (pl_summary p) = 400
    /\ s_total (pl_summary p) = totalTests (parsePlaywrightReport sampleReport).
Proof.
  eexists. split; [reflexivity|].
  split; [reflexivity|]. split; [reflexivity|].
  exact (proj1 (report_of_a_parsed_run_keeps_its_figures sampleClock sampleReport
                  (sampleOptions None) _ eq_refl)).
Defined.

(** ** The status chart of the Vue report *)

Lemma bucket_counts (k : string) (ts : list TestResult) :
  bucketGet k (statusBuckets ts)
  = JS.count (fun t => (statusKey t =? k)%string) ts.
Proof.
  unfold statusBuckets.
  assert (H : forall m,
             bucketGet k
               (fold_left
                  (fun m t => upsert (JS.or_lit (Some (status t)) "unknown") 0
                                     (fun n => n + 1) m) ts m)
             = bucketGet k m + JS.count (fun t => (statusKey t =? k)%string) ts).
  { induction ts as [|t ts IH]; intro m; cbn [fold_left].
    - rewrite count_nil. lia.
    - rewrite IH, bucketGet_upsert, count_cons. unfold statusKey. lia. }
  rewrite H. reflexivity.
Qed.

Lemma unlisted_upsert (k : string) (m : list (string * Z)) :
  total_of (map snd (filter (fun kv => negb (statusMeta_truthy (fst kv)))
                            (upsert k 0 (fun n => n + 1) m)))
  = total_of (map snd (filter (fun kv => negb (statusMeta_truthy (fst kv))) m))
    + b2z (negb (statusMeta_truthy k)).
Proof.
  unfold total_of. induction m as [|[k0 n] m IH]; cbn [upsert filter fst].
  - destruct (statusMeta_truthy k); simpl; lia.
  - destruct (String.eqb_spec k0 k) as [->|Hne]; cbn [filter fst].
    + destruct (statusMeta_truthy k); simpl; lia.
    + destruct (statusMeta_truthy k0); cbn [negb map fold_right snd];
        rewrite IH; lia.
Qed.

Lemma unlisted_counts (ts : list TestResult) :
  total_of (map snd (filter (fun kv => negb (statusMeta_truthy (fst kv)))
                            (statusBuckets ts)))
  = JS.count (fun t => negb (statusMeta_truthy (statusKey t))) ts.
Proof.
  unfold statusBuckets.
  assert (H : forall m,
             total_of (map snd (filter (fun kv => negb (statusMeta_truthy (fst kv)))
               (fold_left
                  (fun m t => upsert (JS.or_lit (Some (status t)) "unknown") 0
                                     (fun n => n + 1) m) ts m)))
             = total_of (map snd (filter (fun kv => negb (statusMeta_truthy (fst kv))) m))
               + JS.count (fun t => negb (statusMeta_truthy (statusKey t))) ts).
  { induction ts as [|t ts IH]; intro m; cbn [fold_left].
    - rewrite count_nil. lia.
    - rewrite IH, unlisted_upsert, count_cons. unfold statusKey. lia. }
  rewrite H. reflexivity.
Qed.

Lemma status_slice_of_a_test (t : TestResult) :
  b2z (statusKey t =? "passed")%string + b2z (statusKey t =? "failed")%string
  + b2z (statusKey t =? "skipped")%string + b2z (statusKey t =? "timedOut")%string
  + b2z (negb (statusMeta_truthy (statusKey t))) + b2z (hiddenStatus t) = 1.
Proof.
  unfold hiddenStatus. cbn [existsb]. generalize (statusKey t) as k. intro k.
  rewrite !(String.eqb_sym k).
  destruct (String.eqb_spec "passed" k) as [<-|]; [reflexivity|].
  destruct (String.eqb_spec "failed" k) as [<-|]; [reflexivity|].
  destruct (String.eqb_spec "skipped" k) as [<-|]; [reflexivity|].
  destruct (String.eqb_spec "timedOut" k) as [<-|]; [reflexivity|].
  destruct (statusMeta_truthy k); reflexivity.
Qed.

Lemma status_slices_sum (ts : list TestResult) :
  JS.count (fun t => (statusKey t =? "passed")%string) ts
  + JS.count (fun t => (statusKey t =? "failed")%string) ts
  + JS.count (fun t => (statusKey t =? "skipped")%string) ts
  + JS.count (fun t => (statusKey t =? "timedOut")%string) ts
  + JS.count (fun t => negb (statusMeta_truthy (statusKey t))) ts
  + JS.count hiddenStatus ts = JS.len ts.
Proof.
  induction ts as [|t ts IH]; [reflexivity|].
  rewrite !count_cons, len_cons. pose proof (status_slice_of_a_test t). lia.
Qed.

(** X23.  The status chart has one label and one color per slice, and
    its first five slices are Passed, Failed, Skipped, Flaky and Timed Out.
    Its slices do not add up to the number of tests: they exceed it by the
    [flaky] counter, since a flaky test is also in the Passed slice, and
    fall short by the tests whose status is ['flaky'] or the name of an
    inherited property, which get no slice. *)
Theorem status_chart_counts_flaky_tests_twice (data : ReportData) :
  let chart := statusChartOf data in
  List.length (statusLabels chart) = List.length (statusSeries chart)
  /\ List.length (statusColors chart) = List.length (statusSeries chart)
  /\ firstn 5 (statusLabels chart)
     = ["Passed"; "Failed"; "Skipped"; "Flaky"; "Timed Out"]
  /\ total_of (statusSeries chart) + JS.count hiddenStatus (testsOf data)
     = JS.len (testsOf data) + flaky data.
Proof.
  cbv zeta. unfold statusChartOf.
  cbn [statusLabels statusSeries statusColors].
  split; [now rewrite !length_app, !length_map|].
  split; [now rewrite !length_app, !length_map|].
  split; [reflexivity|].
  rewrite total_of_app, unlisted_counts.
  cbn [statusOrder map String.eqb Ascii.eqb Bool.eqb].
  rewrite !bucket_counts.
  pose proof (status_slices_sum (testsOf data)) as H.
  unfold total_of at 1. cbn [fold_right]. lia.
Qed.

Example status_chart_of_a_flaky_run :
  let chart :=
    statusChartOf (safeData (sampleData [sampleTest "a" "passed" 100 1 "a";
                                         sampleTest "b" "passed" 100 0 "a";
                                         sampleTest "c" "interrupted" 100 0 "a";
                                         sampleTest "d" "flaky" 100 0 "a"])) in
  statusLabels chart
  = ["Passed"; "Failed"; "Skipped"; "Flaky"; "Timed Out"; "interrupted"]
  /\ statusSeries chart = [2; 0; 0; 1; 0; 1].
Proof. split; reflexivity. Qed.

(** ** The test timeline of the advanced report *)

Lemma count_perm {A} (f : A -> bool) (l1 l2 : list A) :
  Permutation l1 l2 -> JS.count f l1 = JS.count f l2.
Proof.
  induction 1 as [|x l1 l2 _ IH|x y l|l1 l2 l3 _ IH1 _ IH2];
    rewrite ?count_cons; lia.
Qed.

Lemma mapIndexed_map {A B C} (f : A -> Z -> B) (g : B -> C) (h : A -> C)
      (l : list A) :
  (forall x i, g (f x i) = h x) ->
  forall i, map g (mapIndexed f i l) = map h l.
Proof.
  intro H. induction l as [|x l IH]; intro i; [reflexivity|].
  cbn [mapIndexed map]. now rewrite H, IH.
Qed.

Lemma mapIndexed_indexes {A B} (f : A -> Z -> B) (g : B -> Z) (l : list A) :
  (forall x i, g (f x i) = i) ->
  forall i, map g (mapIndexed f i l)
            = map (fun k => i + Z.of_nat k) (seq 0 (List.length l)).
Proof.
  intro H. induction l as [|x l IH]; intro i; [reflexivity|].
  cbn [mapIndexed map List.length seq]. rewrite H, IH, Z.add_0_r. f_equal.
  rewrite <- seq_shift, map_map. apply map_ext. intro k. lia.
Qed.

Lemma mapIndexed_Forall {A B} (f : A -> Z -> B) (P : B -> Prop) (l : list A) :
  Forall (fun x => forall i, P (f x i)) l ->
  forall i, Forall P (mapIndexed f i l).
Proof.
  induction 1 as [|x l Hx _ IH]; intro i; cbn [mapIndexed]; constructor; auto.
Qed.

Lemma share_at_most_100 (a b : Z) :
  0 < b -> a <= b -> (JS.div a b * 100 <= 100)%Q.
Proof.
  intros Hb Hab. unfold JS.div.
  setoid_replace (100 : Q) with (1 * 100)%Q at 2 by reflexivity.
  apply Qmult_le_compat_r; [|discriminate].
  apply Qle_shift_div_r; [change 0%Q with (inject_Z 0); now rewrite <- Zlt_Qlt|].
  rewrite Qmult_1_l. now rewrite <- Zle_Qle.
Qed.

(** X24.  [generateTestTimeline] reorders the tests array of its caller:
    afterwards [data.tests] holds the same records slowest first, and the
    timeline lists them in that order, numbered from 0, each with a
    percentage of at most 100.  The performance tiers, computed from the
    reordered data, are those of the data as given. *)
Theorem timeline_reorders_the_callers_tests (data : ReportData)
        (ts : list TestResult) (Hts : tests data = Some ts) :
  exists timeline sorted data',
    generateTestTimeline data = Ok (timeline, data')
    /\ tests data' = Some sorted
    /\ Permutation sorted ts
    /\ StronglySorted (fun a b => duration b <= duration a) sorted
    /\ map tl_test timeline = sorted
    /\ map tl_index timeline = map Z.of_nat (seq 0 (List.length ts))
    /\ Forall (fun e => (tl_percentage e <= 100)%Q) timeline
    /\ generatePerformanceAnalysis data' = generatePerformanceAnalysis data.
Proof.
  unfold generateTestTimeline. rewrite Hts. cbv zeta.
  eexists. exists (JS.sort byDurationDesc ts). eexists.
  split; [reflexivity|]. split; [reflexivity|].
  split; [apply sort_perm|]. split; [apply sort_byDurationDesc_strongly|].
  split; [|split; [|split]].
  - rewrite (mapIndexed_map _ tl_test (fun t => t)) by reflexivity. apply map_id.
  - rewrite (mapIndexed_indexes _ tl_index) by reflexivity.
    rewrite sort_length. apply map_ext. intro k. lia.
  - apply mapIndexed_Forall, Forall_forall. intros t Ht i. cbn [tl_percentage].
    destruct (fold_max_spec (JS.sort byDurationDesc ts) 1) as (H1 & Hall & _).
    cbv zeta in H1, Hall. rewrite Forall_forall in Hall.
    apply share_at_most_100; [lia|now apply Hall].
  - unfold generatePerformanceAnalysis, testsOf. cbn [tests]. rewrite Hts.
    rewrite (sort_of_sorted _ byDurationDesc (JS.sort byDurationDesc ts))
      by (apply sort_adjacent; exact byDurationDesc_anti).
    cbv zeta.
    rewrite !(count_perm _ _ _ (sort_perm _ byDurationDesc ts)). reflexivity.
Qed.

Lemma timeline_reorders_the_callers_tests_witness :
  exists timeline data',
    generateTestTimeline
      (safeData (sampleData [sampleTest "a" "passed" 100 0 "a.spec.ts";
                             sampleTest "b" "failed" 400 0 "b.spec.ts";
                             sampleTest "c" "passed" 200 0 "a.spec.ts"]))
    = Ok (timeline, data')
    /\ map (fun e => (title (tl_test e), tl_index e, Qred (tl_percentage e))) timeline
       = [("b", 0, 100%Q); ("c", 1, 50%Q); ("a", 2, 25%Q)]
    /\ option_map (map title) (tests data') = Some ["b"; "c"; "a"].
Proof.
  destruct (timeline_reorders_the_callers_tests
              (safeData (sampleData [sampleTest "a" "passed" 100 0 "a.spec.ts";
                                     sampleTest "b" "failed" 400 0 "b.spec.ts";
                                     sampleTest "c" "passed" 200 0 "a.spec.ts"]))
              _ eq_refl) as (timeline & sorted & data' & H & _).
  exists timeline, data'. split; [exact H|].
  injection H as <- <-. split; vm_compute; reflexivity.
Defined.
